(** * CProcessSpawnSync: a shallow embedding of the synchronous process spawner

    The development follows [Sources/CProcessSpawnSync]:
    - [include/ps-api.h]: the public data types;
    - [internal-helpers.h]: [positive_int_parse], the descriptor enumerator
      and the signal mask helper;
    - [spawner.c]: [setup_and_execve_child], [ps_spawn_process] and
      [ps_convert_exit_status].

    C [int]s are modelled as [Z].  System calls act on an explicit [world]
    (descriptor table, errno, signal mask, a log of the calls made); what a
    call returns when the program text does not determine it is read from an
    [oracle] carried by the world. *)

From Stdlib Require Import ZArith Lia Bool Ascii String.
From stdpp Require Import gmap strings list pretty.

Open Scope Z_scope.

(** ** Build configuration

    The sources select code with the preprocessor: [__linux__] against
    [__APPLE__], [NDEBUG] for [ps_assert], and the presence of
    [<linux/close_range.h>]. *)

Inductive os := Linux | Darwin.

Record build := {
  b_os : os;
  b_ndebug : bool;
  b_has_close_range : bool
}.

(** *** Platform constants ([<errno.h>], [<signal.h>]) *)

Definition EINTR : Z := 4.
Definition EBADF : Z := 9.
Definition EINVAL : Z := 22.
Definition EMFILE : Z := 24.
Definition ENOSYS (o : os) : Z := match o with Linux => 38 | Darwin => 78 end.

Definition SIGILL : Z := 4.
Definition SIGTRAP : Z := 5.
Definition SIGABRT : Z := 6.
Definition SIGFPE : Z := 8.
Definition SIGKILL : Z := 9.
Definition SIGSEGV : Z := 11.
Definition SIGBUS (o : os) : Z := match o with Linux => 7 | Darwin => 10 end.
Definition SIGSTOP (o : os) : Z := match o with Linux => 19 | Darwin => 17 end.
Definition SIGSYS (o : os) : Z := match o with Linux => 31 | Darwin => 12 end.

(** Signal numbers lie in [1, NSIG). *)
Definition NSIG (o : os) : Z := match o with Linux => 65 | Darwin => 32 end.

Definition SIG_BLOCK (o : os) : Z := match o with Linux => 0 | Darwin => 1 end.
Definition SIG_SETMASK (o : os) : Z := match o with Linux => 2 | Darwin => 3 end.

Definition INT_MAX : Z := 2147483647.
Definition UINT_MAX : Z := 4294967295.

(** [if (x)] on a C integer. *)
Definition c_true (x : Z) : bool := negb (x =? 0).

(** *** The wait-status macros of [<sys/wait.h>]

    glibc: [WTERMSIG(s) = s & 0x7f], [WIFEXITED(s) = (WTERMSIG(s) == 0)],
    [WEXITSTATUS(s) = (s & 0xff00) >> 8],
    [WIFSIGNALED(s) = ((signed char)((s & 0x7f) + 1) >> 1) > 0].
    Darwin: [_WSTATUS(x) = x & 0177], [WIFEXITED(x) = (_WSTATUS(x) == 0)],
    [WIFSIGNALED(x) = (_WSTATUS(x) != 0177 && _WSTATUS(x) != 0)],
    [WEXITSTATUS(x) = (x >> 8) & 0xff], [WTERMSIG(x) = _WSTATUS(x)]. *)

Definition signed_char (v : Z) : Z :=
  let m := v mod 256 in if m <? 128 then m else m - 256.

Definition WTERMSIG (o : os) (s : Z) : Z := Z.land s 127.

Definition WIFEXITED (o : os) (s : Z) : bool := WTERMSIG o s =? 0.

Definition WEXITSTATUS (o : os) (s : Z) : Z :=
  match o with
  | Linux => Z.shiftr (Z.land s 65280) 8
  | Darwin => Z.land (Z.shiftr s 8) 255
  end.

Definition WIFSIGNALED (o : os) (s : Z) : bool :=
  match o with
  | Linux => 0 <? Z.shiftr (signed_char (Z.land s 127 + 1)) 1
  | Darwin => negb (Z.land s 127 =? 127) && negb (Z.land s 127 =? 0)
  end.

(** ** [ps-api.h] *)

Definition PS_ERROR_KIND_EXECVE : Z := 1.
Definition PS_ERROR_KIND_PIPE : Z := 2.
Definition PS_ERROR_KIND_FCNTL : Z := 3.
Definition PS_ERROR_KIND_SIGNAL : Z := 4.
Definition PS_ERROR_KIND_SIGPROC_MASK : Z := 5.
Definition PS_ERROR_KIND_CHDIR : Z := 6.
Definition PS_ERROR_KIND_SETSID : Z := 7.
Definition PS_ERROR_KIND_DUP2 : Z := 8.
Definition PS_ERROR_KIND_READ_FROM_CHILD : Z := 9.
Definition PS_ERROR_KIND_DUP : Z := 10.
Definition PS_ERROR_KIND_SIGMASK_THREAD : Z := 11.
Definition PS_ERROR_KIND_FAILED_CHILD_WAITPID : Z := 12.

(** [pse_file] is a [const char *]: [None] is the null pointer. *)
Record ps_error := {
  pse_kind : Z;
  pse_code : Z;
  pse_file : option string;
  pse_line : Z;
  pse_extra_info : Z
}.

(** [ps_error error = { 0 };] *)
Definition ps_error_zero : ps_error :=
  {| pse_kind := 0; pse_code := 0; pse_file := None; pse_line := 0;
     pse_extra_info := 0 |}.

Definition set_extra_info (e : ps_error) (v : Z) : ps_error :=
  {| pse_kind := pse_kind e; pse_code := pse_code e; pse_file := pse_file e;
     pse_line := pse_line e; pse_extra_info := v |}.

(** [sizeof(ps_error)] with 4-byte [int]s and an 8-byte pointer. *)
Definition sizeof_ps_error : Z := 24.

(** An enumeration object can hold a value outside [PS_MAP_FD = 1],
    [PS_CLOSE_FD = 2]; the [default:] arms of the source see those. *)
Inductive ps_fd_setup_kind :=
  | PS_MAP_FD
  | PS_CLOSE_FD
  | PS_FD_SETUP_OTHER (raw : Z).

Record ps_fd_setup := {
  psfd_kind : ps_fd_setup_kind;
  psfd_parent_fd : Z
}.

(** The instruction array and its count travel together as a list. *)
Record ps_process_configuration := {
  psc_path : string;
  psc_argv : list string;
  psc_env : list string;
  psc_cwd : option string;
  psc_fd_setup_instructions : list ps_fd_setup;
  psc_new_session : bool;
  psc_close_other_fds : bool
}.

Definition psc_fd_setup_count (config : ps_process_configuration) : Z :=
  Z.of_nat (length (psc_fd_setup_instructions config)).

(** ** [ps_convert_exit_status] (spawner.c, 355-369)

    The three out-parameters are returned as a record. *)

Record exit_status := {
  out_has_exited : bool;
  out_is_exit_code : bool;
  out_code : Z
}.

Definition ps_convert_exit_status (o : os) (in_status : Z) : exit_status :=
  if WIFEXITED o in_status then
    {| out_has_exited := true; out_is_exit_code := true;
       out_code := WEXITSTATUS o in_status |}
  else if WIFSIGNALED o in_status then
    {| out_has_exited := true; out_is_exit_code := false;
       out_code := WTERMSIG o in_status |}
  else
    {| out_has_exited := false; out_is_exit_code := false; out_code := -1 |}.

(** ** The world a process runs in *)

(** Open file descriptions.  [OFD_file] stands for whatever the caller had
    open before the call; the spawner itself creates the two ends of its
    error pipe and, in the enumerator, one directory stream. *)
Inductive ofd :=
  | OFD_file (id : Z)
  | OFD_pipe_read
  | OFD_pipe_write
  | OFD_dir.

Global Instance ofd_eq_dec : EqDecision ofd.
Proof. solve_decision. Defined.

(** One slot of the descriptor table: the description it refers to and its
    close-on-exec flag. *)
Record fd_entry := {
  fe_ofd : ofd;
  fe_cloexec : bool
}.

Inductive syscall :=
  | SYS_pipe | SYS_fcntl_setfd | SYS_fcntl_dupfd_cloexec | SYS_dup2
  | SYS_close | SYS_close_range | SYS_open | SYS_getdents
  | SYS_getdtablesize | SYS_read | SYS_write | SYS_signal | SYS_sigprocmask
  | SYS_pthread_sigmask | SYS_setsid | SYS_chdir | SYS_execve | SYS_exit
  | SYS_fork | SYS_waitpid | SYS_mutex_lock | SYS_mutex_unlock.

Global Instance syscall_eq_dec : EqDecision syscall.
Proof. solve_decision. Defined.

(** A call that was made: its integer arguments and what it returned. *)
Record event := {
  ev_call : syscall;
  ev_args : list Z;
  ev_ret : Z
}.

(** What [read] on the error pipe delivers: the return value, the errno it
    sets when that is negative, and the record it stores in the buffer when
    it is positive. *)
Record read_result := {
  rd_res : Z;
  rd_errno : Z;
  rd_data : ps_error
}.

(** What one [getdents64]/[__getdirentries64] call delivers: the return
    value, the errno it sets when negative, and the names of the records it
    laid out in the buffer. *)
Record getdents_result := {
  gd_ret : Z;
  gd_errno : Z;
  gd_names : list string
}.

(** The answers of the environment.  A field of type [option Z] injects a
    failure with that errno ([None]: the call takes its normal course); the
    scripts list the answers to successive calls of a loop. *)
Record oracle := {
  o_nofile : Z;                       (* RLIMIT_NOFILE *)
  o_pipe : option Z;
  o_fcntl_setfd : Z -> option Z;      (* by descriptor *)
  o_mutex_lock : Z;
  o_mutex_unlock : Z;
  o_pthread_sigmask : Z -> Z;         (* by [how]: the error number returned *)
  o_fork : Z * Z;                     (* return value, errno *)
  o_read : list read_result;
  o_waitpid : list (Z * Z);           (* return value, errno *)
  o_signal : Z -> option Z;           (* by signal number *)
  o_sigprocmask : option Z;
  o_setsid : Z * Z;                   (* return value, errno *)
  o_dup2 : Z -> option Z;             (* by target descriptor *)
  o_close_range : option Z;
  o_open : option Z;
  o_getdents : list getdents_result;
  o_chdir : option Z;
  o_execve : option Z
}.

Record world := {
  w_fds : gmap Z fd_entry;            (* descriptor table of this process *)
  w_errno : Z;
  w_sigmask : gset Z;                 (* blocked signals of this thread *)
  w_written : list (ofd * ps_error);  (* records written, by description *)
  w_trace : list event;               (* calls made, oldest first *)
  w_env : oracle
}.

Definition set_fds (t : gmap Z fd_entry) (w : world) : world :=
  {| w_fds := t; w_errno := w_errno w; w_sigmask := w_sigmask w;
     w_written := w_written w; w_trace := w_trace w; w_env := w_env w |}.

Definition set_errno (e : Z) (w : world) : world :=
  {| w_fds := w_fds w; w_errno := e; w_sigmask := w_sigmask w;
     w_written := w_written w; w_trace := w_trace w; w_env := w_env w |}.

Definition set_sigmask (m : gset Z) (w : world) : world :=
  {| w_fds := w_fds w; w_errno := w_errno w; w_sigmask := m;
     w_written := w_written w; w_trace := w_trace w; w_env := w_env w |}.

Definition add_written (d : ofd) (e : ps_error) (w : world) : world :=
  {| w_fds := w_fds w; w_errno := w_errno w; w_sigmask := w_sigmask w;
     w_written := w_written w ++ [(d, e)]; w_trace := w_trace w;
     w_env := w_env w |}.

Definition log (c : syscall) (args : list Z) (ret : Z) (w : world) : world :=
  {| w_fds := w_fds w; w_errno := w_errno w; w_sigmask := w_sigmask w;
     w_written := w_written w;
     w_trace := w_trace w ++ [{| ev_call := c; ev_args := args; ev_ret := ret |}];
     w_env := w_env w |}.

(** A call that fails: it returns -1 and sets errno. *)
Definition failed (c : syscall) (args : list Z) (e : Z) (w : world) : world :=
  set_errno e (log c args (-1) w).

(** *** The descriptor table *)

(** The slot of [fd]; a negative number names no slot. *)
Definition fd_get (t : gmap Z fd_entry) (fd : Z) : option fd_entry :=
  if fd <? 0 then None else t !! fd.

(** The lowest free descriptor among [lo], [lo+1], ... ([n] candidates). *)
Fixpoint scan_free (t : gmap Z fd_entry) (lo : Z) (n : nat) : option Z :=
  match n with
  | O => None
  | S n' => match t !! lo with
            | None => Some lo
            | Some _ => scan_free t (lo + 1) n'
            end
  end.

(** The lowest free descriptor in [lo, hi). *)
Definition lowest_free (t : gmap Z fd_entry) (lo hi : Z) : option Z :=
  scan_free t lo (Z.to_nat (hi - lo)).

(** [close(fd)] *)
Definition sys_close (fd : Z) (w : world) : Z * world :=
  match fd_get (w_fds w) fd with
  | Some _ => (0, set_fds (delete fd (w_fds w)) (log SYS_close [fd] 0 w))
  | None => (-1, failed SYS_close [fd] EBADF w)
  end.

(** [pipe(fds)]: two fresh descriptors, the lowest free ones, for the read
    and the write end; on failure the array is left alone. *)
Definition sys_pipe (fds : Z * Z) (w : world) : Z * (Z * Z) * world :=
  match o_pipe (w_env w) with
  | Some e => (-1, fds, failed SYS_pipe [] e w)
  | None =>
    match lowest_free (w_fds w) 0 (o_nofile (w_env w)) with
    | None => (-1, fds, failed SYS_pipe [] EMFILE w)
    | Some r =>
      let t := <[r := {| fe_ofd := OFD_pipe_read; fe_cloexec := false |}]> (w_fds w) in
      match lowest_free t 0 (o_nofile (w_env w)) with
      | None => (-1, fds, failed SYS_pipe [] EMFILE w)
      | Some wr =>
        let t' := <[wr := {| fe_ofd := OFD_pipe_write; fe_cloexec := false |}]> t in
        (0, (r, wr), set_fds t' (log SYS_pipe [r; wr] 0 w))
      end
    end
  end.

(** [fcntl(fd, F_SETFD, FD_CLOEXEC)] *)
Definition sys_fcntl_setfd_cloexec (fd : Z) (w : world) : Z * world :=
  match o_fcntl_setfd (w_env w) fd with
  | Some e => (-1, failed SYS_fcntl_setfd [fd] e w)
  | None =>
    match fd_get (w_fds w) fd with
    | None => (-1, failed SYS_fcntl_setfd [fd] EBADF w)
    | Some en =>
      (0, set_fds (<[fd := {| fe_ofd := fe_ofd en; fe_cloexec := true |}]> (w_fds w))
                  (log SYS_fcntl_setfd [fd] 0 w))
    end
  end.

(** [fcntl(fd, F_DUPFD_CLOEXEC, lowest)]: the lowest free descriptor that is
    at least [lowest], referring to the description of [fd], with
    close-on-exec set. *)
Definition sys_fcntl_dupfd_cloexec (fd lowest : Z) (w : world) : Z * world :=
  match fd_get (w_fds w) fd with
  | None => (-1, failed SYS_fcntl_dupfd_cloexec [fd; lowest] EBADF w)
  | Some en =>
    if (lowest <? 0) || (o_nofile (w_env w) <=? lowest) then
      (-1, failed SYS_fcntl_dupfd_cloexec [fd; lowest] EINVAL w)
    else
      match lowest_free (w_fds w) lowest (o_nofile (w_env w)) with
      | None => (-1, failed SYS_fcntl_dupfd_cloexec [fd; lowest] EMFILE w)
      | Some n =>
        (n, set_fds (<[n := {| fe_ofd := fe_ofd en; fe_cloexec := true |}]> (w_fds w))
                    (log SYS_fcntl_dupfd_cloexec [fd; lowest] n w))
      end
  end.

(** [dup2(oldfd, newfd)]: [newfd] is silently closed first and then refers
    to the description of [oldfd], with close-on-exec clear. *)
Definition sys_dup2 (oldfd newfd : Z) (w : world) : Z * world :=
  match o_dup2 (w_env w) newfd with
  | Some e => (-1, failed SYS_dup2 [oldfd; newfd] e w)
  | None =>
    match fd_get (w_fds w) oldfd with
    | None => (-1, failed SYS_dup2 [oldfd; newfd] EBADF w)
    | Some en =>
      if (newfd <? 0) || (o_nofile (w_env w) <=? newfd) then
        (-1, failed SYS_dup2 [oldfd; newfd] EBADF w)
      else if oldfd =? newfd then
        (newfd, log SYS_dup2 [oldfd; newfd] newfd w)
      else
        (newfd, set_fds (<[newfd := {| fe_ofd := fe_ofd en; fe_cloexec := false |}]> (w_fds w))
                        (log SYS_dup2 [oldfd; newfd] newfd w))
    end
  end.

(** [close_range(first, last, 0)] closes every open descriptor in
    [first, last]. *)
Definition sys_close_range (first last : Z) (w : world) : Z * world :=
  match o_close_range (w_env w) with
  | Some e => (-1, failed SYS_close_range [first; last] e w)
  | None =>
    if last <? first then (-1, failed SYS_close_range [first; last] EINVAL w)
    else
      (0, set_fds (filter (λ kv, ¬ (first ≤ kv.1 ≤ last)) (w_fds w))
                  (log SYS_close_range [first; last] 0 w))
  end.

(** [open(fd_dir, O_RDONLY)] on the descriptor directory. *)
Definition sys_open_dir (w : world) : Z * world :=
  match o_open (w_env w) with
  | Some e => (-1, failed SYS_open [] e w)
  | None =>
    match lowest_free (w_fds w) 0 (o_nofile (w_env w)) with
    | None => (-1, failed SYS_open [] EMFILE w)
    | Some n =>
      (n, set_fds (<[n := {| fe_ofd := OFD_dir; fe_cloexec := false |}]> (w_fds w))
                  (log SYS_open [] n w))
    end
  end.

(** One [getdents] call with the answer [r]. *)
Definition sys_getdents (dir_fd : Z) (r : getdents_result) (w : world) : Z * world :=
  if gd_ret r <? 0 then (gd_ret r, set_errno (gd_errno r) (log SYS_getdents [dir_fd] (gd_ret r) w))
  else (gd_ret r, log SYS_getdents [dir_fd] (gd_ret r) w).

(** [getdtablesize()] *)
Definition sys_getdtablesize (w : world) : Z * world :=
  (o_nofile (w_env w), log SYS_getdtablesize [] (o_nofile (w_env w)) w).

(** [write(fd, &error, sizeof(error))]: the record reaches the description
    behind [fd]. *)
Definition sys_write (fd : Z) (e : ps_error) (w : world) : Z * world :=
  match fd_get (w_fds w) fd with
  | None => (-1, failed SYS_write [fd] EBADF w)
  | Some en => (sizeof_ps_error, add_written (fe_ofd en) e (log SYS_write [fd] sizeof_ps_error w))
  end.

(** One [read] on the error pipe with the answer [r]. *)
Definition sys_read (fd : Z) (r : read_result) (w : world) : Z * world :=
  if rd_res r <? 0 then (rd_res r, set_errno (rd_errno r) (log SYS_read [fd] (rd_res r) w))
  else (rd_res r, log SYS_read [fd] (rd_res r) w).

(** One [waitpid(pid, NULL, 0)] with the answer [r]. *)
Definition sys_waitpid (pid : Z) (r : Z * Z) (w : world) : Z * world :=
  if r.1 <? 0 then (r.1, set_errno r.2 (log SYS_waitpid [pid] r.1 w))
  else (r.1, log SYS_waitpid [pid] r.1 w).

(** [signal(signo, SIG_DFL)]; [true] stands for [SIG_ERR]. *)
Definition sys_signal_dfl (signo : Z) (w : world) : bool * world :=
  match o_signal (w_env w) signo with
  | Some e => (true, failed SYS_signal [signo] e w)
  | None => (false, log SYS_signal [signo] 0 w)
  end.

(** [sigprocmask(SIG_SETMASK, &sigset, NULL)] *)
Definition sys_sigprocmask_set (sigset : gset Z) (w : world) : Z * world :=
  match o_sigprocmask (w_env w) with
  | Some e => (-1, failed SYS_sigprocmask [] e w)
  | None => (0, set_sigmask sigset (log SYS_sigprocmask [] 0 w))
  end.

(** [setsid()]: the new session id, or -1. *)
Definition sys_setsid (w : world) : Z * world :=
  let r := o_setsid (w_env w) in
  if r.1 <? 0 then (r.1, set_errno r.2 (log SYS_setsid [] r.1 w))
  else (r.1, log SYS_setsid [] r.1 w).

(** [chdir(cwd)] *)
Definition sys_chdir (w : world) : Z * world :=
  match o_chdir (w_env w) with
  | Some e => (-1, failed SYS_chdir [] e w)
  | None => (0, log SYS_chdir [] 0 w)
  end.

(** [fork()]/[vfork()]: 0 in the child, the child's pid or -1 in the parent. *)
Definition sys_fork (w : world) : Z * world :=
  let r := o_fork (w_env w) in
  if r.1 <? 0 then (r.1, set_errno r.2 (log SYS_fork [] r.1 w))
  else (r.1, log SYS_fork [] r.1 w).

(** [pthread_mutex_lock(&g_fork_lock)] and its unlock return an error number. *)
Definition sys_mutex_lock (w : world) : Z * world :=
  (o_mutex_lock (w_env w), log SYS_mutex_lock [] (o_mutex_lock (w_env w)) w).

Definition sys_mutex_unlock (w : world) : Z * world :=
  (o_mutex_unlock (w_env w), log SYS_mutex_unlock [] (o_mutex_unlock (w_env w)) w).

(** [execve(path, argv, env)]: on success the image is replaced, every
    close-on-exec descriptor is closed and the call does not return
    ([None]); on failure it returns -1. *)
Definition sys_execve (w : world) : option Z * world :=
  match o_execve (w_env w) with
  | Some e => (Some (-1), failed SYS_execve [] e w)
  | None =>
    (None, set_fds (filter (λ kv, fe_cloexec kv.2 = false) (w_fds w))
                   (log SYS_execve [] 0 w))
  end.

(** *** Signal sets ([sigset_t]) *)

(** The two numbers glibc keeps for itself ([SIGCANCEL] and [SIGSETXID],
    below [SIGRTMIN] = 34): to the functions of [<signal.h>] they are no
    signals.  Darwin keeps none. *)
Definition reserved_signal (o : os) (signo : Z) : bool :=
  match o with
  | Linux => (signo =? 32) || (signo =? 33)
  | Darwin => false
  end.

(** What [sigaddset], [sigdelset] and [sigismember] take for a signal. *)
Definition valid_signal (o : os) (signo : Z) : bool :=
  (1 <=? signo) && (signo <? NSIG o) && negb (reserved_signal o signo).

(** [sigfillset(&mask)]: every signal; glibc clears its reserved two.  A
    set is modelled by the signals in it: the bit Darwin's 32-bit
    [sigset_t] has for the number 32, which is no signal, is left out. *)
Definition sigfillset (o : os) : Z * gset Z :=
  (0, list_to_set
        (filter (λ signo, reserved_signal o signo = false)
                (seqZ 1 (NSIG o - 1)))).

(** [sigemptyset(&mask)] *)
Definition sigemptyset : Z * gset Z := (0, ∅).

(** [sigdelset(&mask, signo)]: -1 with [EINVAL] for an invalid number. *)
Definition sigdelset (o : os) (mask : gset Z) (signo : Z) (w : world)
  : Z * gset Z * world :=
  if valid_signal o signo then (0, mask ∖ {[signo]}, w)
  else (-1, mask, set_errno EINVAL w).

(** [pthread_sigmask(how, &set, oldset)] returns an error number and leaves
    errno alone.  On success the old mask is stored through [oldset]
    ([Some]) and the new one installed; kill and stop are never blocked.
    (glibc would also drop its reserved numbers from [set]; [sigfillset]
    has left them out already.) *)
Definition sys_pthread_sigmask (o : os) (how : Z) (set : gset Z) (w : world)
  : Z * option (gset Z) * world :=
  let r := o_pthread_sigmask (w_env w) how in
  if r =? 0 then
    let new :=
      if how =? SIG_BLOCK o then w_sigmask w ∪ set
      else if how =? SIG_SETMASK o then set
      else w_sigmask w ∖ set in
    (0, Some (w_sigmask w),
     set_sigmask (new ∖ {[SIGKILL; SIGSTOP o]}) (log SYS_pthread_sigmask [how] 0 w))
  else (r, None, log SYS_pthread_sigmask [how] r w).

(** ** How a run ends *)

Inductive fate :=
  | Returned (pid : Z)      (* the function returned to its caller *)
  | Trapped                 (* [__builtin_trap()] *)
  | Blocked                 (* a blocking call never came back *)
  | Undefined               (* signed overflow, [__builtin_unreachable()] *)
  | Exited (status : Z)     (* [_exit(status)] *)
  | Execed.                 (* [execve] replaced the process image *)

(** The result of a block of the child: it falls through with a value,
    jumps to [write_fail] with the error it built, or ends the process. *)
Inductive step (A : Type) :=
  | Next (a : A)
  | Write_fail (error : ps_error)
  | Halt (f : fate).

Arguments Next {A} a.
Arguments Write_fail {A} error.
Arguments Halt {A} f.

Definition child (A : Type) : Type := world -> step A * world.

Definition bind {A B : Type} (m : child A) (k : A -> child B) : child B :=
  fun w =>
    match m w with
    | (Next a, w') => k a w'
    | (Write_fail e, w') => (Write_fail e, w')
    | (Halt f, w') => (Halt f, w')
    end.

Global Instance child_bind : MBind child := λ A B k m, bind m k.
Global Instance child_ret : MRet child := λ A a w, (Next a, w).

(** ** [internal-helpers.h] *)

(** [c >= '0' && c <= '9'] *)
Definition is_digit (c : ascii) : bool :=
  let n := Z.of_nat (nat_of_ascii c) in (48 <=? n) && (n <=? 57).

(** [positive_int_parse] (28-41), from the accumulator [out].  [None] is
    signed overflow of [out], which C leaves undefined. *)
Fixpoint positive_int_parse_from (str : string) (out : Z) : option Z :=
  match str with
  | EmptyString => Some out
  | String c str' =>
    if Z.of_nat (nat_of_ascii c) =? 0 then Some out
    else
      let out := out * 10 in
      if INT_MAX <? out then None
      else if is_digit c then
        let out := out + (Z.of_nat (nat_of_ascii c) - 48) in
        if INT_MAX <? out then None else positive_int_parse_from str' out
      else Some (-1)
  end.

Definition positive_int_parse (str : string) : option Z :=
  positive_int_parse_from str 0.

(** [entry->d_name[0] != '.'] *)
Definition not_dot_entry (d_name : string) : bool :=
  match d_name with
  | EmptyString => true
  | String c _ => negb (Z.of_nat (nat_of_ascii c) =? 46)
  end.

(** The inner loop (84-100) over the records of one buffer. *)
Fixpoint scan_entries (names : list string) (highest_fd_so_far : Z) : option Z :=
  match names with
  | [] => Some highest_fd_so_far
  | d_name :: rest =>
    if not_dot_entry d_name then
      match positive_int_parse d_name with
      | None => None
      | Some number =>
        scan_entries rest
          (if highest_fd_so_far <? number then number else highest_fd_so_far)
      end
    else scan_entries rest highest_fd_so_far
  end.

(** The read loop (63-101).  The result is the value of
    [highest_fd_so_far] on arrival at the label [error]; [None] is
    undefined behaviour in the parse.  An exhausted script reads as the end
    of the directory. *)
Fixpoint getdents_loop (script : list getdents_result) (dir_fd : Z)
    (highest_fd_so_far : Z) (w : world) : option Z * world :=
  match script with
  | [] =>
    let '(_, w) := sys_getdents dir_fd {| gd_ret := 0; gd_errno := 0; gd_names := [] |} w in
    (Some highest_fd_so_far, w)
  | r :: script' =>
    let '(bytes_read, w) := sys_getdents dir_fd r w in
    if 0 <? bytes_read then
      if bytes_read <? 0 then
        if w_errno w =? EINTR then
          getdents_loop script' dir_fd highest_fd_so_far w
        else (Some (-1), w)
      else
        match scan_entries (gd_names r) highest_fd_so_far with
        | None => (None, w)
        | Some h => getdents_loop script' dir_fd h w
        end
    else (Some highest_fd_so_far, w)
  end.

(** [highest_possibly_open_fd_dir_syscall] (46-106) *)
Definition highest_possibly_open_fd_dir_syscall (fd_dir : string) (w : world)
  : option Z * world :=
  let highest_fd_so_far := 0 in
  let '(dir_fd, w) := sys_open_dir w in
  if dir_fd <? 0 then (Some (-1), w)
  else
    match getdents_loop (o_getdents (w_env w)) dir_fd highest_fd_so_far w with
    | (None, w) => (None, w)
    | (Some highest, w) =>
      let '(_, w) := sys_close dir_fd w in
      (Some highest, w)
    end.

(** [highest_possibly_open_fd] (109-125) *)
Definition highest_possibly_open_fd (o : os) (w : world) : option Z * world :=
  let fd_dir := match o with Darwin => "/dev/fd" | Linux => "/proc/self/fd" end%string in
  match highest_possibly_open_fd_dir_syscall fd_dir w with
  | (None, w) => (None, w)
  | (Some hi, w) =>
    if hi <? 0 then
      let '(hi, w) := sys_getdtablesize w in (Some hi, w)
    else (Some hi, w)
  end.

(** [block_everything_but_something_went_seriously_wrong_signals]
    (127-143).  [old_mask] is the caller's slot; the result carries its
    content after the call and the mask handed to [pthread_sigmask]. *)
Definition block_everything_but_something_went_seriously_wrong_signals
    (o : os) (old_mask : gset Z) (w : world) : Z * gset Z * gset Z * world :=
  let r := 0 in
  let '(e, mask) := sigfillset o in
  let r := Z.lor r e in
  let '(e, mask, w) := sigdelset o mask SIGABRT w in
  let r := Z.lor r e in
  let '(e, mask, w) := sigdelset o mask (SIGBUS o) w in
  let r := Z.lor r e in
  let '(e, mask, w) := sigdelset o mask SIGFPE w in
  let r := Z.lor r e in
  let '(e, mask, w) := sigdelset o mask SIGILL w in
  let r := Z.lor r e in
  let '(e, mask, w) := sigdelset o mask SIGKILL w in
  let r := Z.lor r e in
  let '(e, mask, w) := sigdelset o mask SIGSEGV w in
  let r := Z.lor r e in
  let '(e, mask, w) := sigdelset o mask (SIGSTOP o) w in
  let r := Z.lor r e in
  let '(e, mask, w) := sigdelset o mask (SIGSYS o) w in
  let r := Z.lor r e in
  let '(e, mask, w) := sigdelset o mask SIGTRAP w in
  let r := Z.lor r e in
  let '(e, saved, w) := sys_pthread_sigmask o (SIG_BLOCK o) mask w in
  let r := Z.lor r e in
  (r, default old_mask saved, mask, w).

(** ** [spawner.c] *)

(** [__apple__] is not a macro any compiler predefines, so the [#if] at
    44-48 always takes its [#else] arm. *)
Definition PS_SIG_MAX : Z := 32.

(** [MAKE_PS_ERROR_FROM_ERRNO(kind)] expanded at source line [line]. *)
Definition MAKE_PS_ERROR_FROM_ERRNO (kind line : Z) (w : world) : ps_error :=
  {| pse_kind := kind; pse_code := w_errno w; pse_file := Some "spawner.c"%string;
     pse_line := line; pse_extra_info := 0 |}.

(** [if (out_error) { *out_error = error; }]; [None] is the null pointer. *)
Definition store_error (out_error : option ps_error) (error : ps_error)
  : option ps_error :=
  match out_error with
  | Some _ => Some error
  | None => None
  end.

Section Spawner.

Variable B : build.

Local Abbreviation o := (b_os B).

(** *** [setup_and_execve_child] (75-201) *)

(** Reset signal handlers (81-97): [n] iterations remain, the next one is
    for [signo]. *)
Fixpoint reset_signal_handlers_loop (n : nat) (signo : Z) : child unit :=
  fun w =>
    match n with
    | O => (Next tt, w)
    | S n' =>
      if (signo =? SIGKILL) || (signo =? SIGSTOP o) then
        reset_signal_handlers_loop n' (signo + 1) w
      else
        let '(is_sig_err, w) := sys_signal_dfl signo w in
        if negb is_sig_err then reset_signal_handlers_loop n' (signo + 1) w
        else if w_errno w =? EINVAL then (Next tt, w)
        else
          let error := MAKE_PS_ERROR_FROM_ERRNO PS_ERROR_KIND_SIGNAL 94 w in
          (Write_fail (set_extra_info error signo), w)
    end.

Definition reset_signal_handlers : child unit :=
  reset_signal_handlers_loop (Z.to_nat (PS_SIG_MAX - 1)) 1.

(** Reset signal mask (99-105). *)
Definition reset_signal_mask : child unit :=
  fun w =>
    let '(_, sigset) := sigemptyset in
    let '(r, w) := sys_sigprocmask_set sigset w in
    let err := if r =? 0 then 0 else 1 in
    if c_true err then
      (Write_fail (MAKE_PS_ERROR_FROM_ERRNO PS_ERROR_KIND_SIGPROC_MASK 103 w), w)
    else (Next tt, w).

(** New session (107-113). *)
Definition new_session (config : ps_process_configuration) : child unit :=
  fun w =>
    if psc_new_session config then
      let '(err, w) := sys_setsid w in
      if c_true err then
        (Write_fail (MAKE_PS_ERROR_FROM_ERRNO PS_ERROR_KIND_SETSID 110 w), w)
      else (Next tt, w)
    else (Next tt, w).

(** First descriptor loop (115-133): [instructions] are the entries from
    index [child_fd] on. *)
Fixpoint duplicate_up_loop (instructions : list ps_fd_setup) (child_fd : nat)
    (count : Z) (scratch : list Z) : child (list Z) :=
  fun w =>
    match instructions with
    | [] => (Next scratch, w)
    | setup :: rest =>
      match psfd_kind setup with
      | PS_MAP_FD =>
        let '(dup, w) := sys_fcntl_dupfd_cloexec (psfd_parent_fd setup) count w in
        let scratch := <[child_fd := dup]> scratch in
        if dup =? -1 then
          let error := MAKE_PS_ERROR_FROM_ERRNO PS_ERROR_KIND_DUP 122 w in
          (Write_fail (set_extra_info error (Z.of_nat child_fd)), w)
        else duplicate_up_loop rest (S child_fd) count scratch w
      | PS_CLOSE_FD =>
        duplicate_up_loop rest (S child_fd) count (<[child_fd := -1]> scratch) w
      | PS_FD_SETUP_OTHER _ => (Halt Trapped, w)
      end
    end.

(** Second descriptor loop (135-154). *)
Fixpoint install_loop (instructions : list ps_fd_setup) (child_fd : nat)
    (scratch : list Z) : child unit :=
  fun w =>
    match instructions with
    | [] => (Next tt, w)
    | setup :: rest =>
      let duplicated_fd := default 0 (scratch !! child_fd) in
      match psfd_kind setup with
      | PS_MAP_FD =>
        if negb (Z.of_nat child_fd <? duplicated_fd) then (Halt Trapped, w)
        else
          let '(err, w) := sys_dup2 duplicated_fd (Z.of_nat child_fd) w in
          if err =? -1 then
            let error := MAKE_PS_ERROR_FROM_ERRNO PS_ERROR_KIND_DUP2 142 w in
            (Write_fail (set_extra_info error (Z.of_nat child_fd)), w)
          else install_loop rest (S child_fd) scratch w
      | PS_CLOSE_FD =>
        if negb (duplicated_fd =? -1) then (Halt Trapped, w)
        else
          let '(_, w) := sys_close (Z.of_nat child_fd) w in
          install_loop rest (S child_fd) scratch w
      | PS_FD_SETUP_OTHER _ => (Halt Trapped, w)
      end
    end.

(** The fallback loop (172-176): [n] iterations remain, the next is [i]. *)
Fixpoint close_loop (n : nat) (i : Z) (error_pipe : Z) (w : world) : world :=
  match n with
  | O => w
  | S n' =>
    let w := if negb (i =? error_pipe) then (sys_close i w).2 else w in
    close_loop n' (i + 1) error_pipe w
  end.

(** Close the other descriptors (156-178). *)
Definition close_other_fds (config : ps_process_configuration) (error_pipe : Z)
  : child unit :=
  fun w =>
    if psc_close_other_fds config then
      let count := psc_fd_setup_count config in
      let close_range_err := -1 in
      let w := set_errno (ENOSYS o) w in
      let '(close_range_err, w) :=
        if b_has_close_range B then
          if count <? error_pipe then
            let '(e1, w) := sys_close_range count (error_pipe - 1) w in
            let '(e2, w) := sys_close_range (error_pipe + 1) UINT_MAX w in
            (Z.lor e1 e2, w)
          else
            let from := if count =? error_pipe then error_pipe + 1 else count in
            sys_close_range from UINT_MAX w
        else (close_range_err, w) in
      if c_true close_range_err then
        match highest_possibly_open_fd o w with
        | (None, w) => (Halt Undefined, w)
        | (Some high_fd, w) =>
          (Next tt, close_loop (Z.to_nat (high_fd - count + 1)) count error_pipe w)
        end
      else (Next tt, w)
    else (Next tt, w).

(** Change directory (180-186). *)
Definition change_directory (config : ps_process_configuration) : child unit :=
  fun w =>
    match psc_cwd config with
    | Some _ =>
      let '(err, w) := sys_chdir w in
      if c_true err then
        (Write_fail (MAKE_PS_ERROR_FROM_ERRNO PS_ERROR_KIND_CHDIR 183 w), w)
      else (Next tt, w)
    | None => (Next tt, w)
    end.

(** Finally, exec (188-195). *)
Definition exec_target : child unit :=
  fun w =>
    match sys_execve w with
    | (None, w) => (Halt Execed, w)
    | (Some err, w) =>
      if c_true err then
        (Write_fail (MAKE_PS_ERROR_FROM_ERRNO PS_ERROR_KIND_EXECVE 191 w), w)
      else (Halt Undefined, w)
    end.

(** The label [write_fail] (197-200). *)
Definition write_fail (error_pipe : Z) (error : ps_error) (w : world)
  : fate * world :=
  let '(_, w) := sys_write error_pipe error w in
  let '(_, w) := sys_close error_pipe w in
  (Exited 253, log SYS_exit [253] 0 w).

(** The blocks in the order of the source, up to the jump or the exec. *)
Definition child_setup (config : ps_process_configuration) (error_pipe : Z)
    (scratch : list Z) : child unit :=
  _ ← reset_signal_handlers;
  _ ← reset_signal_mask;
  _ ← new_session config;
  scratch ← duplicate_up_loop (psc_fd_setup_instructions config) 0
              (psc_fd_setup_count config) scratch;
  _ ← install_loop (psc_fd_setup_instructions config) 0 scratch;
  _ ← close_other_fds config error_pipe;
  _ ← change_directory config;
  exec_target.

Definition setup_and_execve_child (config : ps_process_configuration)
    (error_pipe : Z) (scratch : list Z) (w : world) : fate * world :=
  match child_setup config error_pipe scratch w with
  | (Write_fail error, w) => write_fail error_pipe error w
  | (Halt f, w) => (f, w)
  | (Next _, w) => (Undefined, w)
  end.

(** *** [ps_spawn_process] (203-353) *)

(** The reaping loop at [error_cleanup] (321-343).  The result says how the
    loop was left: [None] by [break], [Some f] when the run ended there. *)
Fixpoint waitpid_loop (script : list (Z * Z)) (pid err : Z)
    (out_error : option ps_error) (w : world)
  : option fate * option ps_error * world :=
  match script with
  | [] => (Some Blocked, out_error, w)
  | r :: script' =>
    let '(wp_result, w) := sys_waitpid pid r w in
    if 0 <? wp_result then (None, out_error, w)
    else if err =? -1 then
      if w_errno w =? EINTR then waitpid_loop script' pid err out_error w
      else if b_ndebug B then
        let error := MAKE_PS_ERROR_FROM_ERRNO PS_ERROR_KIND_FAILED_CHILD_WAITPID 333 w in
        (None, store_error out_error error, w)
      else (Some Trapped, out_error, w)
    else (Some Trapped, out_error, w)
  end.

(** The label [error_cleanup] (320-352), entered with the locals [pid],
    [err] and [error_pid_fd] as they stand at the jump. *)
Definition error_cleanup (pid err : Z) (error_pid_fd : Z * Z)
    (out_error : option ps_error) (w : world)
  : fate * option ps_error * world :=
  let '(ended, out_error, w) :=
    if 0 <? pid then waitpid_loop (o_waitpid (w_env w)) pid err out_error w
    else (None, out_error, w) in
  match ended with
  | Some f => (f, out_error, w)
  | None =>
    let w := if negb (error_pid_fd.1 =? -1) then (sys_close error_pid_fd.1 w).2 else w in
    let w := if negb (error_pid_fd.2 =? -1) then (sys_close error_pid_fd.2 w).2 else w in
    let ok := match out_error with
              | None => true
              | Some e => negb (pse_kind e =? 0)
              end in
    if ok then (Returned 0, out_error, w) else (Trapped, out_error, w)
  end.

(** The parent's read loop (283-309). *)
Fixpoint read_loop (script : list read_result) (pid err : Z)
    (error_pid_fd : Z * Z) (out_error : option ps_error) (w : world)
  : fate * option ps_error * world :=
  match script with
  | [] => (Blocked, out_error, w)
  | r :: script' =>
    let '(read_res, w) := sys_read error_pid_fd.1 r w in
    if read_res =? 0 then
      let '(_, w) := sys_close error_pid_fd.1 w in
      (Returned pid, out_error, w)
    else if 0 <? read_res then
      if negb (read_res =? sizeof_ps_error) then (Trapped, out_error, w)
      else
        let child_error := rd_data r in
        error_cleanup pid err error_pid_fd (store_error out_error child_error) w
    else read_loop script' pid err error_pid_fd out_error w
  end.

Definition ps_spawn_process (config : ps_process_configuration)
    (out_error : option ps_error) (w : world)
  : fate * option ps_error * world :=
  let pid := -1 in
  let '(err, error_pid_fd, w) := sys_pipe (-1, -1) w in
  if c_true err then
    let error := MAKE_PS_ERROR_FROM_ERRNO PS_ERROR_KIND_PIPE 210 w in
    error_cleanup pid err error_pid_fd (store_error out_error error) w
  else
  let '(err, w) := sys_fcntl_setfd_cloexec error_pid_fd.1 w in
  if c_true err then
    let error := MAKE_PS_ERROR_FROM_ERRNO PS_ERROR_KIND_FCNTL 219 w in
    error_cleanup pid err error_pid_fd (store_error out_error error) w
  else
  let '(err, w) := sys_fcntl_setfd_cloexec error_pid_fd.2 w in
  if c_true err then
    let error := MAKE_PS_ERROR_FROM_ERRNO PS_ERROR_KIND_FCNTL 228 w in
    error_cleanup pid err error_pid_fd (store_error out_error error) w
  else
  let scratch := replicate (length (psc_fd_setup_instructions config)) 0 in
  let '(err, w) := sys_mutex_lock w in
  if negb (err =? 0) then (Trapped, out_error, w)
  else
  let '(err, old_sigmask, _, w) :=
    block_everything_but_something_went_seriously_wrong_signals o ∅ w in
  if c_true err then
    let error := MAKE_PS_ERROR_FROM_ERRNO PS_ERROR_KIND_SIGMASK_THREAD 244 w in
    error_cleanup pid err error_pid_fd (store_error out_error error) w
  else
  let '(pid, w) := sys_fork w in
  if pid =? 0 then
    (* child; [exit(254)] after the call is never reached *)
    let '(f, w) := setup_and_execve_child config error_pid_fd.2 scratch w in
    (f, out_error, w)
  else
    (* parent *)
    let '(err, _, w) := sys_pthread_sigmask o (SIG_SETMASK o) old_sigmask w in
    if c_true err then
      let error := MAKE_PS_ERROR_FROM_ERRNO PS_ERROR_KIND_SIGMASK_THREAD 265 w in
      error_cleanup pid err error_pid_fd (store_error out_error error) w
    else
    let '(err, w) := sys_mutex_unlock w in
    if negb (err =? 0) then (Trapped, out_error, w)
    else
    if 0 <? pid then
      let '(_, w) := sys_close error_pid_fd.2 w in
      let error_pid_fd := (error_pid_fd.1, -1) in
      read_loop (o_read (w_env w)) pid err error_pid_fd out_error w
    else
      let pid := 0 in
      let error := MAKE_PS_ERROR_FROM_ERRNO PS_ERROR_KIND_FCNTL 312 w in
      error_cleanup pid err error_pid_fd (store_error out_error error) w.

End Spawner.

(** ** Parent and child together

    [ps_spawn_process] is run by two processes once [fork] has returned: by
    the child, where [fork] answered 0, and by the parent, where it answered
    the child's pid.  The error pipe joins the two runs: the parent reads
    the records the child wrote into the write end and then, once no
    descriptor of the child refers to the write end any more (the child is
    gone, or exec closed them), end-of-file. *)

Definition with_fork_read (fork : Z * Z) (reads : list read_result)
    (env : oracle) : oracle :=
  {| o_nofile := o_nofile env; o_pipe := o_pipe env;
     o_fcntl_setfd := o_fcntl_setfd env; o_mutex_lock := o_mutex_lock env;
     o_mutex_unlock := o_mutex_unlock env;
     o_pthread_sigmask := o_pthread_sigmask env;
     o_fork := fork; o_read := reads; o_waitpid := o_waitpid env;
     o_signal := o_signal env; o_sigprocmask := o_sigprocmask env;
     o_setsid := o_setsid env; o_dup2 := o_dup2 env;
     o_close_range := o_close_range env; o_open := o_open env;
     o_getdents := o_getdents env; o_chdir := o_chdir env;
     o_execve := o_execve env |}.

Definition in_env (env : oracle) (w : world) : world :=
  {| w_fds := w_fds w; w_errno := w_errno w; w_sigmask := w_sigmask w;
     w_written := w_written w; w_trace := w_trace w; w_env := env |}.

Definition full_read (e : ps_error) : read_result :=
  {| rd_res := sizeof_ps_error; rd_errno := 0; rd_data := e |}.

Definition eof : read_result :=
  {| rd_res := 0; rd_errno := 0; rd_data := ps_error_zero |}.

Definition failed_read (e : Z) : read_result :=
  {| rd_res := -1; rd_errno := e; rd_data := ps_error_zero |}.

Definition holds_write_end (t : gmap Z fd_entry) : bool :=
  bool_decide (Exists (λ kv, fe_ofd kv.2 = OFD_pipe_write) (map_to_list t)).

Definition pipe_records (written : list (ofd * ps_error)) : list ps_error :=
  omap (λ de, if decide (de.1 = OFD_pipe_write) then Some de.2 else None) written.

(** What the parent's reads deliver after a child that ended with [f] in
    the world [wc]. *)
Definition parent_reads (f : fate) (wc : world) : list read_result :=
  (full_read <$> pipe_records (w_written wc)) ++
  match f with
  | Execed => if holds_write_end (w_fds wc) then [] else [eof]
  | _ => [eof]
  end.

(** The child's run and the parent's run of one call in which [fork] gave
    the child the pid [pid]. *)
Definition spawn_both (B : build) (config : ps_process_configuration)
    (out_error : option ps_error) (pid : Z) (w : world)
  : (fate * world) * (fate * option ps_error * world) :=
  let '(fc, _, wc) :=
    ps_spawn_process B config out_error
      (in_env (with_fork_read (0, 0) [] (w_env w)) w) in
  ((fc, wc),
   ps_spawn_process B config out_error
     (in_env (with_fork_read (pid, 0) (parent_reads fc wc) (w_env w)) w)).

(** ** Vocabulary of the statements *)

(** The signal numbers [signal] was called on, in order. *)
Definition signal_of_event (ev : event) : option Z :=
  if decide (ev_call ev = SYS_signal) then head (ev_args ev) else None.

Definition signal_calls (tr : list event) : list Z := omap signal_of_event tr.

Arguments signal_calls : simpl never.

(** The calls to one of [cs] in a trace. *)
Definition calls_of (cs : list syscall) (tr : list event) : list event :=
  filter (λ ev, ev_call ev ∈ cs) tr.

Definition resettable (o : os) (signo : Z) : Prop :=
  signo ≠ SIGKILL ∧ signo ≠ SIGSTOP o.

Global Instance resettable_dec o signo : Decision (resettable o signo).
Proof. unfold resettable. apply _. Defined.

(** The numbers from 1 to 31 but kill and stop, ascending. *)
Definition signals_to_reset (o : os) : list Z :=
  filter (resettable o) (seqZ 1 31).

(** The record the child reports when resetting [signo] failed with [e]. *)
Definition signal_reset_error (e signo : Z) : ps_error :=
  {| pse_kind := PS_ERROR_KIND_SIGNAL; pse_code := e;
     pse_file := Some "spawner.c"%string; pse_line := 94;
     pse_extra_info := signo |}.

(** The fixed set the mask helper leaves unblocked. *)
Definition seriously_wrong_signals (o : os) : gset Z :=
  {[SIGABRT; SIGBUS o; SIGFPE; SIGILL; SIGKILL; SIGSEGV; SIGSTOP o; SIGSYS o;
    SIGTRAP]}.

(** Fates by the process that can meet them. *)
Definition crash (f : fate) : Prop :=
  match f with
  | Trapped | Undefined => True
  | _ => False
  end.

Definition child_fate (f : fate) : Prop :=
  match f with
  | Returned _ | Blocked => False
  | _ => True
  end.

Definition parent_fate (f : fate) : Prop :=
  match f with
  | Returned _ | Trapped | Blocked => True
  | _ => False
  end.

(** A block that ends the process does so with a fate in [P]. *)
Definition halts_within (P : fate → Prop) {A : Type} (m : child A) : Prop :=
  ∀ w, match m w with
       | (Halt f, _) => P f
       | _ => True
       end.

(** A run with a null [out_error] against the run with a valid pointer in
    the same world: nothing is stored, the world ends up the same, and the
    fates agree unless the final check of [error_cleanup], which only the
    second run makes, trapped on a zero kind where the first returned 0. *)
Definition null_run_agrees (r_null r_some : fate * option ps_error * world)
  : Prop :=
  r_null.1.2 = None ∧ r_null.2 = r_some.2 ∧
  (r_null.1.1 = r_some.1.1 ∨
   (r_null.1.1 = Returned 0 ∧ r_some.1.1 = Trapped ∧
    ∃ e', r_some.1.2 = Some e' ∧ pse_kind e' = 0)).

(** ** Sample inputs *)

Definition ENOENT : Z := 2.
Definition EIO : Z := 5.

Definition file_entry (id : Z) : fd_entry :=
  {| fe_ofd := OFD_file id; fe_cloexec := false |}.

(** A caller with its three standard descriptors open. *)
Definition stdio_fds : gmap Z fd_entry :=
  {[ 0 := file_entry 0; 1 := file_entry 1; 2 := file_entry 2 ]}.

(** An environment in which every call succeeds but for what is scripted. *)
Definition scripted (fork : Z * Z) (reads : list read_result)
    (waits : list (Z * Z)) (dents : list getdents_result) (execve : option Z)
  : oracle :=
  {| o_nofile := 1024; o_pipe := None; o_fcntl_setfd := λ _, None;
     o_mutex_lock := 0; o_mutex_unlock := 0; o_pthread_sigmask := λ _, 0;
     o_fork := fork; o_read := reads; o_waitpid := waits;
     o_signal := λ _, None; o_sigprocmask := None; o_setsid := (1, 0);
     o_dup2 := λ _, None; o_close_range := None; o_open := None;
     o_getdents := dents; o_chdir := None; o_execve := execve |}.

Definition fresh_world (t : gmap Z fd_entry) (env : oracle) : world :=
  {| w_fds := t; w_errno := 0; w_sigmask := ∅; w_written := []; w_trace := [];
     w_env := env |}.

Definition linux_build : build :=
  {| b_os := Linux; b_ndebug := false; b_has_close_range := true |}.

Definition map_fd (fd : Z) : ps_fd_setup :=
  {| psfd_kind := PS_MAP_FD; psfd_parent_fd := fd |}.

Definition close_fd : ps_fd_setup :=
  {| psfd_kind := PS_CLOSE_FD; psfd_parent_fd := 0 |}.

Definition run_true (instructions : list ps_fd_setup) : ps_process_configuration :=
  {| psc_path := "/bin/true"; psc_argv := ["true"%string]; psc_env := [];
     psc_cwd := None; psc_fd_setup_instructions := instructions;
     psc_new_session := false; psc_close_other_fds := false |}.

Definition missing_program (instructions : list ps_fd_setup)
  : ps_process_configuration :=
  {| psc_path := "/does/not/exist"; psc_argv := ["exist"%string]; psc_env := [];
     psc_cwd := None; psc_fd_setup_instructions := instructions;
     psc_new_session := false; psc_close_other_fds := false |}.

(** What a child whose [execve] failed with [ENOENT] reports. *)
Definition execve_enoent : ps_error :=
  {| pse_kind := PS_ERROR_KIND_EXECVE; pse_code := ENOENT;
     pse_file := Some "spawner.c"%string; pse_line := 191; pse_extra_info := 0 |}.

(** A record left over from an earlier, failed call. *)
Definition stale_error : ps_error :=
  {| pse_kind := PS_ERROR_KIND_CHDIR; pse_code := ENOENT;
     pse_file := Some "spawner.c"%string; pse_line := 183; pse_extra_info := 0 |}.

(** A descriptor directory that also lists a name that is no number. *)
Definition listing_with_readme : list getdents_result :=
  [ {| gd_ret := 168; gd_errno := 0;
       gd_names := ["."; ".."; "0"; "1"; "2"; "README"; "7"]%string |};
    {| gd_ret := 0; gd_errno := 0; gd_names := [] |} ].

(** A listing whose first read is interrupted by a signal. *)
Definition interrupted_listing : list getdents_result :=
  [ {| gd_ret := -1; gd_errno := EINTR; gd_names := [] |};
    {| gd_ret := 144; gd_errno := 0;
       gd_names := ["."; ".."; "0"; "1"; "2"; "3"]%string |};
    {| gd_ret := 0; gd_errno := 0; gd_names := [] |} ].

(** ** Vocabulary and sample inputs for the further properties *)

(** The characters up to the terminator are all decimal digits. *)
Fixpoint digits_only (str : string) : bool :=
  match str with
  | EmptyString => true
  | String c str' =>
    if Z.of_nat (nat_of_ascii c) =? 0 then true
    else is_digit c && digits_only str'
  end.

(** The names the read loop gets to see: those of the reads up to the first
    that does not return a positive count. *)
Fixpoint names_read (script : list getdents_result) : list string :=
  match script with
  | [] => []
  | r :: script' =>
    if 0 <? gd_ret r then gd_names r ++ names_read script' else []
  end.

(** [W_EXITCODE(ret, sig)], [W_STOPCODE(sig)] and the core-dump flag of
    [<sys/wait.h>]: the statuses [waitpid] hands out. *)
Definition W_EXITCODE (ret sig : Z) : Z := Z.lor (Z.shiftl ret 8) sig.
Definition W_STOPCODE (sig : Z) : Z := Z.lor (Z.shiftl sig 8) 127.
Definition WCOREFLAG : Z := 128.

(** The table once [fd] has been closed, or found not to be open. *)
Definition closefd (fd : Z) (t : gmap Z fd_entry) : gmap Z fd_entry :=
  if fd <? 0 then t else delete fd t.

(** The world [w'] continues [w] with calls to [cs] only. *)
Definition only_calls (cs : list syscall) (w w' : world) : Prop :=
  ∃ evs, w_trace w' = w_trace w ++ evs ∧ Forall (λ ev, ev_call ev ∈ cs) evs.

(** What happened to [g_fork_lock] in a trace. *)
Definition lock_calls (tr : list event) : list syscall :=
  ev_call <$> calls_of [SYS_mutex_lock; SYS_mutex_unlock] tr.

(** A record as [MAKE_PS_ERROR_FROM_ERRNO] builds it. *)
Definition made_error (kind code line : Z) : ps_error :=
  {| pse_kind := kind; pse_code := code; pse_file := Some "spawner.c"%string;
     pse_line := line; pse_extra_info := 0 |}.

(** The ways in which [ps_spawn_process] returns to its caller. *)
Inductive return_path :=
  | Setup_failed        (* [pipe] or [fcntl] failed: 208-233 *)
  | Block_failed        (* the mask helper failed: 242-249 *)
  | Restore_failed      (* the mask could not be restored: 263-270 *)
  | Fork_failed         (* 310-317 *)
  | Child_reported      (* the pipe delivered a record: 290-295 *)
  | Spawned.            (* end-of-file on the pipe: 285-289 *)

(** Every call [ps_spawn_process] makes in the parent but those on the lock. *)
Definition quiet_calls : list syscall :=
  [SYS_pipe; SYS_fcntl_setfd; SYS_pthread_sigmask; SYS_fork; SYS_read;
   SYS_waitpid; SYS_close].

(** What holds when [ps_spawn_process], called with [oe] in the world [w],
    has returned [p] along [path], leaving [oe'] and the world [w'] after the
    calls [evs]. *)
Definition returned_along (B : build) (path : return_path)
    (oe : option ps_error) (w : world) (p : Z) (oe' : option ps_error)
    (w' : world) (evs : list event) : Prop :=
  let env := w_env w in
  let o := b_os B in
  let blocked := o_pthread_sigmask env (SIG_BLOCK o) = 0 in
  let restored :=
    o_pthread_sigmask env (SIG_SETMASK o) = 0 ∧
    w_sigmask w' = w_sigmask w ∖ {[SIGKILL; SIGSTOP o]} in
  match path with
  | Setup_failed =>
    p = 0 ∧ lock_calls evs = [] ∧ w_sigmask w' = w_sigmask w ∧
    ∃ code,
      oe' = store_error oe (made_error PS_ERROR_KIND_PIPE code 210) ∨
      oe' = store_error oe (made_error PS_ERROR_KIND_FCNTL code 219) ∨
      oe' = store_error oe (made_error PS_ERROR_KIND_FCNTL code 228)
  | Block_failed =>
    p = 0 ∧ lock_calls evs = [SYS_mutex_lock] ∧ w_sigmask w' = w_sigmask w ∧
    ¬ blocked ∧
    oe' = store_error oe
            (made_error PS_ERROR_KIND_SIGMASK_THREAD (w_errno w) 244)
  | Restore_failed =>
    p = 0 ∧ lock_calls evs = [SYS_mutex_lock] ∧ blocked ∧
    o_pthread_sigmask env (SIG_SETMASK o) ≠ 0 ∧
    ∃ code,
      oe' = store_error oe (made_error PS_ERROR_KIND_SIGMASK_THREAD code 265) ∨
      oe' = store_error oe
              (made_error PS_ERROR_KIND_FAILED_CHILD_WAITPID code 333)
  | Fork_failed =>
    p = 0 ∧ lock_calls evs = [SYS_mutex_lock; SYS_mutex_unlock] ∧
    blocked ∧ restored ∧ (o_fork env).1 < 0 ∧
    oe' = store_error oe (made_error PS_ERROR_KIND_FCNTL (o_fork env).2 312)
  | Child_reported =>
    p = 0 ∧ lock_calls evs = [SYS_mutex_lock; SYS_mutex_unlock] ∧
    blocked ∧ restored ∧ 0 < (o_fork env).1 ∧
    ∃ r, r ∈ o_read env ∧ rd_res r = sizeof_ps_error ∧
         oe' = store_error oe (rd_data r)
  | Spawned =>
    0 < p ∧ p = (o_fork env).1 ∧ oe' = oe ∧
    lock_calls evs = [SYS_mutex_lock; SYS_mutex_unlock] ∧ blocked ∧ restored
  end.

(** [w'] continues [w] with quiet calls, in the same environment and with
    the same signal mask. *)
Definition follows_quietly (w w' : world) : Prop :=
  w_env w' = w_env w ∧ w_sigmask w' = w_sigmask w ∧ only_calls quiet_calls w w'.

(** ** More sample inputs *)

Definition EAGAIN : Z := 11.
Definition SIGTERM : Z := 15.

(** The environment [env] in which [pthread_sigmask] answers by [rc]. *)
Definition with_sigmask (rc : Z → Z) (env : oracle) : oracle :=
  {| o_nofile := o_nofile env; o_pipe := o_pipe env;
     o_fcntl_setfd := o_fcntl_setfd env; o_mutex_lock := o_mutex_lock env;
     o_mutex_unlock := o_mutex_unlock env;
     o_pthread_sigmask := rc;
     o_fork := o_fork env; o_read := o_read env; o_waitpid := o_waitpid env;
     o_signal := o_signal env; o_sigprocmask := o_sigprocmask env;
     o_setsid := o_setsid env; o_dup2 := o_dup2 env;
     o_close_range := o_close_range env; o_open := o_open env;
     o_getdents := o_getdents env; o_chdir := o_chdir env;
     o_execve := o_execve env |}.

(** The environment [env] without a descriptor directory: [open] fails
    with [ENOENT]. *)
Definition without_directory (env : oracle) : oracle :=
  {| o_nofile := o_nofile env; o_pipe := o_pipe env;
     o_fcntl_setfd := o_fcntl_setfd env; o_mutex_lock := o_mutex_lock env;
     o_mutex_unlock := o_mutex_unlock env;
     o_pthread_sigmask := o_pthread_sigmask env;
     o_fork := o_fork env; o_read := o_read env; o_waitpid := o_waitpid env;
     o_signal := o_signal env; o_sigprocmask := o_sigprocmask env;
     o_setsid := o_setsid env; o_dup2 := o_dup2 env;
     o_close_range := o_close_range env; o_open := Some ENOENT;
     o_getdents := o_getdents env; o_chdir := o_chdir env;
     o_execve := o_execve env |}.

(** [pthread_sigmask(SIG_BLOCK, ...)] fails with [EINVAL]; restoring works. *)
Definition block_fails (how : Z) : Z :=
  if how =? SIG_BLOCK Linux then EINVAL else 0.

(** A parent whose child exec'd: [fork] answers 42, the pipe end-of-file. *)
Definition parent_of_true : world :=
  fresh_world stdio_fds (scripted (42, 0) [eof] [] [] None).

(** A parent whose child could not exec. *)
Definition parent_of_missing : world :=
  fresh_world stdio_fds (scripted (42, 0) [full_read execve_enoent] [(42, 0)] [] None).

(** A parent that cannot fork. *)
Definition parent_without_fork : world :=
  fresh_world stdio_fds (scripted (-1, EAGAIN) [] [] [] None).

(** A parent, with [ENOENT] left in [errno], that cannot block signals. *)
Definition parent_without_mask : world :=
  set_errno ENOENT
    (fresh_world stdio_fds
       (with_sigmask block_fails (scripted (42, 0) [eof] [] [] None))).

(** ** Vocabulary for the child *)

(** The kinds of the records [setup_and_execve_child] builds. *)
Definition child_error_kinds : list Z :=
  [PS_ERROR_KIND_EXECVE; PS_ERROR_KIND_SIGNAL; PS_ERROR_KIND_SIGPROC_MASK;
   PS_ERROR_KIND_CHDIR; PS_ERROR_KIND_SETSID; PS_ERROR_KIND_DUP2;
   PS_ERROR_KIND_DUP].

(** [w'] continues [w] with calls to [cs] only: nothing was written, and
    the signal mask stands unless [sigprocmask] is among [cs]. *)
Definition continues (cs : list syscall) (w w' : world) : Prop :=
  w_env w' = w_env w ∧ w_written w' = w_written w ∧ only_calls cs w w' ∧
  (SYS_sigprocmask ∉ cs → w_sigmask w' = w_sigmask w).

(** A block of the child that calls [cs] only and that, when it jumps to
    [write_fail], does so with a record of the child's kinds holding the
    current [errno]; it never returns or exits by itself. *)
Definition block_keeps (cs : list syscall) {A : Type} (m : child A) : Prop :=
  ∀ w, continues cs w (m w).2 ∧
       match (m w).1 with
       | Write_fail e =>
         pse_kind e ∈ child_error_kinds ∧
         pse_file e = Some "spawner.c"%string ∧
         pse_code e = w_errno (m w).2
       | Halt (Exited _) | Halt (Returned _) | Halt Blocked => False
       | _ => True
       end.

(** The calls of the child up to and including [setsid]. *)
Definition session_calls : list syscall :=
  [SYS_signal; SYS_sigprocmask; SYS_setsid].

(** The calls of the child after the signal mask has been reset. *)
Definition late_calls : list syscall :=
  [SYS_setsid; SYS_fcntl_dupfd_cloexec; SYS_dup2; SYS_close; SYS_close_range;
   SYS_open; SYS_getdents; SYS_getdtablesize; SYS_chdir; SYS_execve].

(** Every call of the child before [write_fail]. *)
Definition setup_calls : list syscall :=
  SYS_signal :: SYS_sigprocmask :: late_calls.

(** The calls of the label [write_fail]. *)
Definition exit_calls : list syscall := [SYS_write; SYS_close; SYS_exit].

(** The calls of [highest_possibly_open_fd]. *)
Definition enumerator_calls : list syscall :=
  [SYS_open; SYS_getdents; SYS_close; SYS_getdtablesize].

(** The calls of the block that closes the other descriptors. *)
Definition closing_calls : list syscall :=
  [SYS_close_range; SYS_open; SYS_getdents; SYS_getdtablesize; SYS_close].

(** The two [close_range] calls, or the one, of lines 160-168, as
    [close_other_fds] makes them. *)
Definition close_range_phase (B : build) (count error_pipe : Z) (w0 : world)
  : Z * world :=
  if b_has_close_range B then
    if count <? error_pipe then
      let '(e1, w) := sys_close_range count (error_pipe - 1) w0 in
      let '(e2, w) := sys_close_range (error_pipe + 1) UINT_MAX w in
      (Z.lor e1 e2, w)
    else
      let from := if count =? error_pipe then error_pipe + 1 else count in
      sys_close_range from UINT_MAX w0
  else (-1, w0).

(** The table of a child: the descriptors of its parent and, at 3 and 4,
    the two ends of the error pipe, close-on-exec. *)
Definition with_error_pipe (t : gmap Z fd_entry) : gmap Z fd_entry :=
  <[4 := {| fe_ofd := OFD_pipe_write; fe_cloexec := true |}]>
    (<[3 := {| fe_ofd := OFD_pipe_read; fe_cloexec := true |}]> t).

(** A child right after [fork], where the descriptor directory lists
    [dents] and [execve] answers by [execve]. *)
Definition child_world (dents : list getdents_result) (execve : option Z)
  : world :=
  fresh_world (with_error_pipe stdio_fds) (scripted (0, 0) [] [] dents execve).

Definition in_new_session (config : ps_process_configuration)
  : ps_process_configuration :=
  {| psc_path := psc_path config; psc_argv := psc_argv config;
     psc_env := psc_env config; psc_cwd := psc_cwd config;
     psc_fd_setup_instructions := psc_fd_setup_instructions config;
     psc_new_session := true;
     psc_close_other_fds := psc_close_other_fds config |}.

Definition closing_other_fds (config : ps_process_configuration)
  : ps_process_configuration :=
  {| psc_path := psc_path config; psc_argv := psc_argv config;
     psc_env := psc_env config; psc_cwd := psc_cwd config;
     psc_fd_setup_instructions := psc_fd_setup_instructions config;
     psc_new_session := psc_new_session config;
     psc_close_other_fds := true |}.

(** A Linux build against headers without [<linux/close_range.h>]. *)
Definition old_linux_build : build :=
  {| b_os := Linux; b_ndebug := false; b_has_close_range := false |}.

(** The child's descriptor of the write end of the error pipe, as the
    parent left it. *)
Definition pipe_write_end : fd_entry :=
  {| fe_ofd := OFD_pipe_write; fe_cloexec := true |}.

(** [error_pipe] is, close-on-exec, the only descriptor of the write end of
    the error pipe in the table [t]. *)
Definition sole_write_end (error_pipe : Z) (t : gmap Z fd_entry) : Prop :=
  t !! error_pipe = Some pipe_write_end ∧
  ∀ fd en, t !! fd = Some en → fe_ofd en = OFD_pipe_write → fd = error_pipe.

(** No instruction maps the descriptor [fd]. *)
Definition never_maps (fd : Z) (instructions : list ps_fd_setup) : Prop :=
  Forall (λ setup, psfd_kind setup = PS_MAP_FD → psfd_parent_fd setup ≠ fd)
         instructions.

Definition pipe_read_end : fd_entry :=
  {| fe_ofd := OFD_pipe_read; fe_cloexec := true |}.

(** Everything before [fork] works for a caller in the world [w]: [pipe]
    gives the descriptors [r] and [wr], both [fcntl] calls and the lock
    succeed, and the signals get blocked. *)
Definition reaches_fork (B : build) (w : world) (r wr : Z) : Prop :=
  let env := w_env w in
  o_pipe env = None ∧
  lowest_free (w_fds w) 0 (o_nofile env) = Some r ∧
  lowest_free (<[r := {| fe_ofd := OFD_pipe_read; fe_cloexec := false |}]> (w_fds w))
              0 (o_nofile env) = Some wr ∧
  o_fcntl_setfd env r = None ∧ o_fcntl_setfd env wr = None ∧
  o_mutex_lock env = 0 ∧
  o_pthread_sigmask env (SIG_BLOCK (b_os B)) = 0.

(** The table of the process that calls [fork]. *)
Definition forking_fds (w : world) (r wr : Z) : gmap Z fd_entry :=
  <[wr := pipe_write_end]> (<[r := pipe_read_end]> (w_fds w)).

(** ** Vocabulary for the outcome of a call *)

(** The reads on the error pipe fail until one reports end-of-file. *)
Definition reads_end_of_file (script : list read_result) : Prop :=
  ∃ failed r rest, script = failed ++ r :: rest ∧
    Forall (λ r, rd_res r < 0) failed ∧ rd_res r = 0.

(** What a successful call of [ps_spawn_process] meets: [pipe], both
    [fcntl] calls, the lock and the mask helper work, [fork] answers the pid
    of a child, the mask is restored and the lock released, and the first
    [read] that does not fail reports end-of-file. *)
Definition parent_succeeds (B : build) (w : world) : Prop :=
  let env := w_env w in
  (∃ r wr, reaches_fork B w r wr) ∧
  0 < (o_fork env).1 ∧
  o_pthread_sigmask env (SIG_SETMASK (b_os B)) = 0 ∧
  o_mutex_unlock env = 0 ∧
  reads_end_of_file (o_read env).

(** [waitpid] answers its first call with a pid. *)
Definition reaps_at_once (env : oracle) : Prop :=
  ∃ p x waits, o_waitpid env = (p, x) :: waits ∧ 0 < p.

(** Not every [read] fails, and a [read] that delivers bytes delivers a
    whole record of a non-zero kind. *)
Definition reads_whole_records (script : list read_result) : Prop :=
  (∃ r, r ∈ script ∧ 0 ≤ rd_res r) ∧
  ∀ r, r ∈ script → 0 < rd_res r →
       rd_res r = sizeof_ps_error ∧ pse_kind (rd_data r) ≠ 0.

(** An environment in which no call of the parent is left hanging or
    answered against its contract. *)
Definition cooperative (env : oracle) : Prop :=
  o_mutex_lock env = 0 ∧ o_mutex_unlock env = 0 ∧
  reaps_at_once env ∧ reads_whole_records (o_read env).

(** * Properties *)

(** ** The exit-status decoder *)

(** C3: [ps_convert_exit_status] is total and decodes every status into
    exactly one of three shapes: a normal exit gives
    [(true, true, exit code)], a death by signal gives
    [(true, false, signal number)], anything else gives
    [(false, false, -1)]; no status is both a normal exit and a death by
    signal, on glibc and on Darwin alike. *)
Theorem ps_convert_exit_status_decodes (o : os) (in_status : Z) :
  match WIFEXITED o in_status, WIFSIGNALED o in_status with
  | true, false =>
    ps_convert_exit_status o in_status =
      {| out_has_exited := true; out_is_exit_code := true;
         out_code := WEXITSTATUS o in_status |}
  | false, true =>
    ps_convert_exit_status o in_status =
      {| out_has_exited := true; out_is_exit_code := false;
         out_code := WTERMSIG o in_status |}
  | false, false =>
    ps_convert_exit_status o in_status =
      {| out_has_exited := false; out_is_exit_code := false; out_code := -1 |}
  | true, true => False
  end.
Proof.
  unfold ps_convert_exit_status.
  destruct (WIFEXITED o in_status) eqn:Hexit.
  - assert (Hsig : WIFSIGNALED o in_status = false).
    { unfold WIFEXITED, WTERMSIG in Hexit. apply Z.eqb_eq in Hexit.
      unfold WIFSIGNALED. rewrite Hexit. by destruct o. }
    by rewrite Hsig.
  - by destruct (WIFSIGNALED o in_status).
Qed.

(** The decoder on the statuses of the specification's scenarios. *)
Example exit_status_of_true :
  ps_convert_exit_status Linux 0 =
    {| out_has_exited := true; out_is_exit_code := true; out_code := 0 |}.
Proof. reflexivity. Qed.

Example exit_status_of_false :
  ps_convert_exit_status Linux 256 =
    {| out_has_exited := true; out_is_exit_code := true; out_code := 1 |}.
Proof. reflexivity. Qed.

Example exit_status_of_sigkill :
  ps_convert_exit_status Darwin 9 =
    {| out_has_exited := true; out_is_exit_code := false; out_code := 9 |}.
Proof. reflexivity. Qed.

Example exit_status_of_stopped :
  ps_convert_exit_status Linux 4991 =
    {| out_has_exited := false; out_is_exit_code := false; out_code := -1 |}.
Proof. reflexivity. Qed.

(** ** The signal mask helper *)

(** What [sigfillset] puts into a set. *)
Lemma elem_of_sigfillset o s : s ∈ (sigfillset o).2 ↔ valid_signal o s = true.
Proof.
  unfold sigfillset, valid_signal. cbn [snd].
  rewrite elem_of_list_to_set, list_elem_of_filter, elem_of_seqZ.
  rewrite !andb_true_iff, negb_true_iff, Z.leb_le, Z.ltb_lt.
  split; [intros [? ?]|intros [[? ?] ?]]; repeat split; try done; lia.
Qed.

(** C9: the helper hands [pthread_sigmask(SIG_BLOCK, ...)] the mask of every
    signal but the fixed nine: a number is in the mask exactly when
    [<signal.h>] takes it for a signal and it is none of the nine, which
    makes 1 to 31 and 34 to 64 without the nine on Linux, where glibc keeps
    32 and 33 out of every set, and 1 to 31 without the nine on Darwin.  The
    result of the helper is the result of that call, so it is non-zero
    exactly when the call failed; on success the caller's slot holds the
    prior mask and the thread's mask has grown by the new one, on failure
    slot and mask are as before. *)
Theorem block_signals_spec (o : os) (old_mask : gset Z) (w : world) :
  let '(r, saved, mask, w') :=
    block_everything_but_something_went_seriously_wrong_signals o old_mask w in
  let rc := o_pthread_sigmask (w_env w) (SIG_BLOCK o) in
  (∀ s, s ∈ mask ↔ valid_signal o s = true ∧ s ∉ seriously_wrong_signals o) ∧
  mask = list_to_set (match o with
                      | Linux => seqZ 1 31 ++ seqZ 34 31
                      | Darwin => seqZ 1 31
                      end) ∖ seriously_wrong_signals o ∧
  r = rc ∧
  w_trace w' = w_trace w ++
    [{| ev_call := SYS_pthread_sigmask; ev_args := [SIG_BLOCK o]; ev_ret := rc |}] ∧
  if rc =? 0 then
    saved = w_sigmask w ∧
    w_sigmask w' = (w_sigmask w ∪ mask) ∖ {[SIGKILL; SIGSTOP o]}
  else saved = old_mask ∧ w_sigmask w' = w_sigmask w.
Proof.
  unfold block_everything_but_something_went_seriously_wrong_signals, sigdelset.
  pose proof (elem_of_sigfillset o) as Hfill.
  assert (Hlist : (sigfillset o).2 =
                  list_to_set (match o with
                               | Linux => seqZ 1 31 ++ seqZ 34 31
                               | Darwin => seqZ 1 31
                               end)).
  { unfold sigfillset. cbn [snd]. f_equal. by destruct o. }
  assert (Hret : (sigfillset o).1 = 0) by done.
  destruct (sigfillset o) as [e0 full]. cbn [fst snd] in *. subst e0.
  replace (valid_signal o SIGABRT) with true by (by destruct o).
  replace (valid_signal o (SIGBUS o)) with true by (by destruct o).
  replace (valid_signal o SIGFPE) with true by (by destruct o).
  replace (valid_signal o SIGILL) with true by (by destruct o).
  replace (valid_signal o SIGKILL) with true by (by destruct o).
  replace (valid_signal o SIGSEGV) with true by (by destruct o).
  replace (valid_signal o (SIGSTOP o)) with true by (by destruct o).
  replace (valid_signal o (SIGSYS o)) with true by (by destruct o).
  replace (valid_signal o SIGTRAP) with true by (by destruct o).
  cbv beta iota zeta.
  unfold sys_pthread_sigmask. rewrite Z.eqb_refl.
  assert (Hmask :
    full ∖ {[SIGABRT]} ∖ {[SIGBUS o]}
      ∖ {[SIGFPE]} ∖ {[SIGILL]} ∖ {[SIGKILL]} ∖ {[SIGSEGV]} ∖ {[SIGSTOP o]}
      ∖ {[SIGSYS o]} ∖ {[SIGTRAP]} =@{gset Z}
    full ∖ seriously_wrong_signals o).
  { apply set_eq. intros s. unfold seriously_wrong_signals.
    rewrite !elem_of_difference, !not_elem_of_union, !elem_of_singleton. tauto. }
  rewrite Hmask.
  assert (Hiff : ∀ s, s ∈ full ∖ seriously_wrong_signals o ↔
                      valid_signal o s = true ∧ s ∉ seriously_wrong_signals o).
  { intros s. by rewrite elem_of_difference, Hfill. }
  destruct (o_pthread_sigmask (w_env w) (SIG_BLOCK o) =? 0) eqn:Hrc;
    cbn [Z.lor fst snd default from_option w_trace w_sigmask log set_sigmask].
  - apply Z.eqb_eq in Hrc. rewrite Hrc, <- Hlist. done.
  - rewrite <- Hlist. done.
Qed.

(** ** Child setup: resetting the signal dispositions *)

Lemma signal_calls_snoc tr ev :
  signal_calls (tr ++ [ev]) =
  signal_calls tr ++ from_option (λ s, [s]) [] (signal_of_event ev).
Proof.
  unfold signal_calls. rewrite omap_app. simpl. by destruct (signal_of_event ev).
Qed.

(** The loop from [signo] with [n] iterations to go calls [signal] on the
    resettable numbers of [signo, signo + n) in order, up to and including
    the first on which the call fails. *)
Lemma reset_signal_handlers_loop_spec B n signo w :
  let l := filter (resettable (b_os B)) (seqZ signo (Z.of_nat n)) in
  let '(r, w') := reset_signal_handlers_loop B n signo w in
  w_env w' = w_env w ∧
  match list_find (λ s, is_Some (o_signal (w_env w) s)) l with
  | None => r = Next tt ∧ signal_calls (w_trace w') = signal_calls (w_trace w) ++ l
  | Some (i, s) =>
    signal_calls (w_trace w') = signal_calls (w_trace w) ++ take (S i) l ∧
    r = match o_signal (w_env w) s with
        | Some e => if e =? EINVAL then Next tt else Write_fail (signal_reset_error e s)
        | None => Next tt
        end
  end.
Proof.
  revert signo w. induction n as [|n IH]; intros signo w.
  - simpl. by rewrite app_nil_r.
  - rewrite seqZ_cons by lia.
    replace (Z.pred (Z.of_nat (S n))) with (Z.of_nat n) by lia.
    cbn [reset_signal_handlers_loop]. rewrite filter_cons.
    destruct (decide (resettable (b_os B) signo)) as [Hr|Hr].
    + destruct Hr as [Hk Hs].
      apply Z.eqb_neq in Hk, Hs. rewrite Hk, Hs. cbn [orb].
      unfold sys_signal_dfl. cbn [list_find].
      destruct (o_signal (w_env w) signo) as [e|] eqn:Ho.
      * rewrite decide_True by eauto. cbn [negb].
        cbn [failed set_errno log w_trace w_env w_errno].
        rewrite Ho.
        destruct (e =? EINVAL); cbn [failed set_errno log w_trace w_env w_errno];
          rewrite signal_calls_snoc; auto.
      * rewrite decide_False by (intros [? ?]; done).
        cbn [negb].
        specialize (IH (signo + 1) (log SYS_signal [signo] 0 w)).
        replace (Z.succ signo) with (signo + 1) by lia.
        destruct (reset_signal_handlers_loop B n (signo + 1) _) as [r w'].
        cbn in IH. destruct IH as [Henv IH]. split; [done|].
        rewrite signal_calls_snoc in IH. cbn in IH.
        destruct (list_find _ _) as [[i s]|]; cbn.
        -- rewrite <- app_assoc in IH. done.
        -- rewrite <- app_assoc in IH. done.
    + assert (Hks : (signo =? SIGKILL) || (signo =? SIGSTOP (b_os B)) = true).
      { unfold resettable in Hr. apply orb_true_iff.
        destruct (Z.eqb_spec signo SIGKILL); [auto|].
        destruct (Z.eqb_spec signo (SIGSTOP (b_os B))); [auto|]. tauto. }
      rewrite Hks. replace (Z.succ signo) with (signo + 1) by lia. apply IH.
Qed.

(** The numbers concerned, on either platform. *)
Example signals_to_reset_linux :
  signals_to_reset Linux =
    [1; 2; 3; 4; 5; 6; 7; 8; 10; 11; 12; 13; 14; 15; 16; 17; 18; 20; 21; 22;
     23; 24; 25; 26; 27; 28; 29; 30; 31].
Proof. reflexivity. Qed.

Example signals_to_reset_darwin :
  signals_to_reset Darwin =
    [1; 2; 3; 4; 5; 6; 7; 8; 10; 11; 12; 13; 14; 15; 16; 18; 19; 20; 21; 22;
     23; 24; 25; 26; 27; 28; 29; 30; 31].
Proof. reflexivity. Qed.

(** The numbers the reset is about among the signals of the platform:
    those below 32. *)
Lemma elem_of_signals_to_reset o s :
  s ∈ signals_to_reset o ↔
  valid_signal o s = true ∧ resettable o s ∧ s < 32.
Proof.
  unfold signals_to_reset, valid_signal.
  rewrite list_elem_of_filter, elem_of_seqZ.
  rewrite !andb_true_iff, negb_true_iff, Z.leb_le, Z.ltb_lt.
  split.
  - intros [Hr Hs]. split; [split; [split; [lia|destruct o; cbn; lia]|]|].
    + destruct o; [|done]. cbn.
      by rewrite (proj2 (Z.eqb_neq s 32)), (proj2 (Z.eqb_neq s 33)) by lia.
    + split; [done|lia].
  - intros [[[? ?] ?] [? ?]]. split; [done|lia].
Qed.

(** C8, as the code has it: the reset calls [signal(signo, SIG_DFL)] for
    the numbers 1 to 31 other than kill and stop, in ascending order; of
    the signals of the platform these are the ones below 32, which is all of
    them on Darwin and leaves out 34 to 64 on Linux.  When no call fails it
    covers the 29 numbers and child setup goes on.  Otherwise it stops at
    the first failing number [s]: on [EINVAL] the loop is left and child
    setup goes on, on any other errno [e] child setup jumps to [write_fail]
    with kind [PS_ERROR_KIND_SIGNAL], code [e] and [s] in the extra-info
    slot. *)
Theorem signal_reset_spec B config error_pipe scratch w :
  let '(r, w1) := reset_signal_handlers B w in
  (∀ s, s ∈ signals_to_reset (b_os B) ↔
        valid_signal (b_os B) s = true ∧ resettable (b_os B) s ∧ s < 32) ∧
  length (signals_to_reset (b_os B)) = 29%nat ∧
  match list_find (λ s, is_Some (o_signal (w_env w) s)) (signals_to_reset (b_os B)) with
  | None =>
    r = Next tt ∧
    signal_calls (w_trace w1) = signal_calls (w_trace w) ++ signals_to_reset (b_os B)
  | Some (i, s) =>
    signal_calls (w_trace w1) =
      signal_calls (w_trace w) ++ take (S i) (signals_to_reset (b_os B)) ∧
    match o_signal (w_env w) s with
    | Some e =>
      if e =? EINVAL then r = Next tt
      else
        r = Write_fail (signal_reset_error e s) ∧
        setup_and_execve_child B config error_pipe scratch w =
          write_fail error_pipe (signal_reset_error e s) w1
    | None => False
    end
  end.
Proof.
  pose proof (elem_of_signals_to_reset (b_os B)) as Helem.
  assert (Hlen : length (signals_to_reset (b_os B)) = 29%nat) by (by destruct (b_os B)).
  unfold signals_to_reset in *.
  pose proof (reset_signal_handlers_loop_spec B (Z.to_nat (PS_SIG_MAX - 1)) 1 w) as H.
  rewrite Z2Nat.id in H by (unfold PS_SIG_MAX; lia).
  change (PS_SIG_MAX - 1) with 31 in H.
  cbv zeta in H.
  unfold setup_and_execve_child, child_setup.
  unfold mbind at 1, child_bind at 1, bind at 1.
  unfold reset_signal_handlers in *.
  destruct (reset_signal_handlers_loop _ _ _ _) as [r w1].
  destruct H as [_ H].
  split; [done|]. split; [done|].
  destruct (list_find _ _) as [[i s]|] eqn:Hfind; [|done].
  destruct H as [Hcalls Hr]. split; [done|].
  apply list_find_Some in Hfind as (_ & [e He] & _).
  rewrite He in Hr |- *.
  destruct (e =? EINVAL); [done|]. by subst r.
Qed.

(** C8, as stated, fails on Linux: 34, the first real-time signal, is a
    signal of the platform other than kill and stop, and a reset in which
    every call succeeds ends with 31 and never gets to it. *)
Lemma realtime_signals_are_not_reset :
  let w := fresh_world stdio_fds (scripted (0, 0) [] [] [] None) in
  let '(r, w1) := reset_signal_handlers linux_build w in
  valid_signal Linux 34 = true ∧ resettable Linux 34 ∧
  r = Next tt ∧
  last (signal_calls (w_trace w1)) = Some 31 ∧
  34 ∉ signal_calls (w_trace w1).
Proof.
  assert (Hrun :
    let w := fresh_world stdio_fds (scripted (0, 0) [] [] [] None) in
    (reset_signal_handlers linux_build w).1 = Next tt ∧
    signal_calls (w_trace (reset_signal_handlers linux_build w).2) =
      signals_to_reset Linux).
  { vm_compute. done. }
  cbv zeta in *. destruct (reset_signal_handlers linux_build _) as [r w1].
  cbn [fst snd] in Hrun. destruct Hrun as [-> ->].
  split; [done|]. split; [compute_done|]. split; [done|].
  split; [done|]. compute_done.
Qed.

(** ** The descriptor enumerator *)

Example positive_int_parse_number : positive_int_parse "1024" = Some 1024.
Proof. reflexivity. Qed.

Example positive_int_parse_no_number : positive_int_parse "12a" = Some (-1).
Proof. reflexivity. Qed.

Example positive_int_parse_overflow : positive_int_parse "99999999999" = None.
Proof. reflexivity. Qed.

Lemma scan_entries_app before after highest :
  scan_entries (before ++ after) highest =
  scan_entries before highest ≫= scan_entries after.
Proof.
  revert highest. induction before as [|d_name before IH]; intros highest; [done|].
  cbn [app scan_entries].
  destruct (not_dot_entry d_name); [|apply IH].
  destruct (positive_int_parse d_name); [apply IH|done].
Qed.

(** The running maximum never goes down. *)
Lemma scan_entries_ge names highest h :
  scan_entries names highest = Some h → highest ≤ h.
Proof.
  revert highest. induction names as [|d_name names IH]; intros highest.
  { intros [= <-]. lia. }
  cbn [scan_entries].
  destruct (not_dot_entry d_name); [|apply IH].
  destruct (positive_int_parse d_name) as [number|]; [|done].
  intros H. apply IH in H. destruct (Z.ltb_spec highest number); lia.
Qed.

Lemma scan_entries_skip before d_name after highest :
  0 ≤ highest → positive_int_parse d_name = Some (-1) →
  scan_entries (before ++ d_name :: after) highest =
  scan_entries (before ++ after) highest.
Proof.
  intros Hh Hparse. rewrite !scan_entries_app.
  destruct (scan_entries before highest) as [h|] eqn:Hb; [|done].
  apply scan_entries_ge in Hb. cbn [mbind option_bind scan_entries].
  rewrite Hparse. rewrite (proj2 (Z.ltb_ge h (-1))) by lia.
  by destruct (not_dot_entry d_name).
Qed.

(** The arm of the read loop that assigns the sentinel is never taken. *)
Lemma getdents_loop_nonneg script dir_fd highest w h :
  0 ≤ highest → (getdents_loop script dir_fd highest w).1 = Some h → 0 ≤ h.
Proof.
  revert highest w. induction script as [|r script IH]; intros highest w Hh.
  { cbn. intros [= <-]. done. }
  cbn [getdents_loop]. unfold sys_getdents.
  destruct (gd_ret r <? 0) eqn:Hneg.
  - rewrite (proj2 (Z.ltb_ge 0 (gd_ret r))) by (apply Z.ltb_lt in Hneg; lia).
    cbn. intros [= <-]. done.
  - cbv beta iota zeta. destruct (0 <? gd_ret r); [|cbn; by intros [= <-]].
    rewrite Hneg.
    destruct (scan_entries _ _) as [h1|] eqn:Hscan; [|done].
    apply scan_entries_ge in Hscan. apply IH. lia.
Qed.

(** The enumerator yields the sentinel only when the directory could not be
    opened. *)
Lemma highest_possibly_open_fd_dir_syscall_sentinel fd_dir w h :
  (highest_possibly_open_fd_dir_syscall fd_dir w).1 = Some h → h < 0 →
  (sys_open_dir w).1 < 0.
Proof.
  unfold highest_possibly_open_fd_dir_syscall.
  destruct (sys_open_dir w) as [dir_fd w1]. cbn [fst].
  destruct (Z.ltb_spec dir_fd 0); [done|].
  pose proof (getdents_loop_nonneg (o_getdents (w_env w1)) dir_fd 0 w1) as Hnn.
  destruct (getdents_loop _ _ _ _) as [[h1|] w2]; [|done].
  destruct (sys_close dir_fd w2). cbn. intros [= <-] Hneg.
  assert (0 ≤ h1) by (apply Hnn; [lia|done]). lia.
Qed.

(** C6, as the code has it: an entry whose name does not parse as a
    non-negative decimal integer ([positive_int_parse] gives -1) is skipped.
    With a running maximum that is not negative, as it is from its initial
    0 on, the read loop behaves exactly as if the entry were not listed, and
    it does not yield the sentinel. *)
Theorem unparsable_entry_is_skipped
    (pre post : list getdents_result) (ret errno : Z)
    (before after : list string) (d_name : string) (dir_fd highest : Z)
    (w : world) :
  0 ≤ highest → positive_int_parse d_name = Some (-1) →
  let listed names := {| gd_ret := ret; gd_errno := errno; gd_names := names |} in
  getdents_loop (pre ++ listed (before ++ d_name :: after) :: post) dir_fd highest w =
  getdents_loop (pre ++ listed (before ++ after) :: post) dir_fd highest w ∧
  (getdents_loop (pre ++ listed (before ++ d_name :: after) :: post) dir_fd highest w).1
    ≠ Some (-1).
Proof.
  intros Hh Hparse listed. split.
  - revert highest w Hh. induction pre as [|r pre IH]; intros highest w Hh.
    + cbn [app getdents_loop]. unfold sys_getdents.
      cbn [gd_ret gd_errno gd_names listed].
      by rewrite scan_entries_skip.
    + cbn [app getdents_loop].
      destruct (sys_getdents dir_fd r w) as [bytes_read w1].
      destruct (0 <? bytes_read); [|done].
      destruct (bytes_read <? 0).
      * destruct (w_errno w1 =? EINTR); [by apply IH|done].
      * destruct (scan_entries _ _) as [h1|] eqn:Hscan; [|done].
        apply scan_entries_ge in Hscan. apply IH. lia.
  - intros H. apply getdents_loop_nonneg in H; [lia|done].
Qed.

Lemma unparsable_entry_is_skipped_witness :
  positive_int_parse "README" = Some (-1) ∧
  getdents_loop
    [ {| gd_ret := 72; gd_errno := 0; gd_names := ["0"; "README"; "7"]%string |} ]
    3 0 (fresh_world stdio_fds (scripted (42, 0) [] [] [] None)) =
  getdents_loop
    [ {| gd_ret := 72; gd_errno := 0; gd_names := ["0"; "7"]%string |} ]
    3 0 (fresh_world stdio_fds (scripted (42, 0) [] [] [] None)).
Proof.
  split; [reflexivity|].
  apply (unparsable_entry_is_skipped [] [] 72 0 ["0"%string] ["7"%string]
           "README" 3 0 (fresh_world stdio_fds (scripted (42, 0) [] [] [] None))).
  - lia.
  - reflexivity.
Defined.

(** C6, as stated, fails: a listing with the entry [README], which does not
    parse, makes the enumerator answer 7, the highest number listed, and not
    the negative sentinel. *)
Lemma unparsable_entry_no_sentinel :
  positive_int_parse "README" = Some (-1) ∧
  (highest_possibly_open_fd_dir_syscall "/proc/self/fd"
     (fresh_world stdio_fds (scripted (42, 0) [] [] listing_with_readme None))).1
  = Some 7.
Proof. split; reflexivity. Qed.

(** C7: a first [getdents] that fails with [EINTR] is not restarted.  The
    loop is left, the directory is closed and the function answers the
    running maximum 0, although a second read would have listed 0 to 3. *)
Theorem getdents_eintr_ends_scan :
  let w := fresh_world stdio_fds (scripted (42, 0) [] [] interrupted_listing None) in
  let '(highest, w') := highest_possibly_open_fd_dir_syscall "/proc/self/fd" w in
  highest = Some 0 ∧
  w_trace w' =
    [ {| ev_call := SYS_open; ev_args := []; ev_ret := 3 |};
      {| ev_call := SYS_getdents; ev_args := [3]; ev_ret := -1 |};
      {| ev_call := SYS_close; ev_args := [3]; ev_ret := 0 |} ] ∧
  w_errno w' = EINTR ∧
  (highest_possibly_open_fd_dir_syscall "/proc/self/fd"
     (fresh_world stdio_fds
        (scripted (42, 0) [] [] (drop 1 interrupted_listing) None))).1 = Some 3.
Proof. vm_compute. done. Qed.

(** ** The descriptor table *)

(** [scan_free] finds a free slot in its range. *)
Lemma scan_free_spec t lo n fd :
  scan_free t lo n = Some fd → lo ≤ fd < lo + Z.of_nat n ∧ t !! fd = None.
Proof.
  revert lo. induction n as [|n IH]; intros lo; [done|].
  cbn [scan_free]. destruct (t !! lo) eqn:Hlo.
  - intros H. apply IH in H as [H1 H2]. split; [lia|done].
  - intros [= <-]. split; [lia|done].
Qed.

Lemma lowest_free_spec t lo hi fd :
  lowest_free t lo hi = Some fd → lo ≤ fd < hi ∧ t !! fd = None.
Proof.
  unfold lowest_free. intros H. apply scan_free_spec in H as [H1 H2].
  split; [lia|done].
Qed.

Lemma fd_get_nonneg t fd : 0 ≤ fd → fd_get t fd = t !! fd.
Proof. intros H. unfold fd_get. by rewrite (proj2 (Z.ltb_ge fd 0)). Qed.

Lemma fd_get_Some t fd en : fd_get t fd = Some en → t !! fd = Some en.
Proof. unfold fd_get. by destruct (fd <? 0). Qed.

Lemma fd_get_subseteq t t' fd en :
  t ⊆ t' → fd_get t fd = Some en → fd_get t' fd = Some en.
Proof.
  unfold fd_get. destruct (fd <? 0); [done|]. intros Hsub H.
  by eapply lookup_weaken.
Qed.

(** What a successful [F_DUPFD_CLOEXEC] did. *)
Lemma sys_fcntl_dupfd_cloexec_ok fd lowest w dup w' :
  sys_fcntl_dupfd_cloexec fd lowest w = (dup, w') → dup ≠ -1 →
  ∃ en, fd_get (w_fds w) fd = Some en ∧ lowest ≤ dup ∧ 0 ≤ dup ∧
        w_fds w !! dup = None ∧
        w_fds w' = <[dup := {| fe_ofd := fe_ofd en; fe_cloexec := true |}]> (w_fds w) ∧
        w_env w' = w_env w.
Proof.
  unfold sys_fcntl_dupfd_cloexec.
  destruct (fd_get (w_fds w) fd) as [en|]; [|by intros [= <- <-]].
  destruct (_ || _) eqn:Hrange; [by intros [= <- <-]|].
  destruct (lowest_free _ _ _) as [n|] eqn:Hfree; [|by intros [= <- <-]].
  intros [= <- <-] _. apply lowest_free_spec in Hfree as [Hn Hnone].
  apply orb_false_iff in Hrange as [Hneg _]. apply Z.ltb_ge in Hneg.
  exists en. cbn. repeat split; try done; lia.
Qed.

(** What a successful [dup2] on two different descriptors did. *)
Lemma sys_dup2_ok oldfd newfd w r w' :
  sys_dup2 oldfd newfd w = (r, w') → r ≠ -1 → oldfd ≠ newfd →
  ∃ en, fd_get (w_fds w) oldfd = Some en ∧
        w_fds w' = <[newfd := {| fe_ofd := fe_ofd en; fe_cloexec := false |}]> (w_fds w) ∧
        w_env w' = w_env w.
Proof.
  unfold sys_dup2. intros Hrun Hr Hne.
  destruct (o_dup2 _ _); [by injection Hrun as <- <-|].
  destruct (fd_get _ oldfd) as [en|]; [|by injection Hrun as <- <-].
  destruct (_ || _); [by injection Hrun as <- <-|].
  rewrite (proj2 (Z.eqb_neq oldfd newfd)) in Hrun by done.
  injection Hrun as <- <-. by exists en.
Qed.

(** [close] leaves the slot of [fd] empty, whether it was open or not. *)
Lemma sys_close_fds fd w :
  w_fds (sys_close fd w).2 = (if fd <? 0 then w_fds w else delete fd (w_fds w)) ∧
  w_env (sys_close fd w).2 = w_env w.
Proof.
  unfold sys_close, fd_get. destruct (fd <? 0); [done|].
  destruct (w_fds w !! fd) eqn:Hfd; cbn; [done|].
  split; [|done]. symmetry. by apply delete_id.
Qed.

(** [close_range] does not reach below [first]. *)
Lemma sys_close_range_low first last w :
  (∀ fd, fd < first →
         w_fds (sys_close_range first last w).2 !! fd = w_fds w !! fd) ∧
  w_env (sys_close_range first last w).2 = w_env w.
Proof.
  unfold sys_close_range.
  destruct (o_close_range _); [done|].
  destruct (last <? first); [done|]. cbn. split; [|done].
  intros fd Hfd. destruct (w_fds w !! fd) as [en|] eqn:Hen.
  - apply map_lookup_filter_Some_2; [done|]. cbn. lia.
  - apply map_lookup_filter_None_2. by left.
Qed.

Lemma getdents_loop_fds script dir_fd highest w :
  w_fds (getdents_loop script dir_fd highest w).2 = w_fds w ∧
  w_env (getdents_loop script dir_fd highest w).2 = w_env w.
Proof.
  revert highest w. induction script as [|r script IH]; intros highest w.
  { by split. }
  cbn [getdents_loop]. unfold sys_getdents.
  destruct (gd_ret r <? 0) eqn:Hneg.
  - rewrite (proj2 (Z.ltb_ge 0 (gd_ret r))) by (apply Z.ltb_lt in Hneg; lia).
    by split.
  - cbv beta iota zeta.
    destruct (0 <? gd_ret r); [|by split].
    rewrite Hneg.
    destruct (scan_entries _ _); [|by split].
    match goal with |- context [getdents_loop script dir_fd ?h ?w1] =>
      destruct (IH h w1) as [-> ->] end. done.
Qed.

(** The enumerator closes the directory it opened: the table is as before. *)
Lemma highest_possibly_open_fd_dir_syscall_fds fd_dir w hi w' :
  highest_possibly_open_fd_dir_syscall fd_dir w = (Some hi, w') →
  w_fds w' = w_fds w ∧ w_env w' = w_env w.
Proof.
  unfold highest_possibly_open_fd_dir_syscall, sys_open_dir.
  destruct (o_open _); [by intros [= <- <-]|].
  destruct (lowest_free _ _ _) as [n|] eqn:Hfree; [|by intros [= <- <-]].
  apply lowest_free_spec in Hfree as [Hn Hnone].
  rewrite (proj2 (Z.ltb_ge n 0)) by lia.
  match goal with |- context [getdents_loop ?s ?d ?h ?w1] =>
    pose proof (getdents_loop_fds s d h w1) as [Hfds Henv];
    destruct (getdents_loop s d h w1) as [[h'|] w2] end; [|done].
  cbn in Hfds, Henv.
  pose proof (sys_close_fds n w2) as [Hc Hcenv].
  destruct (sys_close n w2) as [r w3]. cbn in Hc, Hcenv.
  intros [= <- <-]. rewrite Hc, Hcenv, Hfds, Henv.
  rewrite (proj2 (Z.ltb_ge n 0)) by lia.
  split; [|done]. by apply delete_insert_id.
Qed.

Lemma highest_possibly_open_fd_fds o w hi w' :
  highest_possibly_open_fd o w = (Some hi, w') →
  w_fds w' = w_fds w ∧ w_env w' = w_env w.
Proof.
  unfold highest_possibly_open_fd.
  destruct (highest_possibly_open_fd_dir_syscall _ w) as [[h|] w1] eqn:Hdir; [|done].
  apply highest_possibly_open_fd_dir_syscall_fds in Hdir.
  destruct (h <? 0); by intros [= <- <-].
Qed.

Section Remap.

Variable B : build.

Lemma close_loop_low n i error_pipe w :
  (∀ fd, fd < i → w_fds (close_loop n i error_pipe w) !! fd = w_fds w !! fd) ∧
  w_env (close_loop n i error_pipe w) = w_env w.
Proof.
  revert i w. induction n as [|n IH]; intros i w; [done|].
  cbn [close_loop].
  match goal with |- context [close_loop n (i + 1) error_pipe ?w1] =>
    destruct (IH (i + 1) w1) as [Hlow Henv]; set (w1' := w1) in * end.
  assert (H1 : (∀ fd, fd < i → w_fds w1' !! fd = w_fds w !! fd) ∧ w_env w1' = w_env w).
  { subst w1'. destruct (negb _); [|done].
    destruct (sys_close_fds i w) as [-> ->]. split; [|done].
    intros fd Hfd. destruct (i <? 0); [done|]. apply lookup_delete_ne. lia. }
  destruct H1 as [H1 H1env]. split; [|congruence].
  intros fd Hfd. rewrite Hlow by lia. by apply H1.
Qed.

(** Closing the other descriptors does not reach below the count. *)
Lemma close_other_fds_low config error_pipe w w' :
  close_other_fds B config error_pipe w = (Next tt, w') →
  (∀ fd, fd < psc_fd_setup_count config → w_fds w' !! fd = w_fds w !! fd) ∧
  w_env w' = w_env w.
Proof.
  unfold close_other_fds.
  destruct (psc_close_other_fds config); [|by intros [= <-]].
  set (count := psc_fd_setup_count config).
  set (w0 := set_errno _ w).
  assert (Hcr : ∀ cre w1,
    (if b_has_close_range B then
       if count <? error_pipe then
         let '(e1, w) := sys_close_range count (error_pipe - 1) w0 in
         let '(e2, w) := sys_close_range (error_pipe + 1) UINT_MAX w in
         (Z.lor e1 e2, w)
       else sys_close_range (if count =? error_pipe then error_pipe + 1 else count) UINT_MAX w0
     else (-1, w0)) = (cre, w1) →
    (∀ fd, fd < count → w_fds w1 !! fd = w_fds w !! fd) ∧ w_env w1 = w_env w).
  { intros cre w1. destruct (b_has_close_range B); [|by intros [= <- <-]].
    destruct (count <? error_pipe) eqn:Hlt.
    - apply Z.ltb_lt in Hlt.
      pose proof (sys_close_range_low count (error_pipe - 1) w0) as [Ha Haenv].
      destruct (sys_close_range count _ w0) as [e1 wa]. cbn in Ha, Haenv.
      pose proof (sys_close_range_low (error_pipe + 1) UINT_MAX wa) as [Hb Hbenv].
      destruct (sys_close_range _ _ wa) as [e2 wb]. cbn in Hb, Hbenv.
      intros [= <- <-]. split; [|congruence].
      intros fd Hfd. rewrite Hb by lia. by rewrite Ha.
    - apply Z.ltb_ge in Hlt.
      match goal with |- context [sys_close_range ?f ?l w0] =>
        pose proof (sys_close_range_low f l w0) as [Ha Haenv];
        destruct (sys_close_range f l w0) as [e1 wa] eqn:Hcall end.
      cbn in Ha, Haenv. intros [= <- <-]. split; [|done].
      intros fd Hfd. apply Ha. destruct (Z.eqb_spec count error_pipe); lia. }
  destruct (if b_has_close_range B then _ else _) as [cre w1].
  destruct (Hcr cre w1 eq_refl) as [Hlow Henv].
  destruct (c_true cre); [|by intros [= <-]].
  destruct (highest_possibly_open_fd _ w1) as [[hi|] w2] eqn:Hhi; [|done].
  apply highest_possibly_open_fd_fds in Hhi as [Hfds2 Henv2].
  intros [= <-].
  destruct (close_loop_low (Z.to_nat (hi - count + 1)) count error_pipe w2) as [Hcl Hclenv].
  split; [|congruence].
  intros fd Hfd. rewrite Hcl by done. rewrite Hfds2. by apply Hlow.
Qed.

(** The second loop, run from index [k]: slot [k + i] receives the
    description of the duplicate recorded for it, with close-on-exec clear,
    or is closed; descriptors outside the range of the loop keep their
    slots. *)
Lemma install_loop_spec instructions k scratch w w' :
  install_loop instructions k scratch w = (Next tt, w') →
  w_env w' = w_env w ∧
  (∀ fd, fd < Z.of_nat k ∨ Z.of_nat (k + length instructions) ≤ fd →
         w_fds w' !! fd = w_fds w !! fd) ∧
  ∀ i setup, instructions !! i = Some setup →
    match psfd_kind setup with
    | PS_MAP_FD =>
      ∃ d en, scratch !! (k + i)%nat = Some d ∧ Z.of_nat (k + i) < d ∧
              w_fds w !! d = Some en ∧
              w_fds w' !! Z.of_nat (k + i) =
                Some {| fe_ofd := fe_ofd en; fe_cloexec := false |}
    | PS_CLOSE_FD => w_fds w' !! Z.of_nat (k + i) = None
    | PS_FD_SETUP_OTHER _ => False
    end.
Proof.
  revert k w.
  induction instructions as [|setup rest IH]; intros k w Hrun.
  { cbn in Hrun. injection Hrun as <-. repeat split; try done. }
  cbn [install_loop] in Hrun.
  destruct (psfd_kind setup) eqn:Hkind; [| |done].
  - destruct (negb _) eqn:Hgt; [done|].
    apply negb_false_iff, Z.ltb_lt in Hgt.
    destruct (sys_dup2 _ _ w) as [err w1] eqn:Hdup.
    destruct (err =? -1) eqn:Herr; [done|]. apply Z.eqb_neq in Herr.
    destruct (scratch !! k) as [d|] eqn:Hd; cbn [default] in *; [|lia].
    destruct (sys_dup2_ok _ _ _ _ _ Hdup Herr) as (en & Hen & Hfds & Henv); [lia|].
    apply fd_get_Some in Hen.
    apply IH in Hrun as (Henv' & Hout & Hslots).
    split; [congruence|].
    split. { intros fd Hfd. cbn [length] in Hfd. rewrite Hout by lia.
             rewrite Hfds. apply lookup_insert_ne. lia. }
    intros [|i] setup' Hi.
    + cbn in Hi. injection Hi as <-. rewrite Hkind, Nat.add_0_r.
      exists d, en. split; [done|]. split; [done|]. split; [done|].
      rewrite Hout by lia. rewrite Hfds. apply lookup_insert_eq.
    + cbn in Hi. specialize (Hslots i setup' Hi).
      replace (k + S i)%nat with (S k + i)%nat by lia.
      destruct (psfd_kind setup'); [|done|done].
      destruct Hslots as (d' & en' & Hd' & Hlt & Hw1 & Hw').
      exists d', en'. repeat split; try done.
      rewrite Hfds in Hw1. rewrite lookup_insert_ne in Hw1 by lia. done.
  - destruct (negb _); [done|].
    destruct (sys_close _ w) as [r w1] eqn:Hclose.
    pose proof (sys_close_fds (Z.of_nat k) w) as [Hfds Henv].
    rewrite Hclose in Hfds, Henv. cbn [snd] in Hfds, Henv.
    rewrite (proj2 (Z.ltb_ge (Z.of_nat k) 0)) in Hfds by lia.
    apply IH in Hrun as (Henv' & Hout & Hslots).
    split; [congruence|].
    split. { intros fd Hfd. cbn [length] in Hfd. rewrite Hout by lia.
             rewrite Hfds. apply lookup_delete_ne. lia. }
    intros [|i] setup' Hi.
    + cbn in Hi. injection Hi as <-. rewrite Hkind, Nat.add_0_r.
      rewrite Hout by lia. rewrite Hfds. apply lookup_delete_eq.
    + cbn in Hi. specialize (Hslots i setup' Hi).
      replace (k + S i)%nat with (S k + i)%nat by lia.
      destruct (psfd_kind setup'); [|done|done].
      destruct Hslots as (d' & en' & Hd' & Hlt & Hw1 & Hw').
      exists d', en'. repeat split; try done.
      rewrite Hfds in Hw1. rewrite lookup_delete_ne in Hw1 by lia. done.
Qed.

(** The first loop, run from index [k]: it only fills free slots at or above
    [count]; the duplicate recorded for a [PS_MAP_FD] entry refers, with
    close-on-exec set, to the description its [parent_fd] had. *)
Lemma duplicate_up_loop_spec instructions k count scratch w scratch' w' :
  duplicate_up_loop instructions k count scratch w = (Next scratch', w') →
  (k + length instructions ≤ length scratch)%nat →
  w_fds w ⊆ w_fds w' ∧
  (∀ fd, fd < count → w_fds w' !! fd = w_fds w !! fd) ∧
  w_env w' = w_env w ∧
  length scratch' = length scratch ∧
  (∀ j, (j < k)%nat → scratch' !! j = scratch !! j) ∧
  ∀ i setup, instructions !! i = Some setup →
    match psfd_kind setup with
    | PS_MAP_FD =>
      ∃ d X, scratch' !! (k + i)%nat = Some d ∧ count ≤ d ∧ 0 ≤ d ∧
             w_fds w' !! d = Some {| fe_ofd := X; fe_cloexec := true |} ∧
             ∀ en, fd_get (w_fds w) (psfd_parent_fd setup) = Some en → X = fe_ofd en
    | PS_CLOSE_FD => scratch' !! (k + i)%nat = Some (-1)
    | PS_FD_SETUP_OTHER _ => False
    end.
Proof.
  revert k scratch w.
  induction instructions as [|setup rest IH]; intros k scratch w Hrun Hlen.
  { cbn in Hrun. injection Hrun as <- <-. repeat split; try done. }
  cbn [duplicate_up_loop] in Hrun. cbn [length] in Hlen.
  destruct (psfd_kind setup) eqn:Hkind; [| |done].
  - destruct (sys_fcntl_dupfd_cloexec _ _ w) as [dup w1] eqn:Hdup.
    destruct (dup =? -1) eqn:Hneg; [done|]. apply Z.eqb_neq in Hneg.
    destruct (sys_fcntl_dupfd_cloexec_ok _ _ _ _ _ Hdup Hneg)
      as (en & Hen & Hlow & Hnn & Hfresh & Hfds & Henv).
    apply IH in Hrun; [|rewrite length_insert; lia].
    destruct Hrun as (Hsub & Hlowr & Henv' & Hlen' & Hkeep & Hslots).
    assert (Hsub1 : w_fds w ⊆ w_fds w1).
    { rewrite Hfds. by apply insert_subseteq. }
    split; [by etrans|].
    split. { intros fd Hfd. rewrite Hlowr by done. rewrite Hfds.
             apply lookup_insert_ne. lia. }
    split; [congruence|].
    split. { by rewrite Hlen', length_insert. }
    split. { intros j Hj. rewrite Hkeep by lia. apply list_lookup_insert_ne. lia. }
    intros [|i] setup' Hi.
    + cbn in Hi. injection Hi as <-. rewrite Hkind.
      exists dup, (fe_ofd en). rewrite Nat.add_0_r.
      split. { rewrite Hkeep by lia. apply list_lookup_insert_eq. lia. }
      split; [done|]. split; [done|].
      split. { eapply lookup_weaken; [|done]. rewrite Hfds. apply lookup_insert_eq. }
      intros en' Hen'. congruence.
    + cbn in Hi. specialize (Hslots i setup' Hi).
      replace (k + S i)%nat with (S k + i)%nat by lia.
      destruct (psfd_kind setup'); [|done|done].
      destruct Hslots as (d & X & Hd & Hcd & Hd0 & Hwd & HX).
      exists d, X. repeat split; try done.
      intros en' Hen'. apply HX. by eapply fd_get_subseteq.
  - apply IH in Hrun; [|rewrite length_insert; lia].
    destruct Hrun as (Hsub & Hlowr & Henv' & Hlen' & Hkeep & Hslots).
    split; [done|]. split; [done|]. split; [done|].
    split. { by rewrite Hlen', length_insert. }
    split. { intros j Hj. rewrite Hkeep by lia. apply list_lookup_insert_ne. lia. }
    intros [|i] setup' Hi.
    + cbn in Hi. injection Hi as <-. rewrite Hkind. rewrite Nat.add_0_r.
      rewrite Hkeep by lia. apply list_lookup_insert_eq. lia.
    + cbn in Hi. specialize (Hslots i setup' Hi).
      by replace (k + S i)%nat with (S k + i)%nat by lia.
Qed.
End Remap.

(** ** Child setup: control flow and descriptors *)

Lemma halts_within_mono (P Q : fate → Prop) {A : Type} (m : child A) :
  (∀ f, P f → Q f) → halts_within P m → halts_within Q m.
Proof.
  intros HPQ Hm w. specialize (Hm w).
  destruct (m w) as [[a|e|f] w1]; auto.
Qed.

Lemma crash_child_fate f : crash f → child_fate f.
Proof. by destruct f. Qed.

Lemma bind_halts_within (P : fate → Prop) {A C : Type} (m : child A) (k : A → child C) :
  halts_within P m → (∀ a, halts_within P (k a)) → halts_within P (m ≫= k).
Proof.
  intros Hm Hk w. unfold mbind, child_bind, bind.
  specialize (Hm w). destruct (m w) as [[a|e|f] w1]; [apply Hk|done|done].
Qed.

(** A sequence that ends in a fate no earlier block can end in got past
    that block. *)
Lemma bind_halt_inv {A C : Type} (m : child A) (k : A → child C) w f w' :
  (m ≫= k) w = (Halt f, w') → halts_within crash m → ¬ crash f →
  ∃ a w1, m w = (Next a, w1) ∧ k a w1 = (Halt f, w').
Proof.
  unfold mbind, child_bind, bind. intros Hrun Hm Hf. specialize (Hm w).
  destruct (m w) as [[a|e|f1] w1]; [by eauto|done|].
  injection Hrun as -> ->. done.
Qed.

Section ChildFlow.

Variable B : build.

Lemma reset_signal_handlers_loop_halts n signo :
  halts_within crash (reset_signal_handlers_loop B n signo).
Proof.
  revert signo. induction n as [|n IH]; intros signo w; [done|].
  cbn [reset_signal_handlers_loop].
  destruct (_ || _); [apply IH|].
  destruct (sys_signal_dfl signo w) as [is_err w1].
  destruct (negb is_err); [apply IH|].
  by destruct (w_errno w1 =? EINVAL).
Qed.

Lemma reset_signal_mask_halts : halts_within crash reset_signal_mask.
Proof.
  intros w. unfold reset_signal_mask. cbn.
  destruct (sys_sigprocmask_set ∅ w) as [r w1]. by destruct (c_true _).
Qed.

Lemma new_session_halts config : halts_within crash (new_session config).
Proof.
  intros w. unfold new_session. destruct (psc_new_session config); [|done].
  destruct (sys_setsid w) as [r w1]. by destruct (c_true _).
Qed.

Lemma duplicate_up_loop_halts instructions child_fd count scratch :
  halts_within crash (duplicate_up_loop instructions child_fd count scratch).
Proof.
  revert child_fd scratch.
  induction instructions as [|setup rest IH]; intros child_fd scratch w; [done|].
  cbn [duplicate_up_loop].
  destruct (psfd_kind setup); [|apply IH|done].
  destruct (sys_fcntl_dupfd_cloexec _ _ w) as [dup w1].
  destruct (dup =? -1); [done|apply IH].
Qed.

Lemma install_loop_halts instructions child_fd scratch :
  halts_within crash (install_loop instructions child_fd scratch).
Proof.
  revert child_fd.
  induction instructions as [|setup rest IH]; intros child_fd w; [done|].
  cbn [install_loop].
  destruct (psfd_kind setup); [| |done].
  - destruct (negb _); [done|].
    destruct (sys_dup2 _ _ w) as [err w1].
    destruct (err =? -1); [done|apply IH].
  - destruct (negb _); [done|].
    destruct (sys_close _ w) as [r w1]. apply IH.
Qed.

Lemma close_other_fds_halts config error_pipe :
  halts_within crash (close_other_fds B config error_pipe).
Proof.
  intros w. unfold close_other_fds.
  destruct (psc_close_other_fds config); [|done].
  destruct (if b_has_close_range B then _ else _) as [cre w1].
  destruct (c_true cre); [|done].
  by destruct (highest_possibly_open_fd _ w1) as [[hi|] w2].
Qed.

Lemma change_directory_halts config : halts_within crash (change_directory config).
Proof.
  intros w. unfold change_directory. destruct (psc_cwd config); [|done].
  destruct (sys_chdir w) as [r w1]. by destruct (c_true _).
Qed.

Lemma exec_target_halts : halts_within child_fate exec_target.
Proof.
  intros w. unfold exec_target.
  destruct (sys_execve w) as [[err|] w1]; [|done].
  by destruct (c_true err).
Qed.

Lemma child_setup_halts config error_pipe scratch :
  halts_within child_fate (child_setup B config error_pipe scratch).
Proof.
  unfold child_setup.
  repeat (apply bind_halts_within;
    [eapply halts_within_mono; [apply crash_child_fate|];
     first [apply reset_signal_handlers_loop_halts | apply reset_signal_mask_halts
           | apply new_session_halts | apply duplicate_up_loop_halts
           | apply install_loop_halts | apply close_other_fds_halts
           | apply change_directory_halts]
    |intros ?]).
  apply exec_target_halts.
Qed.

Lemma setup_and_execve_child_fate config error_pipe scratch w :
  child_fate (setup_and_execve_child B config error_pipe scratch w).1.
Proof.
  unfold setup_and_execve_child.
  pose proof (child_setup_halts config error_pipe scratch w) as H.
  destruct (child_setup _ _ _ _ _) as [[a|e|f] w1]; [done| |done].
  unfold write_fail. destruct (sys_write _ _ _) as [? w2].
  by destruct (sys_close _ _) as [? w3].
Qed.

(** Blocks that leave the descriptor table alone. *)
Lemma reset_signal_handlers_loop_fds n signo w :
  w_fds (reset_signal_handlers_loop B n signo w).2 = w_fds w.
Proof.
  revert signo w. induction n as [|n IH]; intros signo w; [done|].
  cbn [reset_signal_handlers_loop].
  destruct (_ || _); [apply IH|].
  unfold sys_signal_dfl. destruct (o_signal _ _) as [e|]; cbn [negb].
  - by destruct (_ =? EINVAL).
  - by rewrite IH.
Qed.

Lemma reset_signal_mask_fds w : w_fds (reset_signal_mask w).2 = w_fds w.
Proof.
  unfold reset_signal_mask, sys_sigprocmask_set. cbn.
  by destruct (o_sigprocmask _).
Qed.

Lemma new_session_fds config w : w_fds (new_session config w).2 = w_fds w.
Proof.
  unfold new_session, sys_setsid. destruct (psc_new_session config); [|done].
  destruct (_ <? 0); by destruct (c_true _).
Qed.

Lemma change_directory_fds config w : w_fds (change_directory config w).2 = w_fds w.
Proof.
  unfold change_directory, sys_chdir. destruct (psc_cwd config); [|done].
  by destruct (o_chdir _).
Qed.

Lemma exec_target_execed w w' :
  exec_target w = (Halt Execed, w') →
  w_fds w' = filter (λ kv, fe_cloexec kv.2 = false) (w_fds w).
Proof.
  unfold exec_target, sys_execve. destruct (o_execve _).
  - by destruct (c_true _).
  - by intros [= <-].
Qed.

(** After an exec that succeeded the slots below the count are as the
    instructions say, relative to the table the child started with. *)
Lemma child_fd_table config error_pipe scratch w w' i setup :
  setup_and_execve_child B config error_pipe scratch w = (Execed, w') →
  length scratch = length (psc_fd_setup_instructions config) →
  psc_fd_setup_instructions config !! i = Some setup →
  match psfd_kind setup with
  | PS_MAP_FD =>
    ∀ en, fd_get (w_fds w) (psfd_parent_fd setup) = Some en →
          w_fds w' !! Z.of_nat i = Some {| fe_ofd := fe_ofd en; fe_cloexec := false |}
  | PS_CLOSE_FD => w_fds w' !! Z.of_nat i = None
  | PS_FD_SETUP_OTHER _ => False
  end.
Proof.
  unfold setup_and_execve_child. intros Hrun Hlen Hi.
  destruct (child_setup _ _ _ _ _) as [[a|e|f] w9] eqn:Hsetup; [discriminate Hrun| |].
  { unfold write_fail in Hrun. destruct (sys_write _ _ _) as [? w10].
    destruct (sys_close _ _) as [? w11]. discriminate Hrun. }
  injection Hrun as -> ->.
  unfold child_setup in Hsetup.
  apply bind_halt_inv in Hsetup as ([] & w1 & H1 & Hsetup);
    [|apply reset_signal_handlers_loop_halts|by intros []].
  apply bind_halt_inv in Hsetup as ([] & w2 & H2 & Hsetup);
    [|apply reset_signal_mask_halts|by intros []].
  apply bind_halt_inv in Hsetup as ([] & w3 & H3 & Hsetup);
    [|apply new_session_halts|by intros []].
  apply bind_halt_inv in Hsetup as (scratch' & w4 & H4 & Hsetup);
    [|apply duplicate_up_loop_halts|by intros []].
  apply bind_halt_inv in Hsetup as ([] & w5 & H5 & Hsetup);
    [|apply install_loop_halts|by intros []].
  apply bind_halt_inv in Hsetup as ([] & w6 & H6 & Hsetup);
    [|apply close_other_fds_halts|by intros []].
  apply bind_halt_inv in Hsetup as ([] & w7 & H7 & Hsetup);
    [|apply change_directory_halts|by intros []].
  apply exec_target_execed in Hsetup.
  assert (Hfds3 : w_fds w3 = w_fds w).
  { pose proof (reset_signal_handlers_loop_fds (Z.to_nat (PS_SIG_MAX - 1)) 1 w) as E1.
    unfold reset_signal_handlers in H1. rewrite H1 in E1.
    pose proof (reset_signal_mask_fds w1) as E2. rewrite H2 in E2.
    pose proof (new_session_fds config w2) as E3. rewrite H3 in E3.
    cbn in E1, E2, E3. congruence. }
  apply duplicate_up_loop_spec in H4 as (_ & _ & _ & _ & _ & HA); [|cbn; lia].
  apply install_loop_spec in H5 as (_ & _ & HB).
  apply close_other_fds_low in H6 as [H6 _].
  pose proof (change_directory_fds config w6) as E7. rewrite H7 in E7. cbn in E7.
  specialize (HA i setup Hi). specialize (HB i setup Hi). cbn [Nat.add] in HA, HB.
  assert (Hlt : Z.of_nat i < psc_fd_setup_count config).
  { unfold psc_fd_setup_count. apply lookup_lt_Some in Hi. lia. }
  rewrite Hsetup, E7.
  destruct (psfd_kind setup); [| |done].
  - intros en Hen. rewrite <- Hfds3 in Hen.
    destruct HA as (d & X & Hd & Hcd & Hd0 & Hw4 & HX).
    destruct HB as (d' & en' & Hd' & Hlt' & Hw4' & Hw5).
    assert (d' = d) as -> by congruence.
    assert (en' = {| fe_ofd := X; fe_cloexec := true |}) as -> by congruence.
    rewrite (HX en Hen) in Hw5. cbn in Hw5.
    apply map_lookup_filter_Some_2; [|done].
    by rewrite H6.
  - apply map_lookup_filter_None_2. left. by rewrite H6.
Qed.
End ChildFlow.

(** ** The parent: [ps_spawn_process] *)

Section Parent.

Variable B : build.

(** The control flow of the reaping loop does not look at [out_error]. *)
Lemma waitpid_loop_null script pid err e w :
  waitpid_loop B script pid err None w =
  let '(f, _, w') := waitpid_loop B script pid err (Some e) w in (f, None, w').
Proof.
  revert e w. induction script as [|r script IH]; intros e w; [done|].
  cbn [waitpid_loop].
  destruct (sys_waitpid pid r w) as [wp_result w1].
  destruct (0 <? wp_result); [done|].
  destruct (err =? -1); [|done].
  destruct (w_errno w1 =? EINTR); [apply IH|].
  by destruct (b_ndebug B).
Qed.

(** A valid [out_error] stays valid, and a non-zero kind stays non-zero. *)
Lemma waitpid_loop_some script pid err e w :
  ∃ e', (waitpid_loop B script pid err (Some e) w).1.2 = Some e' ∧
        (pse_kind e ≠ 0 → pse_kind e' ≠ 0).
Proof.
  revert e w. induction script as [|r script IH]; intros e w; [by exists e|].
  cbn [waitpid_loop].
  destruct (sys_waitpid pid r w) as [wp_result w1].
  destruct (0 <? wp_result); [by exists e|].
  destruct (err =? -1); [|by exists e].
  destruct (w_errno w1 =? EINTR); [apply IH|].
  destruct (b_ndebug B); [|by exists e].
  eexists; split; [done|]. done.
Qed.

(** The reaping loop is left by [break], by a trap, or never. *)
Lemma waitpid_loop_fate script pid err oe w :
  match (waitpid_loop B script pid err oe w).1.1 with
  | None | Some Blocked | Some Trapped => True
  | _ => False
  end.
Proof.
  revert oe w. induction script as [|r script IH]; intros oe w; [done|].
  cbn [waitpid_loop].
  destruct (sys_waitpid pid r w) as [wp_result w1].
  destruct (0 <? wp_result); [done|].
  destruct (err =? -1); [|done].
  destruct (w_errno w1 =? EINTR); [apply IH|].
  by destruct (b_ndebug B).
Qed.

(** Whoever returns through [error_cleanup] with a valid [out_error]
    returns 0 and a non-zero kind: the final check sees to it. *)
Lemma error_cleanup_returns pid err fds e w :
  match error_cleanup B pid err fds (Some e) w with
  | (Returned p, oe, _) => p = 0 ∧ ∃ e', oe = Some e' ∧ pse_kind e' ≠ 0
  | _ => True
  end.
Proof.
  unfold error_cleanup.
  set (looped := if 0 <? pid then _ else _).
  assert (Hl : (∃ e', looped.1.2 = Some e') ∧
               match looped.1.1 with
               | None | Some Blocked | Some Trapped => True
               | _ => False
               end).
  { subst looped. destruct (0 <? pid).
    - split; [|apply waitpid_loop_fate].
      destruct (waitpid_loop_some (o_waitpid (w_env w)) pid err e w) as (e' & He' & _).
      eauto.
    - split; [by exists e|done]. }
  destruct looped as [[ended oe] w1]. cbn in Hl. destruct Hl as [[e' ->] Hf].
  destruct ended as [f|].
  - by destruct f.
  - destruct (pse_kind e' =? 0) eqn:Hk; cbn [negb].
    + done.
    + split; [done|]. exists e'. split; [done|]. by apply Z.eqb_neq.
Qed.

Lemma read_loop_returns script pid err fds e w :
  0 < pid →
  match read_loop B script pid err fds (Some e) w with
  | (Returned p, oe, _) =>
    (0 < p ∧ oe = Some e) ∨ (p = 0 ∧ ∃ e', oe = Some e' ∧ pse_kind e' ≠ 0)
  | _ => True
  end.
Proof.
  intros Hpid. revert w. induction script as [|r script IH]; intros w; [done|].
  cbn [read_loop].
  destruct (sys_read fds.1 r w) as [read_res w1].
  destruct (read_res =? 0).
  - destruct (sys_close fds.1 w1). by left.
  - destruct (0 <? read_res); [|apply IH].
    destruct (negb (read_res =? sizeof_ps_error)); [done|].
    cbn [store_error].
    pose proof (error_cleanup_returns pid err fds (rd_data r) w1) as H.
    destruct (error_cleanup _ _ _ _ _ _) as [[f oe] w2].
    destruct f; try done. by right.
Qed.

Lemma error_cleanup_fate pid err fds oe w :
  parent_fate (error_cleanup B pid err fds oe w).1.1.
Proof.
  unfold error_cleanup.
  set (looped := if 0 <? pid then _ else _).
  assert (Hl : match looped.1.1 with
               | None | Some Blocked | Some Trapped => True
               | _ => False
               end).
  { subst looped. destruct (0 <? pid); [apply waitpid_loop_fate|done]. }
  destruct looped as [[ended oe1] w1]. cbn in Hl.
  destruct ended as [f|]; [by destruct f|].
  by destruct (match oe1 with Some _ => _ | None => _ end).
Qed.

Lemma read_loop_fate script pid err fds oe w :
  parent_fate (read_loop B script pid err fds oe w).1.1.
Proof.
  revert w. induction script as [|r script IH]; intros w; [done|].
  cbn [read_loop].
  destruct (sys_read fds.1 r w) as [read_res w1].
  destruct (read_res =? 0); [by destruct (sys_close _ _)|].
  destruct (0 <? read_res); [|apply IH].
  destruct (negb _); [done|]. apply error_cleanup_fate.
Qed.

(** Whenever [ps_spawn_process], called with a valid [out_error], returns,
    it either returns a pid greater than 0 and has left [*out_error] exactly
    as the caller passed it, or it returns 0 and [*out_error] has a non-zero
    kind. *)
Lemma ps_spawn_process_returns config e w :
  match ps_spawn_process B config (Some e) w with
  | (Returned p, oe, _) =>
    (0 < p ∧ oe = Some e) ∨ (p = 0 ∧ ∃ e', oe = Some e' ∧ pse_kind e' ≠ 0)
  | _ => True
  end.
Proof.
  assert (Hc : ∀ pid err fds e1 w1,
    match error_cleanup B pid err fds (Some e1) w1 with
    | (Returned p, oe, _) =>
      (0 < p ∧ oe = Some e) ∨ (p = 0 ∧ ∃ e', oe = Some e' ∧ pse_kind e' ≠ 0)
    | _ => True
    end).
  { intros pid err fds e1 w1.
    pose proof (error_cleanup_returns pid err fds e1 w1) as H.
    destruct (error_cleanup _ _ _ _ _ _) as [[f oe] w2].
    destruct f; try done. by right. }
  unfold ps_spawn_process. cbn [store_error].
  destruct (sys_pipe _ w) as [[err fds] w1].
  destruct (c_true err); [apply Hc|].
  destruct (sys_fcntl_setfd_cloexec fds.1 w1) as [err2 w2].
  destruct (c_true err2); [apply Hc|].
  destruct (sys_fcntl_setfd_cloexec fds.2 w2) as [err3 w3].
  destruct (c_true err3); [apply Hc|].
  destruct (sys_mutex_lock w3) as [err4 w4].
  destruct (negb (err4 =? 0)); [done|].
  destruct (block_everything_but_something_went_seriously_wrong_signals _ _ w4)
    as [[[err5 old] mask] w5].
  destruct (c_true err5); [apply Hc|].
  destruct (sys_fork w5) as [pid w6].
  destruct (pid =? 0).
  - pose proof (setup_and_execve_child_fate B config fds.2
      (replicate (length (psc_fd_setup_instructions config)) 0) w6) as H.
    destruct (setup_and_execve_child _ _ _ _ _) as [f w7]. by destruct f.
  - destruct (sys_pthread_sigmask _ _ _ w6) as [[err7 ?] w7].
    destruct (c_true err7); [apply Hc|].
    destruct (sys_mutex_unlock w7) as [err8 w8].
    destruct (negb (err8 =? 0)); [done|].
    destruct (0 <? pid) eqn:Hpid; [|apply Hc].
    destruct (sys_close fds.2 w8) as [? w9].
    apply read_loop_returns. by apply Z.ltb_lt.
Qed.

Lemma error_cleanup_null pid err fds e w :
  null_run_agrees (error_cleanup B pid err fds None w)
                  (error_cleanup B pid err fds (Some e) w).
Proof.
  unfold error_cleanup.
  destruct (0 <? pid).
  - rewrite (waitpid_loop_null _ pid err e w).
    destruct (waitpid_loop_some (o_waitpid (w_env w)) pid err e w) as (e' & He' & _).
    destruct (waitpid_loop B _ pid err (Some e) w) as [[ended oe] w1].
    cbn in He'. subst oe.
    destruct ended as [f|]; [by repeat split; try left|].
    destruct (pse_kind e' =? 0) eqn:Hk; cbn [negb].
    + apply Z.eqb_eq in Hk. split; [done|]. split; [done|]. right. eauto.
    + split; [done|]. split; [done|]. by left.
  - destruct (pse_kind e =? 0) eqn:Hk; cbn [negb].
    + apply Z.eqb_eq in Hk. split; [done|]. split; [done|]. right. eauto.
    + split; [done|]. split; [done|]. by left.
Qed.

Lemma read_loop_null script pid err fds e w :
  null_run_agrees (read_loop B script pid err fds None w)
                  (read_loop B script pid err fds (Some e) w).
Proof.
  revert w. induction script as [|r script IH]; intros w.
  { by repeat split; try left. }
  cbn [read_loop].
  destruct (sys_read fds.1 r w) as [read_res w1].
  destruct (read_res =? 0).
  { destruct (sys_close fds.1 w1). by repeat split; try left. }
  destruct (0 <? read_res); [|apply IH].
  destruct (negb (read_res =? sizeof_ps_error)).
  { by repeat split; try left. }
  apply error_cleanup_null.
Qed.

(** C10: a null [out_error] is accepted.  Run in the same world with a null
    and with a valid pointer, the function stores nothing through the null
    one, leaves the world in the same state and ends the same way with the
    same return value; the one difference is the final consistency check,
    which is skipped for the null pointer: where the valid pointer's run
    traps there on a zero kind, the null pointer's run returns 0. *)
Theorem ps_spawn_process_null_out_error config e w :
  null_run_agrees (ps_spawn_process B config None w)
                  (ps_spawn_process B config (Some e) w).
Proof.
  unfold ps_spawn_process. cbn [store_error].
  destruct (sys_pipe _ w) as [[err fds] w1].
  destruct (c_true err); [apply error_cleanup_null|].
  destruct (sys_fcntl_setfd_cloexec fds.1 w1) as [err2 w2].
  destruct (c_true err2); [apply error_cleanup_null|].
  destruct (sys_fcntl_setfd_cloexec fds.2 w2) as [err3 w3].
  destruct (c_true err3); [apply error_cleanup_null|].
  destruct (sys_mutex_lock w3) as [err4 w4].
  destruct (negb (err4 =? 0)); [by repeat split; try left|].
  destruct (block_everything_but_something_went_seriously_wrong_signals _ _ w4)
    as [[[err5 old] mask] w5].
  destruct (c_true err5); [apply error_cleanup_null|].
  destruct (sys_fork w5) as [pid w6].
  destruct (pid =? 0).
  - destruct (setup_and_execve_child _ _ _ _ _) as [f w7]. by repeat split; try left.
  - destruct (sys_pthread_sigmask _ _ _ w6) as [[err7 ?] w7].
    destruct (c_true err7); [apply error_cleanup_null|].
    destruct (sys_mutex_unlock w7) as [err8 w8].
    destruct (negb (err8 =? 0)); [by repeat split; try left|].
    destruct (0 <? pid); [|apply error_cleanup_null].
    destruct (sys_close fds.2 w8) as [? w9].
    apply read_loop_null.
Qed.

End Parent.

(** ** From the call to the exec: the child's descriptors *)

Lemma sigdelset_fds o mask signo w :
  w_fds (sigdelset o mask signo w).2 = w_fds w.
Proof. unfold sigdelset. by destruct (valid_signal o signo). Qed.

Lemma sys_pthread_sigmask_fds o how set w :
  w_fds (sys_pthread_sigmask o how set w).2 = w_fds w.
Proof. unfold sys_pthread_sigmask. by destruct (_ =? 0). Qed.

Lemma block_signals_fds o old w :
  w_fds (block_everything_but_something_went_seriously_wrong_signals o old w).2
  = w_fds w.
Proof.
  unfold block_everything_but_something_went_seriously_wrong_signals.
  cbv beta iota zeta delta [sigfillset].
  repeat match goal with
  | |- context [sigdelset ?o ?m ?s ?w1] =>
    let H := fresh "H" in
    pose proof (sigdelset_fds o m s w1) as H;
    destruct (sigdelset o m s w1) as [[? ?] ?]; cbn [snd] in H
  end.
  match goal with
  | |- context [sys_pthread_sigmask ?o ?h ?m ?w1] =>
    let H := fresh "H" in
    pose proof (sys_pthread_sigmask_fds o h m w1) as H;
    destruct (sys_pthread_sigmask o h m w1) as [[? ?] ?]; cbn [snd] in H
  end.
  cbn [snd]. congruence.
Qed.

(** The pipe takes two slots that were free and leaves the others alone. *)
Lemma sys_pipe_fds fds0 w err fds w' :
  sys_pipe fds0 w = (err, fds, w') →
  w_fds w ⊆ w_fds w' ∧
  (c_true err = false →
   w_fds w !! fds.1 = None ∧ w_fds w !! fds.2 = None ∧ 0 ≤ fds.1 ∧ 0 ≤ fds.2).
Proof.
  unfold sys_pipe.
  destruct (o_pipe _); [by intros [= <- <- <-]|].
  destruct (lowest_free (w_fds w) _ _) as [r|] eqn:Hr; [|by intros [= <- <- <-]].
  destruct (lowest_free (<[r:=_]> _) _ _) as [wr|] eqn:Hwr; [|by intros [= <- <- <-]].
  intros [= <- <- <-]. cbn.
  apply lowest_free_spec in Hr as [Hr Hrn], Hwr as [Hwr Hwrn].
  assert (wr ≠ r) by (intros ->; by rewrite lookup_insert_eq in Hwrn).
  rewrite lookup_insert_ne in Hwrn by done.
  split.
  - apply insert_subseteq_r; [done|]. by apply insert_subseteq.
  - intros _. repeat split; try done; lia.
Qed.

Lemma sys_fcntl_setfd_cloexec_fds (t0 : gmap Z fd_entry) fd w :
  t0 !! fd = None → t0 ⊆ w_fds w →
  t0 ⊆ w_fds (sys_fcntl_setfd_cloexec fd w).2.
Proof.
  intros Hfd Hsub. unfold sys_fcntl_setfd_cloexec.
  destruct (o_fcntl_setfd _ _); [done|].
  destruct (fd_get _ _); [|done]. cbn.
  by apply insert_subseteq_r.
Qed.

Section Spawn.

Variable B : build.

(** C2: in the process in which [ps_spawn_process] ended with a successful
    exec, every slot [i] below the count is as instruction [i] says: for
    [PS_MAP_FD] it refers, with close-on-exec clear, to the description that
    [parent_fd] referred to when the function was called; for [PS_CLOSE_FD]
    it is closed.  This holds for every instruction sequence, whatever the
    order in which sources and targets overlap. *)
Theorem fd_table_matches_instructions config out_error w oe w' i setup :
  ps_spawn_process B config out_error w = (Execed, oe, w') →
  psc_fd_setup_instructions config !! i = Some setup →
  match psfd_kind setup with
  | PS_MAP_FD =>
    ∀ en, fd_get (w_fds w) (psfd_parent_fd setup) = Some en →
          w_fds w' !! Z.of_nat i =
            Some {| fe_ofd := fe_ofd en; fe_cloexec := false |}
  | PS_CLOSE_FD => w_fds w' !! Z.of_nat i = None
  | PS_FD_SETUP_OTHER _ => False
  end.
Proof.
  intros Hrun Hi.
  assert (Hc : ∀ pid err fds oe1 w1,
             error_cleanup B pid err fds oe1 w1 ≠ (Execed, oe, w')).
  { intros pid err fds oe1 w1 E.
    pose proof (error_cleanup_fate B pid err fds oe1 w1) as H. by rewrite E in H. }
  unfold ps_spawn_process in Hrun.
  destruct (sys_pipe _ w) as [[err fds] w1] eqn:Hpipe.
  apply sys_pipe_fds in Hpipe as [Hsub1 Hfree].
  destruct (c_true err); [by apply Hc in Hrun|].
  destruct (Hfree eq_refl) as (Hr & Hwr & _).
  pose proof (sys_fcntl_setfd_cloexec_fds (w_fds w) fds.1 w1 Hr Hsub1) as Hsub2.
  destruct (sys_fcntl_setfd_cloexec fds.1 w1) as [err2 w2]. cbn [snd] in Hsub2.
  destruct (c_true err2); [by apply Hc in Hrun|].
  pose proof (sys_fcntl_setfd_cloexec_fds (w_fds w) fds.2 w2 Hwr Hsub2) as Hsub3.
  destruct (sys_fcntl_setfd_cloexec fds.2 w2) as [err3 w3]. cbn [snd] in Hsub3.
  destruct (c_true err3); [by apply Hc in Hrun|].
  unfold sys_mutex_lock in Hrun.
  destruct (negb _); [done|].
  match type of Hrun with
  | context [block_everything_but_something_went_seriously_wrong_signals ?o ?m ?w4] =>
    pose proof (block_signals_fds o m w4) as Hfds5;
    destruct (block_everything_but_something_went_seriously_wrong_signals o m w4)
      as [[[err5 old] mask] w5]
  end.
  cbn in Hfds5.
  destruct (c_true err5); [by apply Hc in Hrun|].
  assert (Hfds6 : w_fds (sys_fork w5).2 = w_fds w5).
  { unfold sys_fork. by destruct (_ <? 0). }
  destruct (sys_fork w5) as [pid w6]. cbn in Hfds6.
  destruct (pid =? 0).
  - destruct (setup_and_execve_child _ _ _ _ _) as [f w7] eqn:Hchild.
    injection Hrun as -> _ ->.
    pose proof (child_fd_table B config _ _ _ _ i setup Hchild) as H.
    rewrite length_replicate in H. specialize (H eq_refl Hi).
    destruct (psfd_kind setup); [|done|done].
    intros en Hen. apply H. eapply fd_get_subseteq; [|done].
    by rewrite Hfds6, Hfds5.
  - destruct (sys_pthread_sigmask _ _ _ w6) as [[err7 ?] w7].
    destruct (c_true err7); [by apply Hc in Hrun|].
    destruct (sys_mutex_unlock w7) as [err8 w8].
    destruct (negb (err8 =? 0)); [done|].
    destruct (0 <? pid); [|by apply Hc in Hrun].
    destruct (sys_close fds.2 w8) as [? w9].
    match type of Hrun with
    | read_loop ?b ?s ?p ?e ?f ?o ?w = _ =>
      pose proof (read_loop_fate b s p e f o w) as H
    end.
    by rewrite Hrun in H.
Qed.

End Spawn.

(** Descriptors 1 and 2 swapped, and a slot closed: the child, as seen in
    the process where [fork] answered 0. *)
Lemma fd_table_matches_instructions_swap :
  let config := run_true [map_fd 0; map_fd 2; map_fd 1; close_fd] in
  let w := fresh_world stdio_fds (scripted (0, 0) [] [] [] None) in
  let r := ps_spawn_process linux_build config None w in
  r.1.1 = Execed ∧
  w_fds r.2 !! 1 = Some (file_entry 2) ∧
  w_fds r.2 !! 2 = Some (file_entry 1) ∧
  w_fds r.2 !! 3 = None.
Proof.
  intros config w r.
  assert (Hrun : ps_spawn_process linux_build config None w = (Execed, None, r.2)).
  { vm_compute. reflexivity. }
  split; [vm_compute; reflexivity|].
  split; [|split].
  - exact (fd_table_matches_instructions linux_build config None w None r.2
             1%nat (map_fd 2) Hrun eq_refl (file_entry 2) eq_refl).
  - exact (fd_table_matches_instructions linux_build config None w None r.2
             2%nat (map_fd 1) Hrun eq_refl (file_entry 1) eq_refl).
  - exact (fd_table_matches_instructions linux_build config None w None r.2
             3%nat close_fd Hrun eq_refl).
Defined.

(** ** Both processes on sample inputs *)

(** Scenario 1 of the specification: [/bin/true] is spawned, the child
    execs, the parent reads end-of-file and returns the pid. *)
Example spawn_true_succeeds :
  let w := fresh_world stdio_fds (scripted (42, 0) [] [] [] None) in
  let '((child, _), (parent, out_error, _)) :=
    spawn_both linux_build (run_true []) (Some ps_error_zero) 42 w in
  child = Execed ∧ parent = Returned 42 ∧ out_error = Some ps_error_zero.
Proof. vm_compute. done. Qed.

(** Scenario 3: the program does not exist, the child reports the failed
    [execve] through the pipe, the parent reaps it and returns 0. *)
Example spawn_missing_program_fails :
  let w := fresh_world stdio_fds (scripted (42, 0) [] [(42, 0)] [] (Some ENOENT)) in
  let '((child, _), (parent, out_error, _)) :=
    spawn_both linux_build (missing_program [map_fd 0; map_fd 1; map_fd 2])
      (Some ps_error_zero) 42 w in
  child = Exited 253 ∧ parent = Returned 0 ∧ out_error = Some execve_enoent.
Proof. vm_compute. done. Qed.

(** C1, as stated, fails: the call succeeds, the child execs and the parent
    returns the pid 42, and [*out_error] still holds the record the caller
    left in it, which is not zero. *)
Lemma success_leaves_out_error_untouched :
  let w := fresh_world stdio_fds (scripted (42, 0) [] [] [] None) in
  let '((child, _), (parent, out_error, _)) :=
    spawn_both linux_build (run_true []) (Some stale_error) 42 w in
  child = Execed ∧ parent = Returned 42 ∧
  out_error = Some stale_error ∧ out_error ≠ Some ps_error_zero.
Proof. vm_compute. repeat split; discriminate. Qed.

(** C4: with three descriptors open the pipe's write end is descriptor 4,
    and five instructions reach it.  Nothing moves the pipe out of the way:
    the second loop installs the duplicate of descriptor 1 onto 4.  When
    [execve] then fails, the report is written to the caller's file behind
    descriptor 1, none reaches the pipe, and the parent, reading
    end-of-file, returns the pid as for a success. *)
Theorem error_pipe_clobbered_below_count :
  let config :=
    missing_program [map_fd 0; map_fd 1; map_fd 2; close_fd; map_fd 1] in
  let w := fresh_world stdio_fds (scripted (42, 0) [] [(42, 0)] [] (Some ENOENT)) in
  let '((child, wc), (parent, out_error, _)) :=
    spawn_both linux_build config (Some ps_error_zero) 42 w in
  child = Exited 253 ∧
  calls_of [SYS_pipe; SYS_fcntl_dupfd_cloexec; SYS_dup2; SYS_write] (w_trace wc) =
    [ {| ev_call := SYS_pipe; ev_args := [3; 4]; ev_ret := 0 |};
      {| ev_call := SYS_fcntl_dupfd_cloexec; ev_args := [0; 5]; ev_ret := 5 |};
      {| ev_call := SYS_fcntl_dupfd_cloexec; ev_args := [1; 5]; ev_ret := 6 |};
      {| ev_call := SYS_fcntl_dupfd_cloexec; ev_args := [2; 5]; ev_ret := 7 |};
      {| ev_call := SYS_fcntl_dupfd_cloexec; ev_args := [1; 5]; ev_ret := 8 |};
      {| ev_call := SYS_dup2; ev_args := [5; 0]; ev_ret := 0 |};
      {| ev_call := SYS_dup2; ev_args := [6; 1]; ev_ret := 1 |};
      {| ev_call := SYS_dup2; ev_args := [7; 2]; ev_ret := 2 |};
      {| ev_call := SYS_dup2; ev_args := [8; 4]; ev_ret := 4 |};
      {| ev_call := SYS_write; ev_args := [4]; ev_ret := 24 |} ] ∧
  w_written wc = [(OFD_file 1, execve_enoent)] ∧
  parent = Returned 42 ∧ out_error = Some ps_error_zero.
Proof. vm_compute. done. Qed.

(** The same with [PS_CLOSE_FD] in slot 4: the second loop closes the
    pipe, the report is lost and the parent again returns the pid. *)
Example error_pipe_closed_below_count :
  let config :=
    missing_program [map_fd 0; map_fd 1; map_fd 2; close_fd; close_fd] in
  let w := fresh_world stdio_fds (scripted (42, 0) [] [(42, 0)] [] (Some ENOENT)) in
  let '((child, wc), (parent, out_error, _)) :=
    spawn_both linux_build config (Some ps_error_zero) 42 w in
  child = Exited 253 ∧ w_written wc = [] ∧
  parent = Returned 42 ∧ out_error = Some ps_error_zero.
Proof. vm_compute. done. Qed.

(** C5: the child has reported a failed [execve] and the parent goes to
    reap it; the first [waitpid] is interrupted.  The loop tests [err],
    which is 0 here, and not the result of [waitpid]: the run traps instead
    of calling [waitpid] again.  And a read that fails with an errno other
    than [EINTR] is retried like any other failed read: here the next read
    gives end-of-file and the call returns the pid. *)
Theorem waitpid_eintr_traps :
  (ps_spawn_process linux_build (missing_program []) (Some ps_error_zero)
     (fresh_world stdio_fds
        (scripted (42, 0) [full_read execve_enoent] [(-1, EINTR); (42, 0)] []
           None))).1
  = (Trapped, Some execve_enoent) ∧
  (ps_spawn_process linux_build (missing_program []) (Some ps_error_zero)
     (fresh_world stdio_fds
        (scripted (42, 0) [failed_read EIO; eof] [] [] None))).1
  = (Returned 42, Some ps_error_zero).
Proof. split; vm_compute; reflexivity. Qed.

(** An interrupted read of the pipe, for comparison, is retried. *)
Example read_eintr_is_retried :
  (ps_spawn_process linux_build (run_true []) (Some ps_error_zero)
     (fresh_world stdio_fds
        (scripted (42, 0) [failed_read EINTR; failed_read EINTR; eof] [] []
           None))).1
  = (Returned 42, Some ps_error_zero).
Proof. vm_compute. reflexivity. Qed.

(** The two runs of C10 where they differ: the pipe delivers a record of
    kind 0. *)
Example null_out_error_skips_final_check :
  let w := fresh_world stdio_fds
             (scripted (42, 0) [full_read ps_error_zero] [(42, 0)] [] None) in
  (ps_spawn_process linux_build (run_true []) None w).1 = (Returned 0, None) ∧
  (ps_spawn_process linux_build (run_true []) (Some stale_error) w).1
    = (Trapped, Some ps_error_zero).
Proof. split; vm_compute; reflexivity. Qed.

(** Scenario 4 with the other descriptors closed: the child keeps exactly
    descriptor 1, on the description behind the caller's descriptor 5. *)
Example spawn_with_mapped_pipe :
  let config :=
    {| psc_path := "/bin/echo"; psc_argv := ["echo"; "hello"]%string;
       psc_env := []; psc_cwd := None;
       psc_fd_setup_instructions := [close_fd; map_fd 5; close_fd];
       psc_new_session := false; psc_close_other_fds := true |} in
  let w := fresh_world (<[5 := file_entry 5]> stdio_fds)
             (scripted (42, 0) [] [] [] None) in
  let '((child, wc), (parent, _, wp)) :=
    spawn_both linux_build config None 42 w in
  child = Execed ∧ map_to_list (w_fds wc) = [(1, file_entry 5)] ∧
  parent = Returned 42 ∧ w_fds wp = w_fds w.
Proof. vm_compute. done. Qed.

(** ** More of [internal-helpers.h]: the parser and the scan *)

Lemma pretty_N_char_code (d : N) :
  (d < 10)%N → Z.of_nat (nat_of_ascii (pretty_N_char d)) = 48 + Z.of_N d.
Proof.
  intros Hd.
  assert (d = N.of_nat (N.to_nat d)) as -> by lia.
  assert (Hk : (N.to_nat d < 10)%nat) by lia. revert Hk.
  generalize (N.to_nat d) as k. intros k Hk.
  do 10 (destruct k as [|k]; [reflexivity|]). lia.
Qed.

Lemma positive_int_parse_from_digit c str out :
  48 ≤ Z.of_nat (nat_of_ascii c) ≤ 57 →
  0 ≤ out → out * 10 + (Z.of_nat (nat_of_ascii c) - 48) ≤ INT_MAX →
  positive_int_parse_from (String c str) out =
  positive_int_parse_from str (out * 10 + (Z.of_nat (nat_of_ascii c) - 48)).
Proof.
  intros Hc Hout Hmax. cbn [positive_int_parse_from].
  rewrite (proj2 (Z.eqb_neq _ 0)) by lia.
  rewrite (proj2 (Z.ltb_ge INT_MAX (out * 10))) by lia.
  unfold is_digit. rewrite (proj2 (Z.leb_le 48 _)), (proj2 (Z.leb_le _ 57)) by lia.
  cbn [andb]. by rewrite (proj2 (Z.ltb_ge INT_MAX _)) by lia.
Qed.

Lemma positive_int_parse_pretty_N_go (x : N) (s : string) :
  Z.of_N x ≤ INT_MAX →
  positive_int_parse_from (pretty_N_go x s) 0 =
  positive_int_parse_from s (Z.of_N x).
Proof.
  revert s. induction (N.lt_wf_0 x) as [x _ IH]; intros s Hx.
  destruct (decide (x = 0)%N) as [->|Hne]; [by rewrite pretty_N_go_0|].
  rewrite pretty_N_go_step by lia.
  assert (Hdiv : (x `div` 10 < x)%N) by (apply N.div_lt; lia).
  assert (Hmod : (x `mod` 10 < 10)%N) by (apply N.mod_lt; lia).
  pose proof (N.div_mod x 10 ltac:(lia)) as Hdm.
  pose proof (pretty_N_char_code _ Hmod) as Hc.
  specialize (IH (x `div` 10)%N Hdiv).
  revert IH Hdiv Hmod Hdm Hc.
  generalize (x `div` 10)%N as q. generalize (x `mod` 10)%N as r.
  intros r q IH Hdiv Hmod Hdm Hc.
  rewrite IH by lia.
  rewrite positive_int_parse_from_digit by lia.
  f_equal. lia.
Qed.

(** [positive_int_parse] reads back the decimal numeral of every
    non-negative [int]: the names the kernel lists in the descriptor
    directory parse to the descriptors they name. *)
Theorem positive_int_parse_decimal (n : Z) :
  0 ≤ n ≤ INT_MAX → positive_int_parse (pretty n) = Some n.
Proof.
  intros Hn. unfold positive_int_parse.
  destruct n as [|p|p]; [reflexivity| |lia].
  change (pretty (Z.pos p)) with (pretty (N.pos p)).
  unfold pretty, pretty_N. rewrite decide_False by done.
  rewrite positive_int_parse_pretty_N_go by (cbn; lia). reflexivity.
Qed.

Lemma positive_int_parse_decimal_witness :
  positive_int_parse "1023" = Some 1023.
Proof.
  change "1023"%string with (pretty 1023).
  apply positive_int_parse_decimal. unfold INT_MAX. lia.
Defined.

Lemma positive_int_parse_from_range str out n :
  0 ≤ out ≤ INT_MAX →
  positive_int_parse_from str out = Some n → n = -1 ∨ 0 ≤ n ≤ INT_MAX.
Proof.
  revert out. induction str as [|c str IH]; intros out Hout.
  { cbn. intros [= <-]. by right. }
  cbn [positive_int_parse_from].
  destruct (_ =? 0); [intros [= <-]; by right|].
  destruct (Z.ltb_spec INT_MAX (out * 10)); [done|].
  destruct (is_digit c) eqn:Hd; [|intros [= <-]; by left].
  destruct (Z.ltb_spec INT_MAX (out * 10 + (Z.of_nat (nat_of_ascii c) - 48))); [done|].
  apply IH. unfold is_digit in Hd. apply andb_true_iff in Hd as [H1 H2].
  apply Z.leb_le in H1, H2. lia.
Qed.

Lemma positive_int_parse_pretty_N_go_overflow (x : N) (s : string) :
  INT_MAX < Z.of_N x → positive_int_parse_from (pretty_N_go x s) 0 = None.
Proof.
  revert s. induction (N.lt_wf_0 x) as [x _ IH]; intros s Hx.
  assert (Hne : x ≠ 0%N) by (unfold INT_MAX in Hx; lia).
  rewrite pretty_N_go_step by lia.
  assert (Hdiv : (x `div` 10 < x)%N) by (apply N.div_lt; lia).
  assert (Hmod : (x `mod` 10 < 10)%N) by (apply N.mod_lt; lia).
  pose proof (N.div_mod x 10 ltac:(lia)) as Hdm.
  pose proof (pretty_N_char_code _ Hmod) as Hc.
  specialize (IH (x `div` 10)%N Hdiv).
  pose proof (positive_int_parse_pretty_N_go (x `div` 10)%N) as Hgo.
  revert IH Hgo Hdiv Hmod Hdm Hc.
  generalize (x `div` 10)%N as q. generalize (x `mod` 10)%N as r.
  intros r q IH Hgo Hdiv Hmod Hdm Hc.
  destruct (Z.lt_ge_cases INT_MAX (Z.of_N q)) as [Hq|Hq]; [by apply IH|].
  rewrite Hgo by lia. cbn [positive_int_parse_from].
  rewrite (proj2 (Z.eqb_neq _ 0)) by lia.
  destruct (Z.ltb_spec INT_MAX (Z.of_N q * 10)); [done|].
  unfold is_digit. rewrite (proj2 (Z.leb_le 48 _)), (proj2 (Z.leb_le _ 57)) by lia.
  cbn [andb]. by rewrite (proj2 (Z.ltb_lt INT_MAX _)) by lia.
Qed.

(** [positive_int_parse] has no guard against overflow: on the decimal
    numeral of a number beyond [INT_MAX] the accumulator overflows a signed
    [int], which C leaves undefined. *)
Theorem positive_int_parse_beyond_int_max (n : Z) :
  INT_MAX < n → positive_int_parse (pretty n) = None.
Proof.
  intros Hn. unfold positive_int_parse.
  destruct n as [|p|p]; [unfold INT_MAX in Hn; lia| |unfold INT_MAX in Hn; lia].
  change (pretty (Z.pos p)) with (pretty (N.pos p)).
  unfold pretty, pretty_N. rewrite decide_False by done.
  by apply positive_int_parse_pretty_N_go_overflow.
Qed.

Lemma positive_int_parse_beyond_int_max_witness :
  positive_int_parse "2147483648" = None.
Proof.
  change "2147483648"%string with (pretty 2147483648).
  apply positive_int_parse_beyond_int_max. unfold INT_MAX. lia.
Defined.

Lemma positive_int_parse_from_class str out n :
  0 ≤ out ≤ INT_MAX →
  positive_int_parse_from str out = Some n →
  if digits_only str then out ≤ n ≤ INT_MAX else n = -1.
Proof.
  revert out. induction str as [|c str IH]; intros out Hout.
  { cbn. intros [= <-]. lia. }
  cbn [positive_int_parse_from digits_only].
  destruct (_ =? 0); [intros [= <-]; lia|].
  destruct (Z.ltb_spec INT_MAX (out * 10)); [done|].
  destruct (is_digit c) eqn:Hd; [|intros [= <-]; done].
  destruct (Z.ltb_spec INT_MAX (out * 10 + (Z.of_nat (nat_of_ascii c) - 48))); [done|].
  unfold is_digit in Hd. apply andb_true_iff in Hd as [H1 H2].
  apply Z.leb_le in H1, H2.
  intros Hrun. apply IH in Hrun; [|lia]. cbn [andb].
  destruct (digits_only str); [lia|done].
Qed.

(** What [positive_int_parse] answers when it answers: a number in
    [0, INT_MAX] for a name made of digits only (0 for the empty name), and
    -1 for every other name. *)
Theorem positive_int_parse_class str n :
  positive_int_parse str = Some n →
  if digits_only str then 0 ≤ n ≤ INT_MAX else n = -1.
Proof.
  intros H. apply positive_int_parse_from_class in H; [done|]. unfold INT_MAX. lia.
Qed.

Lemma positive_int_parse_class_witness :
  (if digits_only "42" then 0 ≤ 42 ≤ INT_MAX else 42 = -1) ∧
  (if digits_only "4x2" then 0 ≤ -1 ≤ INT_MAX else -1 = -1).
Proof.
  split.
  - exact (positive_int_parse_class "42" 42 eq_refl).
  - exact (positive_int_parse_class "4x2" (-1) eq_refl).
Defined.

Lemma elem_of_names_read_cons r script d_name :
  0 < gd_ret r →
  d_name ∈ names_read (r :: script) ↔ d_name ∈ gd_names r ∨ d_name ∈ names_read script.
Proof.
  intros Hr. cbn [names_read]. rewrite (proj2 (Z.ltb_lt 0 (gd_ret r))) by done.
  apply elem_of_app.
Qed.

Lemma scan_entries_maximum names highest h :
  scan_entries names highest = Some h →
  highest ≤ h ∧
  (∀ d_name n, d_name ∈ names → not_dot_entry d_name = true →
     positive_int_parse d_name = Some n → n ≤ h) ∧
  (h = highest ∨
   ∃ d_name, d_name ∈ names ∧ not_dot_entry d_name = true ∧
             positive_int_parse d_name = Some h).
Proof.
  revert highest. induction names as [|d names IH]; intros highest.
  { intros [= <-]. split; [lia|]. split; [|by left].
    intros d_name n Hin. by apply elem_of_nil in Hin. }
  cbn [scan_entries].
  destruct (not_dot_entry d) eqn:Hdot.
  - destruct (positive_int_parse d) as [number|] eqn:Hparse; [|done].
    intros Hrun. apply IH in Hrun as (Hge & Hub & Hatt).
    split; [destruct (Z.ltb_spec highest number); lia|].
    split.
    + intros d_name n Hin Hnd Hp. apply elem_of_cons in Hin as [->|Hin].
      * assert (n = number) as -> by congruence.
        destruct (Z.ltb_spec highest number); lia.
      * by eapply Hub.
    + destruct Hatt as [->|(d_name & Hin & Hnd & Hp)].
      * destruct (Z.ltb_spec highest number); [|by left].
        right. exists d. split; [by left|done].
      * right. exists d_name. split; [by right|done].
  - intros Hrun. apply IH in Hrun as (Hge & Hub & Hatt).
    split; [done|]. split.
    + intros d_name n Hin Hnd Hp. apply elem_of_cons in Hin as [->|Hin].
      * congruence.
      * by eapply Hub.
    + destruct Hatt as [->|(d_name & Hin & Hnd & Hp)]; [by left|].
      right. exists d_name. split; [by right|done].
Qed.

Lemma getdents_loop_maximum script dir_fd highest w h :
  (getdents_loop script dir_fd highest w).1 = Some h →
  highest ≤ h ∧
  (∀ d_name n, d_name ∈ names_read script → not_dot_entry d_name = true →
     positive_int_parse d_name = Some n → n ≤ h) ∧
  (h = highest ∨
   ∃ d_name, d_name ∈ names_read script ∧ not_dot_entry d_name = true ∧
             positive_int_parse d_name = Some h).
Proof.
  revert highest w. induction script as [|r script IH]; intros highest w.
  { cbn. intros [= <-]. split; [lia|]. split; [|by left].
    intros d_name n Hin. by apply elem_of_nil in Hin. }
  cbn [getdents_loop names_read]. unfold sys_getdents.
  assert (Hexit : ∀ w1 : world, (Some highest, w1).1 = Some h →
    highest ≤ h ∧
    (∀ d_name n, d_name ∈ @nil string → not_dot_entry d_name = true →
       positive_int_parse d_name = Some n → n ≤ h) ∧
    (h = highest ∨
     ∃ d_name, d_name ∈ @nil string ∧ not_dot_entry d_name = true ∧
               positive_int_parse d_name = Some h)).
  { intros w1 [= <-]. split; [lia|]. split; [|by left].
    intros d_name n Hin. by apply elem_of_nil in Hin. }
  destruct (gd_ret r <? 0) eqn:Hneg.
  - rewrite (proj2 (Z.ltb_ge 0 (gd_ret r))) by (apply Z.ltb_lt in Hneg; lia).
    apply Hexit.
  - cbv beta iota zeta. destruct (0 <? gd_ret r); [|apply Hexit].
    rewrite Hneg.
    destruct (scan_entries _ _) as [h1|] eqn:Hscan; [|done].
    apply scan_entries_maximum in Hscan as (Hge1 & Hub1 & Hatt1).
    intros Hrun. apply IH in Hrun as (Hge & Hub & Hatt).
    split; [lia|]. split.
    + intros d_name n Hin Hnd Hp. apply elem_of_app in Hin as [Hin|Hin].
      * specialize (Hub1 d_name n Hin Hnd Hp). lia.
      * by eapply Hub.
    + destruct Hatt as [->|(d_name & Hin & Hnd & Hp)].
      * destruct Hatt1 as [->|(d_name & Hin & Hnd & Hp)]; [by left|].
        right. exists d_name. split; [|done]. apply elem_of_app. by left.
      * right. exists d_name. split; [|done]. apply elem_of_app. by right.
Qed.

Lemma sys_open_dir_env w : w_env (sys_open_dir w).2 = w_env w.
Proof.
  unfold sys_open_dir. destruct (o_open _); [done|].
  by destruct (lowest_free _ _ _).
Qed.

(** Once the directory is open, [highest_possibly_open_fd_dir_syscall]
    answers the maximum of 0 and the numbers of the names read, up to the
    first read that returns nothing or fails, that do not start with a dot:
    no such name parses to more, and the answer is 0 or one of them. *)
Theorem enumerator_answers_maximum fd_dir w h w' :
  highest_possibly_open_fd_dir_syscall fd_dir w = (Some h, w') →
  0 ≤ (sys_open_dir w).1 →
  0 ≤ h ∧
  (∀ d_name n, d_name ∈ names_read (o_getdents (w_env w)) →
     not_dot_entry d_name = true → positive_int_parse d_name = Some n → n ≤ h) ∧
  (h = 0 ∨
   ∃ d_name, d_name ∈ names_read (o_getdents (w_env w)) ∧
             not_dot_entry d_name = true ∧ positive_int_parse d_name = Some h).
Proof.
  unfold highest_possibly_open_fd_dir_syscall.
  pose proof (sys_open_dir_env w) as Henv.
  destruct (sys_open_dir w) as [dir_fd w1]. cbn [fst snd] in *.
  intros Hrun Hopen. rewrite (proj2 (Z.ltb_ge dir_fd 0)) in Hrun by done.
  rewrite Henv in Hrun.
  pose proof (getdents_loop_maximum (o_getdents (w_env w)) dir_fd 0 w1) as Hmax.
  destruct (getdents_loop _ _ _ _) as [[h1|] w2]; [|done].
  destruct (sys_close dir_fd w2). injection Hrun as -> _.
  by apply Hmax.
Qed.

Lemma enumerator_answers_maximum_witness :
  0 ≤ 7 ∧
  (∀ d_name n, d_name ∈ names_read listing_with_readme →
     not_dot_entry d_name = true → positive_int_parse d_name = Some n → n ≤ 7) ∧
  (7 = 0 ∨
   ∃ d_name, d_name ∈ names_read listing_with_readme ∧
             not_dot_entry d_name = true ∧ positive_int_parse d_name = Some 7).
Proof.
  set (w := fresh_world stdio_fds (scripted (42, 0) [] [] listing_with_readme None)).
  apply (enumerator_answers_maximum "/proc/self/fd" w 7
           (highest_possibly_open_fd_dir_syscall "/proc/self/fd" w).2).
  - vm_compute. reflexivity.
  - vm_compute. discriminate.
Defined.

(** ** More of [internal-helpers.h]: the enumerators as a whole *)

(** [highest_possibly_open_fd_dir_syscall] leaves the descriptor table as
    it found it, the directory being closed again, and answers a negative
    number, then -1, exactly when the directory could not be opened. *)
Theorem enumerator_restores_table fd_dir w h w' :
  highest_possibly_open_fd_dir_syscall fd_dir w = (Some h, w') →
  w_fds w' = w_fds w ∧
  (h < 0 ↔ (sys_open_dir w).1 < 0) ∧
  (h < 0 → h = -1).
Proof.
  intros Hrun.
  split; [by apply highest_possibly_open_fd_dir_syscall_fds in Hrun as [? _]|].
  assert (Hs : h < 0 → (sys_open_dir w).1 < 0).
  { apply (highest_possibly_open_fd_dir_syscall_sentinel fd_dir). by rewrite Hrun. }
  unfold highest_possibly_open_fd_dir_syscall in Hrun.
  destruct (sys_open_dir w) as [dir_fd w1]. cbn [fst] in *.
  destruct (Z.ltb_spec dir_fd 0).
  - injection Hrun as <- _. split; [split; [done|lia]|done].
  - split; [split; [done|lia]|]. intros Hh. apply Hs in Hh. lia.
Qed.

Lemma enumerator_restores_table_witness :
  let w := fresh_world stdio_fds (scripted (42, 0) [] [] interrupted_listing None) in
  w_fds (highest_possibly_open_fd_dir_syscall "/dev/fd" w).2 = w_fds w.
Proof.
  intros w.
  apply (enumerator_restores_table "/dev/fd" w 0
           (highest_possibly_open_fd_dir_syscall "/dev/fd" w).2).
  vm_compute. reflexivity.
Defined.

(** The read loop ends at the first [getdents64] that returns 0 or fails:
    what later reads would have delivered plays no part. *)
Theorem getdents_loop_stops_at_failed_read pre r post dir_fd highest w :
  gd_ret r ≤ 0 →
  getdents_loop (pre ++ r :: post) dir_fd highest w =
  getdents_loop (pre ++ [r]) dir_fd highest w.
Proof.
  intros Hr. revert highest w. induction pre as [|r0 pre IH]; intros highest w.
  - cbn [app getdents_loop]. unfold sys_getdents.
    destruct (gd_ret r <? 0); cbv beta iota zeta;
      by rewrite (proj2 (Z.ltb_ge 0 (gd_ret r))) by done.
  - cbn [app getdents_loop].
    destruct (sys_getdents dir_fd r0 w) as [bytes_read w1].
    destruct (0 <? bytes_read); [|done].
    destruct (bytes_read <? 0).
    + destruct (w_errno w1 =? EINTR); [apply IH|done].
    + destruct (scan_entries _ _); [apply IH|done].
Qed.

Lemma getdents_loop_stops_at_failed_read_witness :
  getdents_loop interrupted_listing 3 0 (fresh_world stdio_fds (scripted (42, 0) [] [] [] None)) =
  getdents_loop [ {| gd_ret := -1; gd_errno := EINTR; gd_names := [] |} ] 3 0
    (fresh_world stdio_fds (scripted (42, 0) [] [] [] None)).
Proof.
  apply (getdents_loop_stops_at_failed_read []
           {| gd_ret := -1; gd_errno := EINTR; gd_names := [] |}
           (drop 1 interrupted_listing) 3 0). cbn. lia.
Defined.

(** ** More of [ps_convert_exit_status] *)

Lemma forallb_seqZ (P : Z → bool) (lo n x : Z) :
  forallb P (seqZ lo n) = true → lo ≤ x < lo + n → P x = true.
Proof.
  intros Hall Hx. rewrite forallb_forall in Hall. apply Hall.
  apply list_elem_of_In, elem_of_seqZ. lia.
Qed.

Lemma exit_status_eq r a b c :
  out_has_exited r = a → out_is_exit_code r = b → out_code r = c →
  r = {| out_has_exited := a; out_is_exit_code := b; out_code := c |}.
Proof. destruct r. cbn. by intros -> -> ->. Qed.

(** [ps_convert_exit_status] decodes what [<sys/wait.h>] encodes, on both
    platforms: the status of an exit with [code] gives [code] back, that of
    a death by signal [sig], with or without a core dump, gives [sig], and
    the status of a stopped child is reported as not exited. *)
Theorem exit_status_round_trip (o : os) (code sig : Z) (core : bool) :
  0 ≤ code ≤ 255 → 1 ≤ sig ≤ 126 →
  ps_convert_exit_status o (W_EXITCODE code 0) =
    {| out_has_exited := true; out_is_exit_code := true; out_code := code |} ∧
  ps_convert_exit_status o
      (Z.lor (W_EXITCODE 0 sig) (if core then WCOREFLAG else 0)) =
    {| out_has_exited := true; out_is_exit_code := false; out_code := sig |} ∧
  ps_convert_exit_status o (W_STOPCODE code) =
    {| out_has_exited := false; out_is_exit_code := false; out_code := -1 |}.
Proof.
  intros Hcode Hsig.
  assert (Hc : forallb (λ c,
    let r := ps_convert_exit_status o (W_EXITCODE c 0) in
    let r' := ps_convert_exit_status o (W_STOPCODE c) in
    out_has_exited r && out_is_exit_code r && (out_code r =? c) &&
    negb (out_has_exited r') && negb (out_is_exit_code r') && (out_code r' =? -1))
    (seqZ 0 256) = true).
  { destruct o; vm_compute; reflexivity. }
  assert (Hs : forallb (λ s,
    let r := ps_convert_exit_status o
               (Z.lor (W_EXITCODE 0 s) (if core then WCOREFLAG else 0)) in
    out_has_exited r && negb (out_is_exit_code r) && (out_code r =? s))
    (seqZ 1 126) = true).
  { destruct o, core; vm_compute; reflexivity. }
  apply (forallb_seqZ _ _ _ code) in Hc; [|lia].
  apply (forallb_seqZ _ _ _ sig) in Hs; [|lia].
  cbv zeta in Hc, Hs.
  repeat (apply andb_true_iff in Hc as [Hc ?]).
  repeat (apply andb_true_iff in Hs as [Hs ?]).
  repeat match goal with
  | H : (_ =? _) = true |- _ => apply Z.eqb_eq in H
  | H : negb _ = true |- _ => apply negb_true_iff in H
  end.
  repeat split; by apply exit_status_eq.
Qed.

Lemma exit_status_round_trip_witness :
  ps_convert_exit_status Linux (W_EXITCODE 3 0) =
    {| out_has_exited := true; out_is_exit_code := true; out_code := 3 |} ∧
  ps_convert_exit_status Linux (Z.lor (W_EXITCODE 0 11) WCOREFLAG) =
    {| out_has_exited := true; out_is_exit_code := false; out_code := 11 |} ∧
  ps_convert_exit_status Linux (W_STOPCODE 3) =
    {| out_has_exited := false; out_is_exit_code := false; out_code := -1 |}.
Proof. apply (exit_status_round_trip Linux 3 11 true); lia. Defined.

Lemma WEXITSTATUS_range o s : 0 ≤ WEXITSTATUS o s ≤ 255.
Proof.
  assert (H : WEXITSTATUS o s = Z.shiftr s 8 `mod` 256).
  { destruct o; unfold WEXITSTATUS.
    - rewrite Z.shiftr_land. change (Z.shiftr 65280 8) with (Z.ones 8).
      by rewrite Z.land_ones by lia.
    - change 255 with (Z.ones 8). by rewrite Z.land_ones by lia. }
  rewrite H. pose proof (Z.mod_pos_bound (Z.shiftr s 8) 256 ltac:(lia)) as Hm.
  revert Hm. generalize (Z.shiftr s 8 `mod` 256). intros m Hm. lia.
Qed.

Lemma WTERMSIG_range o s : 0 ≤ WTERMSIG o s ≤ 127.
Proof.
  unfold WTERMSIG. change (Z.land s 127) with (Z.land s (Z.ones 7)).
  rewrite Z.land_ones by lia.
  pose proof (Z.mod_pos_bound s (2 ^ 7) ltac:(lia)) as Hm.
  revert Hm. generalize (s `mod` 2 ^ 7). intros m Hm. lia.
Qed.

(** For every [int] handed to [ps_convert_exit_status]: [*out_code] is -1
    exactly when [*out_has_exited] is false, an exit code lies in
    [0, 255], and a signal number in [1, 126]. *)
Theorem exit_status_code_range (o : os) (in_status : Z) :
  let r := ps_convert_exit_status o in_status in
  out_has_exited r = negb (out_code r =? -1) ∧
  (if out_is_exit_code r then out_has_exited r = true ∧ 0 ≤ out_code r ≤ 255
   else if out_has_exited r then 1 ≤ out_code r ≤ 126
   else out_code r = -1).
Proof.
  pose proof (WEXITSTATUS_range o in_status) as He.
  pose proof (WTERMSIG_range o in_status) as Ht.
  unfold ps_convert_exit_status.
  destruct (WIFEXITED o in_status) eqn:Hx; cbn.
  { split; [|split; [done|lia]]. symmetry. apply negb_true_iff, Z.eqb_neq. lia. }
  destruct (WIFSIGNALED o in_status) eqn:Hs; cbn; [|done].
  unfold WIFEXITED in Hx. apply Z.eqb_neq in Hx.
  assert (WTERMSIG o in_status ≠ 127).
  { intros E. unfold WIFSIGNALED, WTERMSIG in *. rewrite E in Hs. by destruct o. }
  split; [|lia]. symmetry. apply negb_true_iff, Z.eqb_neq. lia.
Qed.

(** ** More of [ps_spawn_process]: what every return leaves behind *)

Lemma only_calls_refl cs w : only_calls cs w w.
Proof. exists []. by rewrite app_nil_r. Qed.

Lemma only_calls_trans cs w1 w2 w3 :
  only_calls cs w1 w2 → only_calls cs w2 w3 → only_calls cs w1 w3.
Proof.
  intros (e1 & H1 & F1) (e2 & H2 & F2). exists (e1 ++ e2).
  split; [by rewrite H2, H1, app_assoc|by apply Forall_app].
Qed.

Lemma only_calls_mono cs cs' w w' :
  cs ⊆ cs' → only_calls cs w w' → only_calls cs' w w'.
Proof.
  intros Hsub (evs & H & F). exists evs. split; [done|].
  eapply Forall_impl; [done|]. intros ev Hev. by apply Hsub.
Qed.

Lemma only_calls_step cs c args ret w w' :
  c ∈ cs → w_trace w' = w_trace w ++ [{| ev_call := c; ev_args := args; ev_ret := ret |}] →
  only_calls cs w w'.
Proof. intros Hc H. eexists. split; [done|]. by apply Forall_singleton. Qed.

Lemma sys_close_effect fd w :
  let w' := (sys_close fd w).2 in
  w_fds w' = closefd fd (w_fds w) ∧ w_sigmask w' = w_sigmask w ∧
  w_env w' = w_env w ∧ w_written w' = w_written w ∧
  only_calls [SYS_close] w w'.
Proof.
  unfold sys_close, closefd, fd_get. destruct (fd <? 0); cbn.
  { repeat split; try done. (eapply only_calls_step; [|done]); compute_done. }
  destruct (w_fds w !! fd) eqn:Hfd; cbn.
  - repeat split; try done. (eapply only_calls_step; [|done]); compute_done.
  - repeat split; try done; [by rewrite delete_id|].
    (eapply only_calls_step; [|done]); compute_done.
Qed.

Section ParentFrame.

Variable B : build.

Lemma waitpid_loop_frame script pid err oe w :
  let r := waitpid_loop B script pid err oe w in
  w_fds r.2 = w_fds w ∧ w_sigmask r.2 = w_sigmask w ∧ w_env r.2 = w_env w ∧
  only_calls [SYS_waitpid] w r.2 ∧
  (r.1.2 = oe ∨
   (err = -1 ∧ ∃ code,
      r.1.2 = store_error oe (made_error PS_ERROR_KIND_FAILED_CHILD_WAITPID code 333))).
Proof.
  revert w. induction script as [|a script IH]; intros w.
  { cbn. repeat split; try done; [apply only_calls_refl|by left]. }
  cbn [waitpid_loop]. unfold sys_waitpid.
  set (w1 := if a.1 <? 0 then _ else _).
  assert (H1 : w_fds w1.2 = w_fds w ∧ w_sigmask w1.2 = w_sigmask w ∧
               w_env w1.2 = w_env w ∧ only_calls [SYS_waitpid] w w1.2 ∧ w1.1 = a.1).
  { subst w1. destruct (a.1 <? 0); cbn; repeat split; try done;
      ((eapply only_calls_step; [|done]); compute_done). }
  destruct w1 as [wp_result w1]. cbn [fst snd] in H1.
  destruct H1 as (Hf & Hs & He & Ho & _).
  destruct (0 <? wp_result); [cbn; repeat split; try done; by left|].
  destruct (Z.eqb_spec err (-1)) as [->|Hne];
    [|cbn; repeat split; try done; by left].
  destruct (w_errno w1 =? EINTR).
  - specialize (IH w1). cbv zeta in IH.
    destruct IH as (Hf' & Hs' & He' & Ho' & Hoe).
    repeat split; try congruence. by eapply only_calls_trans.
  - destruct (b_ndebug B); cbn; repeat split; try done; [|by left].
    right. split; [done|]. by eexists.
Qed.

Lemma error_cleanup_frame pid err fd0 fd1 oe w p oe' w' :
  error_cleanup B pid err (fd0, fd1) oe w = (Returned p, oe', w') →
  p = 0 ∧ w_fds w' = closefd fd1 (closefd fd0 (w_fds w)) ∧
  w_sigmask w' = w_sigmask w ∧ w_env w' = w_env w ∧
  only_calls [SYS_waitpid; SYS_close] w w' ∧
  (oe' = oe ∨
   (err = -1 ∧ 0 < pid ∧ ∃ code,
      oe' = store_error oe (made_error PS_ERROR_KIND_FAILED_CHILD_WAITPID code 333))).
Proof.
  unfold error_cleanup. cbn [fst snd].
  set (looped := if 0 <? pid then _ else _).
  assert (Hl : w_fds looped.2 = w_fds w ∧ w_sigmask looped.2 = w_sigmask w ∧
               w_env looped.2 = w_env w ∧ only_calls [SYS_waitpid; SYS_close] w looped.2 ∧
               match looped.1.1 with
               | None | Some Blocked | Some Trapped => True
               | _ => False
               end ∧
               (looped.1.2 = oe ∨
                (err = -1 ∧ 0 < pid ∧ ∃ code,
                  looped.1.2 = store_error oe
                    (made_error PS_ERROR_KIND_FAILED_CHILD_WAITPID code 333)))).
  { subst looped. destruct (Z.ltb_spec 0 pid).
    - pose proof (waitpid_loop_frame (o_waitpid (w_env w)) pid err oe w) as H'.
      cbv zeta in H'. destruct H' as (? & ? & ? & ? & Hoe).
      pose proof (waitpid_loop_fate B (o_waitpid (w_env w)) pid err oe w).
      repeat split; try done.
      + eapply only_calls_mono; [|done]. intros c Hc. apply list_elem_of_singleton in Hc as ->. compute_done.
      + destruct Hoe as [?|[? ?]]; [by left|by right].
    - cbn. repeat split; try done; [apply only_calls_refl|by left]. }
  destruct looped as [[ended oe1] w1]. cbn [fst snd] in Hl.
  destruct Hl as (Hf & Hs & He & Ho & Hfate & Hoe).
  destruct ended as [f|]; [by destruct f|].
  pose proof (sys_close_effect fd0 w1) as Hc0.
  set (w2 := if negb (fd0 =? -1) then (sys_close fd0 w1).2 else w1).
  assert (H2 : w_fds w2 = closefd fd0 (w_fds w1) ∧ w_sigmask w2 = w_sigmask w1 ∧
               w_env w2 = w_env w1 ∧ only_calls [SYS_waitpid; SYS_close] w1 w2).
  { subst w2. destruct (Z.eqb_spec fd0 (-1)) as [->|?]; cbn [negb].
    - repeat split; try done. apply only_calls_refl.
    - cbv zeta in Hc0. destruct Hc0 as (? & ? & ? & ? & ?). repeat split; try done.
      eapply only_calls_mono; [|done].
      intros c Hc. apply list_elem_of_singleton in Hc as ->. compute_done. }
  clearbody w2. clear Hc0. destruct H2 as (Hf2 & Hs2 & He2 & Ho2).
  pose proof (sys_close_effect fd1 w2) as Hc1.
  set (w3 := if negb (fd1 =? -1) then (sys_close fd1 w2).2 else w2).
  assert (H3 : w_fds w3 = closefd fd1 (w_fds w2) ∧ w_sigmask w3 = w_sigmask w2 ∧
               w_env w3 = w_env w2 ∧ only_calls [SYS_waitpid; SYS_close] w2 w3).
  { subst w3. destruct (Z.eqb_spec fd1 (-1)) as [->|?]; cbn [negb].
    - repeat split; try done. apply only_calls_refl.
    - cbv zeta in Hc1. destruct Hc1 as (? & ? & ? & ? & ?). repeat split; try done.
      eapply only_calls_mono; [|done].
      intros c Hc. apply list_elem_of_singleton in Hc as ->. compute_done. }
  clearbody w3. clear Hc1. destruct H3 as (Hf3 & Hs3 & He3 & Ho3).
  destruct (match oe1 with Some _ => _ | None => _ end); [|done].
  intros [= <- <- <-].
  split; [done|]. split; [congruence|]. split; [congruence|]. split; [congruence|].
  split; [|done].
  eapply only_calls_trans; [done|]. by eapply only_calls_trans.
Qed.

Lemma read_loop_frame script pid err fd0 fd1 oe w p oe' w' :
  read_loop B script pid err (fd0, fd1) oe w = (Returned p, oe', w') →
  w_sigmask w' = w_sigmask w ∧ w_env w' = w_env w ∧
  only_calls [SYS_read; SYS_waitpid; SYS_close] w w' ∧
  ((p = pid ∧ oe' = oe ∧ w_fds w' = closefd fd0 (w_fds w)) ∨
   (p = 0 ∧ w_fds w' = closefd fd1 (closefd fd0 (w_fds w)) ∧
    ∃ r, r ∈ script ∧ rd_res r = sizeof_ps_error ∧
         (oe' = store_error oe (rd_data r) ∨
          (err = -1 ∧ ∃ code,
             oe' = store_error oe
                     (made_error PS_ERROR_KIND_FAILED_CHILD_WAITPID code 333))))).
Proof.
  revert w. induction script as [|r script IH]; intros w; [done|].
  cbn [read_loop fst]. unfold sys_read.
  set (w1 := if rd_res r <? 0 then _ else _).
  assert (H1 : w_fds w1.2 = w_fds w ∧ w_sigmask w1.2 = w_sigmask w ∧
               w_env w1.2 = w_env w ∧
               only_calls [SYS_read; SYS_waitpid; SYS_close] w w1.2 ∧ w1.1 = rd_res r).
  { subst w1. destruct (rd_res r <? 0); cbn; repeat split; try done;
      ((eapply only_calls_step; [|done]); compute_done). }
  destruct w1 as [read_res w1]. cbn [fst snd] in H1.
  destruct H1 as (Hf & Hs & He & Ho & ->).
  destruct (Z.eqb_spec (rd_res r) 0) as [Hz|Hnz].
  - pose proof (sys_close_effect fd0 w1) as Hc. cbv zeta in Hc.
    destruct (sys_close fd0 w1) as [? w2]. cbn [snd] in Hc.
    destruct Hc as (Hf2 & Hs2 & He2 & _ & Ho2).
    intros [= <- <- <-]. split; [congruence|]. split; [congruence|]. split.
    + eapply only_calls_trans; [done|]. eapply only_calls_mono; [|done].
      intros c Hc. apply list_elem_of_singleton in Hc as ->. compute_done.
    + left. repeat split; congruence.
  - destruct (0 <? rd_res r).
    + destruct (Z.eqb_spec (rd_res r) sizeof_ps_error) as [Hsz|?]; [|done]. cbn [negb].
      intros Hrun. apply error_cleanup_frame in Hrun
        as (-> & Hf2 & Hs2 & He2 & Ho2 & Hoe).
      split; [congruence|]. split; [congruence|]. split.
      { eapply only_calls_trans; [done|]. eapply only_calls_mono; [|done].
        intros c Hc. apply elem_of_cons in Hc as [->|Hc]; [compute_done|].
        apply list_elem_of_singleton in Hc as ->. compute_done. }
      right. split; [done|]. split; [congruence|].
      exists r. split; [by left|]. split; [done|].
      destruct Hoe as [->|(-> & _ & code & ->)]; [by left|].
      right. split; [done|]. exists code. by destruct oe.
    + intros Hrun. apply IH in Hrun as (Hs2 & He2 & Ho2 & Hcase).
      split; [congruence|]. split; [congruence|]. split.
      { by eapply only_calls_trans. }
      destruct Hcase as [(-> & -> & Hf2)|(-> & Hf2 & r' & Hin & Hsz & Hoe)].
      * left. repeat split; congruence.
      * right. split; [done|]. split; [congruence|].
        exists r'. split; [by right|done].
Qed.

End ParentFrame.

(** All the mask helper does to the world. *)
Lemma block_signals_effect o old w :
  let '(r, saved, _, w') :=
    block_everything_but_something_went_seriously_wrong_signals o old w in
  let rc := o_pthread_sigmask (w_env w) (SIG_BLOCK o) in
  r = rc ∧ w_fds w' = w_fds w ∧ w_errno w' = w_errno w ∧ w_env w' = w_env w ∧
  w_trace w' = w_trace w ++
    [{| ev_call := SYS_pthread_sigmask; ev_args := [SIG_BLOCK o]; ev_ret := rc |}] ∧
  (if rc =? 0 then saved = w_sigmask w else w_sigmask w' = w_sigmask w).
Proof.
  unfold block_everything_but_something_went_seriously_wrong_signals,
    sigfillset, sigdelset.
  replace (valid_signal o SIGABRT) with true by (by destruct o).
  replace (valid_signal o (SIGBUS o)) with true by (by destruct o).
  replace (valid_signal o SIGFPE) with true by (by destruct o).
  replace (valid_signal o SIGILL) with true by (by destruct o).
  replace (valid_signal o SIGKILL) with true by (by destruct o).
  replace (valid_signal o SIGSEGV) with true by (by destruct o).
  replace (valid_signal o (SIGSTOP o)) with true by (by destruct o).
  replace (valid_signal o (SIGSYS o)) with true by (by destruct o).
  replace (valid_signal o SIGTRAP) with true by (by destruct o).
  cbv beta iota zeta. unfold sys_pthread_sigmask.
  destruct (o_pthread_sigmask (w_env w) (SIG_BLOCK o) =? 0) eqn:Hrc; cbn -[seqZ].
  - apply Z.eqb_eq in Hrc. by rewrite Hrc.
  - done.
Qed.

(** The pipe's two descriptors closed again, in either order, give the
    table back. *)
Lemma pipe_closed_again (t tk : gmap Z fd_entry) a b :
  t !! a = None → t !! b = None → 0 ≤ a → 0 ≤ b →
  (∀ fd, fd ≠ a → fd ≠ b → tk !! fd = t !! fd) →
  closefd b (closefd a tk) = t.
Proof.
  intros Ha Hb Ha0 Hb0 Hk. unfold closefd.
  rewrite (proj2 (Z.ltb_ge a 0)), (proj2 (Z.ltb_ge b 0)) by done.
  apply map_eq. intros fd.
  destruct (decide (fd = b)) as [->|Hnb]; [by rewrite lookup_delete_eq|].
  rewrite lookup_delete_ne by done.
  destruct (decide (fd = a)) as [->|Hna]; [by rewrite lookup_delete_eq|].
  rewrite lookup_delete_ne by done. by apply Hk.
Qed.

Lemma closefd_minus_one t : closefd (-1) t = t.
Proof. done. Qed.

Lemma lock_calls_app tr1 tr2 : lock_calls (tr1 ++ tr2) = lock_calls tr1 ++ lock_calls tr2.
Proof. unfold lock_calls, calls_of. by rewrite filter_app, fmap_app. Qed.

Lemma lock_calls_only (cs : list syscall) (evs : list event) :
  SYS_mutex_lock ∉ cs → SYS_mutex_unlock ∉ cs →
  Forall (λ ev, ev_call ev ∈ cs) evs → lock_calls evs = [].
Proof.
  intros Hl Hu. induction 1 as [|ev evs Hev _ IH]; [done|].
  unfold lock_calls, calls_of in *. rewrite filter_cons.
  rewrite decide_False; [done|].
  intros Hin. apply elem_of_cons in Hin as [E|Hin]; [by rewrite E in Hev|].
  apply list_elem_of_singleton in Hin. by rewrite Hin in Hev.
Qed.

Lemma follows_quietly_refl w : follows_quietly w w.
Proof. repeat split. apply only_calls_refl. Qed.

Lemma follows_quietly_trans w1 w2 w3 :
  follows_quietly w1 w2 → follows_quietly w2 w3 → follows_quietly w1 w3.
Proof.
  intros (? & ? & ?) (? & ? & ?). repeat split; try congruence.
  by eapply only_calls_trans.
Qed.

Lemma follows_quietly_step c args ret w w' :
  c ∈ quiet_calls → w_env w' = w_env w → w_sigmask w' = w_sigmask w →
  w_trace w' = w_trace w ++ [{| ev_call := c; ev_args := args; ev_ret := ret |}] →
  follows_quietly w w'.
Proof. intros. repeat split; try done. by eapply only_calls_step. Qed.

Lemma sys_pipe_effect fds0 w err fds w1 :
  sys_pipe fds0 w = (err, fds, w1) →
  follows_quietly w w1 ∧
  if c_true err then fds = fds0 ∧ w_fds w1 = w_fds w
  else w_errno w1 = w_errno w ∧
       w_fds w !! fds.1 = None ∧ w_fds w !! fds.2 = None ∧ 0 ≤ fds.1 ∧ 0 ≤ fds.2 ∧
       ∀ fd, fd ≠ fds.1 → fd ≠ fds.2 → w_fds w1 !! fd = w_fds w !! fd.
Proof.
  unfold sys_pipe.
  destruct (o_pipe _).
  { intros [= <- <- <-]. split; [|done].
    eapply follows_quietly_step; [|done..]. compute_done. }
  destruct (lowest_free (w_fds w) _ _) as [r|] eqn:Hr.
  2:{ intros [= <- <- <-]. split; [|done].
      eapply follows_quietly_step; [|done..]. compute_done. }
  destruct (lowest_free (<[r:=_]> _) _ _) as [wr|] eqn:Hwr.
  2:{ intros [= <- <- <-]. split; [|done].
      eapply follows_quietly_step; [|done..]. compute_done. }
  intros [= <- <- <-]. split.
  { eapply follows_quietly_step; [|done..]. compute_done. }
  cbn. apply lowest_free_spec in Hr as [Hr Hrn], Hwr as [Hwr Hwrn].
  assert (wr ≠ r) by (intros ->; by rewrite lookup_insert_eq in Hwrn).
  rewrite lookup_insert_ne in Hwrn by done.
  repeat split; try done; try lia.
  intros fd H1 H2. by rewrite !lookup_insert_ne.
Qed.

Lemma sys_fcntl_setfd_cloexec_effect fd w :
  let '(err, w1) := sys_fcntl_setfd_cloexec fd w in
  follows_quietly w w1 ∧
  (∀ fd', fd' ≠ fd → w_fds w1 !! fd' = w_fds w !! fd') ∧
  (c_true err = false → w_errno w1 = w_errno w).
Proof.
  unfold sys_fcntl_setfd_cloexec.
  destruct (o_fcntl_setfd _ _).
  { split; [|done]. eapply follows_quietly_step; [|done..]. compute_done. }
  destruct (fd_get _ _).
  - split; [eapply follows_quietly_step; [|done..]; compute_done|].
    split; [|done]. intros fd' Hne. cbn. by rewrite lookup_insert_ne.
  - split; [|done]. eapply follows_quietly_step; [|done..]. compute_done.
Qed.

Lemma sys_fork_effect w :
  let '(pid, w1) := sys_fork w in
  follows_quietly w w1 ∧ w_fds w1 = w_fds w ∧ pid = (o_fork (w_env w)).1 ∧
  (if pid <? 0 then w_errno w1 = (o_fork (w_env w)).2 else w_errno w1 = w_errno w).
Proof.
  unfold sys_fork. destruct ((o_fork (w_env w)).1 <? 0) eqn:Hneg; rewrite ?Hneg.
  - split; [|done]. eapply follows_quietly_step; [|done..]. compute_done.
  - split; [|done]. eapply follows_quietly_step; [|done..]. compute_done.
Qed.

Lemma sys_pthread_sigmask_restore o set w :
  let '(err, _, w1) := sys_pthread_sigmask o (SIG_SETMASK o) set w in
  err = o_pthread_sigmask (w_env w) (SIG_SETMASK o) ∧
  w_env w1 = w_env w ∧ only_calls quiet_calls w w1 ∧ w_fds w1 = w_fds w ∧
  w_errno w1 = w_errno w ∧
  (if err =? 0 then w_sigmask w1 = set ∖ {[SIGKILL; SIGSTOP o]}
   else w_sigmask w1 = w_sigmask w).
Proof.
  unfold sys_pthread_sigmask.
  destruct (o_pthread_sigmask _ _ =? 0) eqn:Hrc.
  - apply Z.eqb_eq in Hrc. rewrite Hrc. cbn.
    repeat split; try done.
    + (eapply only_calls_step; [|done]); compute_done.
    + by destruct o.
  - rewrite Hrc. repeat split; try done.
    (eapply only_calls_step; [|done]); compute_done.
Qed.

Lemma only_calls_quiet (cs : list syscall) w w' :
  cs ⊆ quiet_calls → only_calls cs w w' → only_calls quiet_calls w w'.
Proof. apply only_calls_mono. Qed.

Lemma cleanup_calls_quiet : [SYS_waitpid; SYS_close] ⊆ quiet_calls.
Proof.
  intros c Hc. apply elem_of_cons in Hc as [->|Hc]; [compute_done|].
  apply list_elem_of_singleton in Hc as ->. compute_done.
Qed.

Lemma read_calls_quiet : [SYS_read; SYS_waitpid; SYS_close] ⊆ quiet_calls.
Proof.
  intros c Hc. apply elem_of_cons in Hc as [->|Hc]; [compute_done|].
  apply elem_of_cons in Hc as [->|Hc]; [compute_done|].
  apply list_elem_of_singleton in Hc as ->. compute_done.
Qed.

Lemma lock_calls_quiet w w' :
  only_calls quiet_calls w w' →
  ∃ evs, w_trace w' = w_trace w ++ evs ∧ lock_calls evs = [].
Proof.
  intros (evs & H & F). exists evs. split; [done|].
  eapply lock_calls_only; [| |done]; compute_done.
Qed.

Section Paths.

Variable B : build.

(** Every jump to [error_cleanup] that comes back. *)
Lemma error_cleanup_tail pid err fd0 fd1 oe error wk p oe' w' :
  error_cleanup B pid err (fd0, fd1) (store_error oe error) wk = (Returned p, oe', w') →
  p = 0 ∧ w_fds w' = closefd fd1 (closefd fd0 (w_fds wk)) ∧
  follows_quietly wk w' ∧
  (oe' = store_error oe error ∨
   (err = -1 ∧ 0 < pid ∧ ∃ code,
      oe' = store_error oe (made_error PS_ERROR_KIND_FAILED_CHILD_WAITPID code 333))).
Proof.
  intros H. apply error_cleanup_frame in H as (-> & Hf & Hs & He & Ho & Hoe).
  split; [done|]. split; [done|]. split.
  { repeat split; try done. eapply only_calls_quiet; [apply cleanup_calls_quiet|done]. }
  destruct Hoe as [->|(-> & ? & code & ->)]; [by left|].
  right. repeat split; try done. exists code. by destruct oe.
Qed.

Lemma ps_spawn_process_return_paths config oe w p oe' w' :
  ps_spawn_process B config oe w = (Returned p, oe', w') →
  w_fds w' = w_fds w ∧ w_env w' = w_env w ∧
  ∃ evs path, w_trace w' = w_trace w ++ evs ∧
              returned_along B path oe w p oe' w' evs.
Proof.
  unfold ps_spawn_process. intros Hrun.
  (* pipe *)
  destruct (sys_pipe _ w) as [[err fds] w1] eqn:Hpipe.
  apply sys_pipe_effect in Hpipe as [Hq1 Hpipe].
  destruct fds as [r wr]. cbn [fst snd] in *.
  destruct (c_true err).
  { destruct Hpipe as [[= -> ->] Hf1].
    apply error_cleanup_tail in Hrun as (-> & Hf & Hq & Hoe).
    rewrite !closefd_minus_one in Hf.
    pose proof (follows_quietly_trans _ _ _ Hq1 Hq) as (He & Hs & Ho).
    split; [congruence|]. split; [done|].
    apply lock_calls_quiet in Ho as (evs & Ht & Hl).
    exists evs, Setup_failed. split; [done|]. split; [done|]. split; [done|].
    split; [done|]. eexists. left.
    destruct Hoe as [->|(_ & ? & _)]; [reflexivity|lia]. }
  destruct Hpipe as (Herr1 & Hr & Hwr & Hr0 & Hwr0 & Hfds1).
  (* fcntl on the read end *)
  pose proof (sys_fcntl_setfd_cloexec_effect r w1) as H2.
  destruct (sys_fcntl_setfd_cloexec r w1) as [err2 w2].
  destruct H2 as (Hq2 & Hfds2 & Herr2).
  pose proof (follows_quietly_trans _ _ _ Hq1 Hq2) as Hq02.
  assert (HI2 : ∀ fd, fd ≠ r → fd ≠ wr → w_fds w2 !! fd = w_fds w !! fd).
  { intros fd ? ?. rewrite Hfds2 by done. by apply Hfds1. }
  destruct (c_true err2).
  { apply error_cleanup_tail in Hrun as (-> & Hf & Hq & Hoe).
    pose proof (follows_quietly_trans _ _ _ Hq02 Hq) as (He & Hs & Ho).
    split; [rewrite Hf; by apply pipe_closed_again|]. split; [done|].
    apply lock_calls_quiet in Ho as (evs & Ht & Hl).
    exists evs, Setup_failed. split; [done|]. split; [done|]. split; [done|].
    split; [done|]. eexists. right. left.
    destruct Hoe as [->|(_ & ? & _)]; [reflexivity|lia]. }
  (* fcntl on the write end *)
  pose proof (sys_fcntl_setfd_cloexec_effect wr w2) as H3.
  destruct (sys_fcntl_setfd_cloexec wr w2) as [err3 w3].
  destruct H3 as (Hq3 & Hfds3 & Herr3).
  pose proof (follows_quietly_trans _ _ _ Hq02 Hq3) as Hq03.
  assert (HI3 : ∀ fd, fd ≠ r → fd ≠ wr → w_fds w3 !! fd = w_fds w !! fd).
  { intros fd ? ?. rewrite Hfds3 by done. by apply HI2. }
  destruct (c_true err3).
  { apply error_cleanup_tail in Hrun as (-> & Hf & Hq & Hoe).
    pose proof (follows_quietly_trans _ _ _ Hq03 Hq) as (He & Hs & Ho).
    split; [rewrite Hf; by apply pipe_closed_again|]. split; [done|].
    apply lock_calls_quiet in Ho as (evs & Ht & Hl).
    exists evs, Setup_failed. split; [done|]. split; [done|]. split; [done|].
    split; [done|]. eexists. right. right.
    destruct Hoe as [->|(_ & ? & _)]; [reflexivity|lia]. }
  specialize (Herr2 eq_refl). specialize (Herr3 eq_refl).
  destruct Hq03 as (He3 & Hs3 & Ho3).
  apply lock_calls_quiet in Ho3 as (evs3 & Ht3 & Hl3).
  (* lock *)
  unfold sys_mutex_lock in Hrun.
  set (w4 := log SYS_mutex_lock [] (o_mutex_lock (w_env w3)) w3) in Hrun.
  destruct (negb _); [done|].
  assert (He4 : w_env w4 = w_env w) by exact He3.
  assert (Hf4 : w_fds w4 = w_fds w3) by done.
  assert (Hs4 : w_sigmask w4 = w_sigmask w) by exact Hs3.
  assert (Herr4 : w_errno w4 = w_errno w) by (cbn; congruence).
  assert (Ht4 : ∃ evs, w_trace w4 = w_trace w ++ evs ∧ lock_calls evs = [SYS_mutex_lock]).
  { eexists. split; [cbn; rewrite Ht3, <- app_assoc; reflexivity|].
    by rewrite lock_calls_app, Hl3. }
  destruct Ht4 as (evs4 & Ht4 & Hl4).
  clearbody w4. clear Ht3 Hl3 evs3.
  (* the mask helper *)
  pose proof (block_signals_effect (b_os B) ∅ w4) as H5.
  destruct (block_everything_but_something_went_seriously_wrong_signals _ _ w4)
    as [[[err5 old] mask] w5].
  cbv zeta in H5. destruct H5 as (-> & Hf5 & Herr5 & He5 & Ht5 & Hm5).
  rewrite He4 in Hm5, Ht5, Hrun.
  set (rc := o_pthread_sigmask (w_env w) (SIG_BLOCK (b_os B))) in *.
  unfold c_true in Hrun at 1.
  destruct (Z.eqb_spec rc 0) as [Hrc|Hrc]; cbn [negb] in Hrun.
  2:{ apply error_cleanup_tail in Hrun as (-> & Hf & (He & Hs & Ho) & Hoe).
      split; [rewrite Hf, Hf5, Hf4; by apply pipe_closed_again|].
      split; [congruence|].
      apply lock_calls_quiet in Ho as (evs & Ht & Hl).
      eexists _, Block_failed. split.
      { rewrite Ht, Ht5, Ht4, <- !app_assoc. reflexivity. }
      split; [done|]. split.
      { rewrite !lock_calls_app, Hl4, Hl. reflexivity. }
      split; [congruence|]. split; [done|].
      destruct Hoe as [->|(_ & ? & _)]; [|lia].
      unfold MAKE_PS_ERROR_FROM_ERRNO, made_error. by rewrite Herr5, Herr4. }
  assert (HI5 : ∀ fd, fd ≠ r → fd ≠ wr → w_fds w5 !! fd = w_fds w !! fd).
  { intros fd ? ?. rewrite Hf5, Hf4. by apply HI3. }
  assert (Hold : old = w_sigmask w).
  { cbn in Hm5. congruence. }
  clear Hm5. subst old.
  assert (Htr5 : ∃ evs, w_trace w5 = w_trace w ++ evs ∧ lock_calls evs = [SYS_mutex_lock]).
  { eexists. split; [rewrite Ht5, Ht4, <- app_assoc; reflexivity|].
    by rewrite lock_calls_app, Hl4. }
  clear Ht5 Ht4 Hl4 evs4. destruct Htr5 as (evs5 & Ht5 & Hl5).
  assert (He5' : w_env w5 = w_env w) by congruence.
  (* fork *)
  pose proof (sys_fork_effect w5) as H6.
  destruct (sys_fork w5) as [pid w6].
  destruct H6 as ((He6 & Hs6 & Ho6) & Hf6 & Hpid & Herr6).
  rewrite He5' in Hpid, Herr6.
  destruct (Z.eqb_spec pid 0) as [->|Hpid0].
  { pose proof (setup_and_execve_child_fate B config wr
      (replicate (length (psc_fd_setup_instructions config)) 0) w6) as Hfate.
    destruct (setup_and_execve_child _ _ _ _ _) as [f w7].
    injection Hrun as -> _ _. done. }
  apply lock_calls_quiet in Ho6 as (evs6 & Ht6 & Hl6).
  (* restoring the mask *)
  pose proof (sys_pthread_sigmask_restore (b_os B) (w_sigmask w) w6) as H7.
  destruct (sys_pthread_sigmask (b_os B) (SIG_SETMASK (b_os B)) (w_sigmask w) w6) as [[err7 ?] w7].
  cbv beta iota zeta in H7. destruct H7 as (-> & He7 & Ho7 & Hf7 & Herr7 & Hm7).
  rewrite He6, He5' in Hm7, Hrun.
  set (rc7 := o_pthread_sigmask (w_env w) (SIG_SETMASK (b_os B))) in *.
  apply lock_calls_quiet in Ho7 as (evs7 & Ht7 & Hl7).
  assert (HI7 : ∀ fd, fd ≠ r → fd ≠ wr → w_fds w7 !! fd = w_fds w !! fd).
  { intros fd ? ?. rewrite Hf7, Hf6. by apply HI5. }
  assert (Henv7 : w_env w7 = w_env w) by congruence.
  assert (Htr7 : ∃ evs, w_trace w7 = w_trace w ++ evs ∧ lock_calls evs = [SYS_mutex_lock]).
  { eexists. split; [rewrite Ht7, Ht6, Ht5, <- !app_assoc; reflexivity|].
    by rewrite !lock_calls_app, Hl5, Hl6, Hl7. }
  clear Ht7 Ht6 Ht5 Hl5 Hl6 Hl7. destruct Htr7 as (evs & Ht7 & Hl7).
  unfold c_true in Hrun at 1.
  destruct (Z.eqb_spec rc7 0) as [Hrc7|Hrc7]; cbn [negb] in Hrun.
  2:{ apply error_cleanup_tail in Hrun as (-> & Hf & (He & Hs & Ho) & Hoe).
      split; [rewrite Hf; by apply pipe_closed_again|].
      split; [congruence|].
      apply lock_calls_quiet in Ho as (evs' & Ht & Hl).
      eexists _, Restore_failed. split.
      { rewrite Ht, Ht7, <- !app_assoc. reflexivity. }
      split; [done|]. split.
      { rewrite !lock_calls_app, Hl7, Hl. reflexivity. }
      split; [done|]. split; [done|].
      destruct Hoe as [->|(_ & _ & code & ->)]; eexists; [left|right]; reflexivity. }
  (* unlock *)
  unfold sys_mutex_unlock in Hrun.
  set (w8 := log SYS_mutex_unlock [] (o_mutex_unlock (w_env w7)) w7) in Hrun.
  destruct (Z.eqb_spec (o_mutex_unlock (w_env w7)) 0) as [Hul|Hul]; [|done].
  cbn [negb] in Hrun. rewrite Hul in Hrun.
  assert (He8 : w_env w8 = w_env w) by exact Henv7.
  assert (Hf8 : w_fds w8 = w_fds w7) by done.
  assert (Hs8 : w_sigmask w8 = w_sigmask w ∖ {[SIGKILL; SIGSTOP (b_os B)]}) by exact Hm7.
  assert (Herr8 : w_errno w8 = w_errno w7) by done.
  assert (Ht8 : ∃ evs, w_trace w8 = w_trace w ++ evs ∧
                       lock_calls evs = [SYS_mutex_lock; SYS_mutex_unlock]).
  { eexists. split; [cbn; rewrite Ht7, <- app_assoc; reflexivity|].
    by rewrite lock_calls_app, Hl7. }
  clearbody w8. clear Ht7 Hl7 evs. destruct Ht8 as (evs8 & Ht8 & Hl8).
  destruct (Z.ltb_spec 0 pid) as [Hpos|Hneg].
  - (* the child exists: read the pipe *)
    pose proof (sys_close_effect wr w8) as H9. cbv zeta in H9.
    destruct (sys_close wr w8) as [? w9]. cbn [snd] in H9.
    destruct H9 as (Hf9 & Hs9 & He9 & _ & Ho9).
    apply read_loop_frame in Hrun as (Hs & He & Ho & Hcase).
    assert (Ho8 : only_calls quiet_calls w8 w').
    { eapply only_calls_trans.
      - eapply only_calls_mono; [|exact Ho9].
        intros c Hc. apply list_elem_of_singleton in Hc as ->. compute_done.
      - eapply only_calls_quiet; [apply read_calls_quiet|done]. }
    apply lock_calls_quiet in Ho8 as (evs & Ht & Hl).
    assert (Hfinal : closefd r (closefd wr (w_fds w8)) = w_fds w).
    { rewrite Hf8. apply pipe_closed_again; try done. intros; by apply HI7. }
    split.
    { destruct Hcase as [(_ & _ & Hf)|(_ & Hf & _)]; rewrite Hf.
      - by rewrite Hf9.
      - by rewrite closefd_minus_one, Hf9. }
    split; [congruence|].
    assert (Hmask : w_sigmask w' = w_sigmask w ∖ {[SIGKILL; SIGSTOP (b_os B)]}).
    { rewrite Hs, Hs9. exact Hs8. }
    destruct Hcase as [(-> & -> & Hf)|(-> & Hf & a & Hin & Hsz & Hoe)].
    + eexists _, Spawned. split; [rewrite Ht, Ht8, <- app_assoc; reflexivity|].
      split; [done|]. split; [done|]. split; [done|].
      split; [by rewrite lock_calls_app, Hl8, Hl|]. by split.
    + eexists _, Child_reported. split; [rewrite Ht, Ht8, <- app_assoc; reflexivity|].
      split; [done|]. split; [by rewrite lock_calls_app, Hl8, Hl|].
      split; [done|]. split; [done|]. split; [lia|].
      exists a. rewrite He9, He8 in Hin.
      split; [done|]. split; [done|].
      by destruct Hoe as [?|(? & _)].
  - (* fork failed *)
    apply error_cleanup_tail in Hrun as (-> & Hf & (He & Hs & Ho) & Hoe).
    split; [rewrite Hf, Hf8; by apply pipe_closed_again|].
    split; [congruence|].
    apply lock_calls_quiet in Ho as (evs & Ht & Hl).
    eexists _, Fork_failed. split; [rewrite Ht, Ht8, <- app_assoc; reflexivity|].
    split; [done|]. split; [by rewrite lock_calls_app, Hl8, Hl|].
    split; [done|]. split; [split; [done|rewrite Hs; exact Hs8]|]. split; [lia|].
    destruct Hoe as [->|(_ & ? & _)]; [|lia].
    unfold MAKE_PS_ERROR_FROM_ERRNO, made_error.
    rewrite Herr8, Herr7. rewrite (proj2 (Z.ltb_lt pid 0)) in Herr6 by lia. by rewrite Herr6.
Qed.

End Paths.

Section ParentReturns.

Variable B : build.

(** Whenever [ps_spawn_process] returns, with a pid or with 0, the
    descriptor table is what it was at the call: both ends of the error
    pipe have been closed again and nothing else was touched. *)
Theorem ps_spawn_process_closes_its_pipe config oe w p oe' w' :
  ps_spawn_process B config oe w = (Returned p, oe', w') →
  w_fds w' = w_fds w.
Proof. intros H. by apply ps_spawn_process_return_paths in H as (? & _). Qed.

(** Whenever [ps_spawn_process] returns and restoring the mask did not
    fail, the thread's signal mask is what it was at the call ([SIGKILL] and
    [SIGSTOP] are never part of a thread's mask). *)
Theorem ps_spawn_process_restores_signal_mask config oe w p oe' w' :
  ps_spawn_process B config oe w = (Returned p, oe', w') →
  SIGKILL ∉ w_sigmask w → SIGSTOP (b_os B) ∉ w_sigmask w →
  o_pthread_sigmask (w_env w) (SIG_SETMASK (b_os B)) = 0 →
  w_sigmask w' = w_sigmask w.
Proof.
  intros H Hk Hs Hrc.
  apply ps_spawn_process_return_paths in H as (_ & _ & evs & path & _ & H).
  assert (Hdiff : w_sigmask w ∖ {[SIGKILL; SIGSTOP (b_os B)]} = w_sigmask w).
  { apply set_eq. intros x.
    rewrite elem_of_difference, elem_of_union, !elem_of_singleton.
    split; [by intros [? _]|]. intros Hx. split; [done|].
    intros [-> | ->]; done. }
  destruct path; cbn in H.
  - by destruct H as (_ & _ & ? & _).
  - by destruct H as (_ & _ & ? & _).
  - by destruct H as (_ & _ & _ & ? & _).
  - destruct H as (_ & _ & _ & (_ & ->) & _). done.
  - destruct H as (_ & _ & _ & (_ & ->) & _). done.
  - destruct H as (_ & _ & _ & _ & _ & (_ & ->)). done.
Qed.

(** What [ps_spawn_process] does to [g_fork_lock] before it returns: nothing
    (the pipe could not be set up), lock and unlock, or lock alone.  A pid is
    returned only after the unlock, and the lock is left locked exactly when
    it was taken and one of the two [pthread_sigmask] calls fails. *)
Theorem fork_lock_released_unless_sigmask_fails config oe w p oe' w' :
  ps_spawn_process B config oe w = (Returned p, oe', w') →
  ∃ evs, w_trace w' = w_trace w ++ evs ∧
    lock_calls evs ∈ [[]; [SYS_mutex_lock]; [SYS_mutex_lock; SYS_mutex_unlock]] ∧
    (0 < p → lock_calls evs = [SYS_mutex_lock; SYS_mutex_unlock]) ∧
    (lock_calls evs = [SYS_mutex_lock] ↔
     lock_calls evs ≠ [] ∧
     (o_pthread_sigmask (w_env w) (SIG_BLOCK (b_os B)) ≠ 0 ∨
      o_pthread_sigmask (w_env w) (SIG_SETMASK (b_os B)) ≠ 0)).
Proof.
  intros H.
  apply ps_spawn_process_return_paths in H as (_ & _ & evs & path & Ht & H).
  exists evs. split; [done|].
  destruct path; cbn in H.
  - destruct H as (-> & -> & _). split; [compute_done|]. split; [lia|].
    split; [done|]. by intros [? _].
  - destruct H as (-> & -> & _ & ? & _). split; [compute_done|]. split; [lia|].
    split; [|done]. intros _. split; [done|by left].
  - destruct H as (-> & -> & _ & ? & _). split; [compute_done|]. split; [lia|].
    split; [|done]. intros _. split; [done|by right].
  - destruct H as (-> & -> & ? & (? & _) & _). split; [compute_done|].
    split; [done|]. split; [done|]. intros (_ & [?|?]); done.
  - destruct H as (-> & -> & ? & (? & _) & _). split; [compute_done|].
    split; [done|]. split; [done|]. intros (_ & [?|?]); done.
  - destruct H as (_ & _ & _ & -> & ? & (? & _)). split; [compute_done|].
    split; [done|]. split; [done|]. intros (_ & [?|?]); done.
Qed.


(** When [fork] fails, a run that got as far as releasing the lock returns 0
    and reports the failure under [PS_ERROR_KIND_FCNTL], with the [errno]
    of [fork], from line 312. *)
Theorem fork_failure_is_reported_as_fcntl config oe w p oe' w' :
  ps_spawn_process B config oe w = (Returned p, oe', w') →
  (o_fork (w_env w)).1 < 0 →
  ∃ evs, w_trace w' = w_trace w ++ evs ∧ p = 0 ∧
    (lock_calls evs = [SYS_mutex_lock; SYS_mutex_unlock] →
     oe' = store_error oe
             (made_error PS_ERROR_KIND_FCNTL (o_fork (w_env w)).2 312)).
Proof.
  intros H Hfork.
  apply ps_spawn_process_return_paths in H as (_ & _ & evs & path & Ht & H).
  exists evs. split; [done|].
  destruct path; cbn in H.
  - destruct H as (-> & -> & _). done.
  - destruct H as (-> & -> & _). done.
  - destruct H as (-> & -> & _). done.
  - destruct H as (-> & _ & _ & _ & _ & ->). done.
  - destruct H as (_ & _ & _ & _ & ? & _). lia.
  - destruct H as (? & ? & _). lia.
Qed.

(** Where the record of a failed call comes from: the parent built it, with
    one of the kinds PIPE, FCNTL, SIGMASK_THREAD and FAILED_CHILD_WAITPID
    at one of seven lines of [spawner.c], or it is, unchanged, a record of
    full size that a [read] on the error pipe delivered.  The parent never
    reports [PS_ERROR_KIND_READ_FROM_CHILD] itself. *)
Theorem ps_spawn_process_error_origin config e0 w oe' w' :
  ps_spawn_process B config (Some e0) w = (Returned 0, oe', w') →
  ∃ e, oe' = Some e ∧
    ((pse_kind e ∈ [PS_ERROR_KIND_PIPE; PS_ERROR_KIND_FCNTL;
                    PS_ERROR_KIND_SIGMASK_THREAD;
                    PS_ERROR_KIND_FAILED_CHILD_WAITPID] ∧
      pse_file e = Some "spawner.c"%string ∧
      pse_line e ∈ [210; 219; 228; 244; 265; 312; 333] ∧
      pse_extra_info e = 0) ∨
     (∃ r, r ∈ o_read (w_env w) ∧ rd_res r = sizeof_ps_error ∧ e = rd_data r)).
Proof.
  intros H.
  apply ps_spawn_process_return_paths in H as (_ & _ & evs & path & Ht & H).
  destruct path; cbn in H.
  - destruct H as (_ & _ & _ & code & [->|[->| ->]]);
      (eexists; split; [done|]); left; cbn; repeat split; compute_done.
  - destruct H as (_ & _ & _ & _ & ->).
    (eexists; split; [done|]); left; cbn; repeat split; compute_done.
  - destruct H as (_ & _ & _ & _ & code & [->| ->]);
      (eexists; split; [done|]); left; cbn; repeat split; compute_done.
  - destruct H as (_ & _ & _ & _ & _ & ->).
    (eexists; split; [done|]); left; cbn; repeat split; compute_done.
  - destruct H as (_ & _ & _ & _ & _ & r & ? & ? & ->).
    eexists; split; [done|]. right. by exists r.
  - destruct H as (? & _). lia.
Qed.

End ParentReturns.

Lemma ps_spawn_process_closes_its_pipe_witness :
  let w := parent_of_missing in
  w_fds (ps_spawn_process linux_build (missing_program []) (Some ps_error_zero) w).2 =
  w_fds w.
Proof.
  intros w.
  apply (ps_spawn_process_closes_its_pipe linux_build (missing_program [])
           (Some ps_error_zero) w 0 (Some execve_enoent)).
  vm_compute. reflexivity.
Defined.

Lemma ps_spawn_process_restores_signal_mask_witness :
  let w := set_sigmask {[SIGTERM]} parent_of_true in
  w_sigmask (ps_spawn_process linux_build (run_true []) None w).2 = {[SIGTERM]}.
Proof.
  intros w.
  apply (ps_spawn_process_restores_signal_mask linux_build (run_true []) None w 42 None).
  - vm_compute. reflexivity.
  - vm_compute. intros H. discriminate H.
  - vm_compute. intros H. discriminate H.
  - reflexivity.
Defined.

Lemma fork_lock_released_unless_sigmask_fails_witness :
  let w := parent_without_mask in
  ∃ evs,
    w_trace (ps_spawn_process linux_build (run_true []) None w).2 = w_trace w ++ evs ∧
    lock_calls evs ∈ [[]; [SYS_mutex_lock]; [SYS_mutex_lock; SYS_mutex_unlock]] ∧
    (0 < 0 → lock_calls evs = [SYS_mutex_lock; SYS_mutex_unlock]) ∧
    (lock_calls evs = [SYS_mutex_lock] ↔
     lock_calls evs ≠ [] ∧
     (o_pthread_sigmask (w_env w) (SIG_BLOCK Linux) ≠ 0 ∨
      o_pthread_sigmask (w_env w) (SIG_SETMASK Linux) ≠ 0)).
Proof.
  intros w.
  apply (fork_lock_released_unless_sigmask_fails linux_build (run_true []) None w 0 None).
  vm_compute. reflexivity.
Defined.


Lemma fork_failure_is_reported_as_fcntl_witness :
  let w := parent_without_fork in
  ∃ evs,
    w_trace (ps_spawn_process linux_build (run_true []) (Some ps_error_zero) w).2 =
      w_trace w ++ evs ∧ 0 = 0 ∧
    (lock_calls evs = [SYS_mutex_lock; SYS_mutex_unlock] →
     Some (made_error PS_ERROR_KIND_FCNTL EAGAIN 312) =
     store_error (Some ps_error_zero)
       (made_error PS_ERROR_KIND_FCNTL (o_fork (w_env w)).2 312)).
Proof.
  intros w.
  apply (fork_failure_is_reported_as_fcntl linux_build (run_true [])
           (Some ps_error_zero) w 0
           (Some (made_error PS_ERROR_KIND_FCNTL EAGAIN 312))).
  - vm_compute. reflexivity.
  - vm_compute. reflexivity.
Defined.

Lemma ps_spawn_process_error_origin_witness :
  let w := parent_of_missing in
  ∃ e, Some execve_enoent = Some e ∧
    ((pse_kind e ∈ [PS_ERROR_KIND_PIPE; PS_ERROR_KIND_FCNTL;
                    PS_ERROR_KIND_SIGMASK_THREAD;
                    PS_ERROR_KIND_FAILED_CHILD_WAITPID] ∧
      pse_file e = Some "spawner.c"%string ∧
      pse_line e ∈ [210; 219; 228; 244; 265; 312; 333] ∧
      pse_extra_info e = 0) ∨
     (∃ r, r ∈ o_read (w_env w) ∧ rd_res r = sizeof_ps_error ∧ e = rd_data r)).
Proof.
  intros w.
  apply (ps_spawn_process_error_origin linux_build (missing_program [])
           ps_error_zero w (Some execve_enoent)
           (ps_spawn_process linux_build (missing_program []) (Some ps_error_zero) w).2).
  vm_compute. reflexivity.
Defined.

(** ** More of [setup_and_execve_child] *)

Lemma continues_refl cs w : continues cs w w.
Proof. repeat split. apply only_calls_refl. Qed.

Lemma continues_trans cs w1 w2 w3 :
  continues cs w1 w2 → continues cs w2 w3 → continues cs w1 w3.
Proof.
  intros (? & ? & ? & Hs1) (? & ? & ? & Hs2).
  repeat split; try congruence; [by eapply only_calls_trans|].
  intros Hn. rewrite Hs2, Hs1; done.
Qed.

Lemma continues_mono cs cs' w w' :
  cs ⊆ cs' → continues cs w w' → continues cs' w w'.
Proof.
  intros Hsub (? & ? & ? & Hs). repeat split; try done.
  - by eapply only_calls_mono.
  - intros Hn. apply Hs. intros Hin. by apply Hn, Hsub.
Qed.

Lemma continues_call cs c args ret w w' :
  c ∈ cs → w_env w' = w_env w → w_written w' = w_written w →
  (c ≠ SYS_sigprocmask → w_sigmask w' = w_sigmask w) →
  w_trace w' = w_trace w ++ [{| ev_call := c; ev_args := args; ev_ret := ret |}] →
  continues cs w w'.
Proof.
  intros Hc ? ? Hs ?. repeat split; try done; [by eapply only_calls_step|].
  intros Hn. apply Hs. by intros ->.
Qed.

Ltac one_call :=
  eapply continues_call; [apply list_elem_of_singleton; reflexivity|done..].

Lemma sys_signal_dfl_continues signo w :
  continues [SYS_signal] w (sys_signal_dfl signo w).2.
Proof. unfold sys_signal_dfl. destruct (o_signal _ _); one_call. Qed.

Lemma sys_sigprocmask_set_continues set w :
  continues [SYS_sigprocmask] w (sys_sigprocmask_set set w).2.
Proof. unfold sys_sigprocmask_set. destruct (o_sigprocmask _); one_call. Qed.

Lemma sys_setsid_continues w : continues [SYS_setsid] w (sys_setsid w).2.
Proof. unfold sys_setsid. destruct (_ <? 0); one_call. Qed.

Lemma sys_fcntl_dupfd_cloexec_continues fd lowest w :
  continues [SYS_fcntl_dupfd_cloexec] w (sys_fcntl_dupfd_cloexec fd lowest w).2.
Proof.
  unfold sys_fcntl_dupfd_cloexec. destruct (fd_get _ _); [|one_call].
  destruct (_ || _); [one_call|]. destruct (lowest_free _ _ _); one_call.
Qed.

Lemma sys_dup2_continues oldfd newfd w :
  continues [SYS_dup2] w (sys_dup2 oldfd newfd w).2.
Proof.
  unfold sys_dup2. destruct (o_dup2 _ _); [one_call|].
  destruct (fd_get _ _); [|one_call].
  destruct (_ || _); [one_call|]. destruct (_ =? _); one_call.
Qed.

Lemma sys_close_continues fd w : continues [SYS_close] w (sys_close fd w).2.
Proof. unfold sys_close. destruct (fd_get _ _); one_call. Qed.

Lemma sys_close_range_continues first last w :
  continues [SYS_close_range] w (sys_close_range first last w).2.
Proof.
  unfold sys_close_range. destruct (o_close_range _); [one_call|].
  destruct (_ <? _); one_call.
Qed.

Lemma sys_open_dir_continues w : continues [SYS_open] w (sys_open_dir w).2.
Proof.
  unfold sys_open_dir. destruct (o_open _); [one_call|].
  destruct (lowest_free _ _ _); one_call.
Qed.

Lemma sys_getdents_continues dir_fd r w :
  continues [SYS_getdents] w (sys_getdents dir_fd r w).2.
Proof. unfold sys_getdents. destruct (_ <? 0); one_call. Qed.

Lemma sys_getdtablesize_continues w :
  continues [SYS_getdtablesize] w (sys_getdtablesize w).2.
Proof. unfold sys_getdtablesize. one_call. Qed.

Lemma sys_chdir_continues w : continues [SYS_chdir] w (sys_chdir w).2.
Proof. unfold sys_chdir. destruct (o_chdir _); one_call. Qed.

Lemma sys_execve_continues w : continues [SYS_execve] w (sys_execve w).2.
Proof. unfold sys_execve. destruct (o_execve _); one_call. Qed.

Lemma continues_among cs cs' w w' :
  continues cs w w' → cs ⊆ cs' → continues cs' w w'.
Proof. intros. by eapply continues_mono. Qed.

(** [cs ⊆ cs'] for lists written out. *)
Ltac among := compute_done.

Lemma block_keeps_mono cs cs' {A : Type} (m : child A) :
  cs ⊆ cs' → block_keeps cs m → block_keeps cs' m.
Proof.
  intros Hsub Hm w. destruct (Hm w) as [Hc Hs]. split; [|done].
  by eapply continues_mono.
Qed.

Lemma block_keeps_bind cs {A C : Type} (m : child A) (k : A → child C) :
  block_keeps cs m → (∀ a, block_keeps cs (k a)) → block_keeps cs (m ≫= k).
Proof.
  intros Hm Hk w. unfold mbind, child_bind, bind.
  specialize (Hm w). destruct (m w) as [[a|e|f] w1]; cbn [fst snd] in *; [|done..].
  destruct Hm as [Hc _]. specialize (Hk a w1).
  destruct (k a w1) as [s w2]; cbn [fst snd] in *.
  destruct Hk as [Hc2 Hs]. split; [by eapply continues_trans|done].
Qed.

Lemma getdents_loop_continues script dir_fd highest w :
  continues [SYS_getdents] w (getdents_loop script dir_fd highest w).2.
Proof.
  revert highest w. induction script as [|r script IH]; intros highest w.
  { cbn [getdents_loop].
    pose proof (sys_getdents_continues dir_fd
                  {| gd_ret := 0; gd_errno := 0; gd_names := [] |} w) as H1.
    by destruct (sys_getdents _ _ w). }
  cbn [getdents_loop].
  pose proof (sys_getdents_continues dir_fd r w) as H1.
  destruct (sys_getdents dir_fd r w) as [bytes_read w1]. cbn [snd] in H1.
  destruct (0 <? bytes_read); [|done].
  destruct (bytes_read <? 0).
  { destruct (_ =? EINTR); [|done]. eapply continues_trans; [done|apply IH]. }
  destruct (scan_entries _ _); [|done].
  eapply continues_trans; [done|apply IH].
Qed.

Lemma highest_possibly_open_fd_dir_syscall_continues fd_dir w :
  continues enumerator_calls w (highest_possibly_open_fd_dir_syscall fd_dir w).2.
Proof.
  unfold highest_possibly_open_fd_dir_syscall.
  pose proof (sys_open_dir_continues w) as H1.
  destruct (sys_open_dir w) as [dir_fd w1]. cbn [snd] in H1.
  assert (H1' : continues enumerator_calls w w1)
    by (eapply continues_among; [done|among]).
  destruct (dir_fd <? 0); [done|].
  pose proof (getdents_loop_continues (o_getdents (w_env w1)) dir_fd 0 w1) as H2.
  destruct (getdents_loop _ dir_fd 0 w1) as [[h|] w2]; cbn [snd] in H2.
  - pose proof (sys_close_continues dir_fd w2) as H3.
    destruct (sys_close dir_fd w2) as [? w3]. cbn [snd] in *.
    eapply continues_trans; [done|].
    eapply continues_trans; eapply continues_among; [done|among|done|among].
  - eapply continues_trans; [done|]. eapply continues_among; [done|among].
Qed.

Lemma highest_possibly_open_fd_continues o w :
  continues enumerator_calls w (highest_possibly_open_fd o w).2.
Proof.
  unfold highest_possibly_open_fd.
  match goal with |- context [highest_possibly_open_fd_dir_syscall ?d w] =>
    pose proof (highest_possibly_open_fd_dir_syscall_continues d w) as H1;
    destruct (highest_possibly_open_fd_dir_syscall d w) as [[h|] w1] end;
    cbn [snd] in H1; [|done].
  destruct (h <? 0); [|done].
  eapply continues_trans; [done|].
  eapply continues_among; [apply sys_getdtablesize_continues|among].
Qed.

(** [highest_possibly_open_fd_dir_syscall] itself never asks for the size
    of the table. *)
Lemma highest_possibly_open_fd_dir_syscall_calls fd_dir w :
  continues [SYS_open; SYS_getdents; SYS_close] w
    (highest_possibly_open_fd_dir_syscall fd_dir w).2.
Proof.
  unfold highest_possibly_open_fd_dir_syscall.
  pose proof (sys_open_dir_continues w) as H1.
  destruct (sys_open_dir w) as [dir_fd w1]. cbn [snd] in H1.
  assert (H1' : continues [SYS_open; SYS_getdents; SYS_close] w w1)
    by (eapply continues_among; [done|among]).
  destruct (dir_fd <? 0); [done|].
  pose proof (getdents_loop_continues (o_getdents (w_env w1)) dir_fd 0 w1) as H2.
  destruct (getdents_loop _ dir_fd 0 w1) as [[h|] w2]; cbn [snd] in H2.
  - pose proof (sys_close_continues dir_fd w2) as H3.
    destruct (sys_close dir_fd w2) as [? w3]. cbn [snd] in *.
    eapply continues_trans; [done|].
    eapply continues_trans; eapply continues_among; [done|among|done|among].
  - eapply continues_trans; [done|]. eapply continues_among; [done|among].
Qed.

Lemma calls_of_others (cs cs' : list syscall) (evs : list event) :
  (∀ c, c ∈ cs → c ∉ cs') →
  Forall (λ ev, ev_call ev ∈ cs') evs → calls_of cs evs = [].
Proof.
  intros Hdisj. induction 1 as [|ev evs Hev _ IH]; [done|].
  unfold calls_of in *. rewrite filter_cons, IH.
  rewrite decide_False; [done|]. intros Hin. by apply (Hdisj _ Hin).
Qed.

(** [highest_possibly_open_fd] answers [getdtablesize()], which it then
    calls right after the failed [open], exactly when the directory could
    not be opened.  When it could, [getdtablesize()] is not called and the
    answer is that of the scan, with the scan's calls and no others: the
    maximum of 0 and the numbers of the names read, also after a read that
    failed, so that a read error never leads to the fallback.  Either way
    the descriptor table is left as it was. *)
Theorem highest_possibly_open_fd_fallback o w hi w' :
  highest_possibly_open_fd o w = (Some hi, w') →
  w_fds w' = w_fds w ∧
  ∃ evs, w_trace w' = w_trace w ++ evs ∧
    if (sys_open_dir w).1 <? 0 then
      hi = o_nofile (w_env w) ∧
      ev_call <$> evs = [SYS_open; SYS_getdtablesize]
    else
      highest_possibly_open_fd_dir_syscall
        (match o with Darwin => "/dev/fd" | Linux => "/proc/self/fd" end) w =
        (Some hi, w') ∧
      calls_of [SYS_getdtablesize] evs = [] ∧
      0 ≤ hi ∧
      (∀ d_name n, d_name ∈ names_read (o_getdents (w_env w)) →
         not_dot_entry d_name = true → positive_int_parse d_name = Some n →
         n ≤ hi) ∧
      (hi = 0 ∨
       ∃ d_name, d_name ∈ names_read (o_getdents (w_env w)) ∧
                 not_dot_entry d_name = true ∧
                 positive_int_parse d_name = Some hi).
Proof.
  intros Hrun.
  split; [by apply highest_possibly_open_fd_fds in Hrun as [? _]|].
  unfold highest_possibly_open_fd in Hrun.
  set (fd_dir := match o with Linux => _ | Darwin => _ end) in *.
  pose proof (highest_possibly_open_fd_dir_syscall_calls fd_dir w)
    as (_ & _ & (evs & Htrace & Hcalls) & _).
  pose proof (highest_possibly_open_fd_dir_syscall_sentinel fd_dir w) as Hs.
  destruct (highest_possibly_open_fd_dir_syscall fd_dir w) as [[h|] w1] eqn:Hdir;
    [|done].
  cbn [fst snd] in *. specialize (Hs h eq_refl).
  unfold highest_possibly_open_fd_dir_syscall in Hdir.
  pose proof (sys_open_dir_env w) as Henv.
  destruct (sys_open_dir w) as [dir_fd w0] eqn:Hopen. cbn [fst snd] in *.
  destruct (Z.ltb_spec dir_fd 0) as [Hneg|Hpos].
  - injection Hdir as <- <-. cbn in Hrun. injection Hrun as <- <-.
    clear evs Htrace Hcalls. unfold sys_open_dir in Hopen.
    destruct (o_open (w_env w)) as [e|].
    { injection Hopen as <- <-. eexists. cbn.
      split; [by rewrite <- app_assoc|]. done. }
    destruct (lowest_free _ _ _) as [n|] eqn:Hfree.
    { injection Hopen as <- <-. apply lowest_free_spec in Hfree. lia. }
    injection Hopen as <- <-. eexists. cbn.
    split; [by rewrite <- app_assoc|]. done.
  - destruct (Z.ltb_spec h 0) as [Hh|Hh]; [apply Hs in Hh; lia|].
    injection Hrun as <- <-.
    exists evs. split; [done|]. split; [done|]. split.
    { eapply calls_of_others; [|done]. intros c Hc.
      apply list_elem_of_singleton in Hc as ->. compute_done. }
    pose proof (getdents_loop_maximum (o_getdents (w_env w)) dir_fd 0 w0) as Hmax.
    rewrite Henv in Hdir.
    destruct (getdents_loop _ _ _ _) as [[h1|] w2]; [|done].
    destruct (sys_close dir_fd w2). injection Hdir as -> _.
    by apply Hmax.
Qed.

(** Three runs: the directory cannot be opened; the first read fails; the
    directory lists a name that is no number. *)
Lemma highest_possibly_open_fd_fallback_witness :
  (let w := fresh_world stdio_fds
              (without_directory (scripted (0, 0) [] [] listing_with_readme None)) in
   (highest_possibly_open_fd Linux w).1 = Some 1024 ∧
   ∃ evs, w_trace (highest_possibly_open_fd Linux w).2 = w_trace w ++ evs ∧
          ev_call <$> evs = [SYS_open; SYS_getdtablesize]) ∧
  (let w := fresh_world stdio_fds (scripted (0, 0) [] [] interrupted_listing None) in
   (highest_possibly_open_fd Linux w).1 = Some 0 ∧
   ∃ evs, w_trace (highest_possibly_open_fd Linux w).2 = w_trace w ++ evs ∧
          calls_of [SYS_getdtablesize] evs = []) ∧
  (let w := fresh_world stdio_fds (scripted (0, 0) [] [] listing_with_readme None) in
   (highest_possibly_open_fd Linux w).1 = Some 7 ∧
   ∃ evs, w_trace (highest_possibly_open_fd Linux w).2 = w_trace w ++ evs ∧
          calls_of [SYS_getdtablesize] evs = []).
Proof.
  split; [|split].
  - intros w. split; [vm_compute; reflexivity|].
    destruct (highest_possibly_open_fd_fallback Linux w 1024
                (highest_possibly_open_fd Linux w).2) as (_ & evs & Ht & H);
      [vm_compute; reflexivity|].
    exists evs. split; [exact Ht|]. exact (proj2 H).
  - intros w. split; [vm_compute; reflexivity|].
    destruct (highest_possibly_open_fd_fallback Linux w 0
                (highest_possibly_open_fd Linux w).2) as (_ & evs & Ht & H);
      [vm_compute; reflexivity|].
    exists evs. split; [exact Ht|]. exact (proj1 (proj2 H)).
  - intros w. split; [vm_compute; reflexivity|].
    destruct (highest_possibly_open_fd_fallback Linux w 7
                (highest_possibly_open_fd Linux w).2) as (_ & evs & Ht & H);
      [vm_compute; reflexivity|].
    exists evs. split; [exact Ht|]. exact (proj1 (proj2 H)).
Defined.

Lemma close_loop_continues n i error_pipe w :
  continues [SYS_close] w (close_loop n i error_pipe w).
Proof.
  revert i w. induction n as [|n IH]; intros i w; [apply continues_refl|].
  cbn [close_loop]. eapply continues_trans; [|apply IH].
  destruct (negb _); [apply sys_close_continues|apply continues_refl].
Qed.

Section ChildFrame.

Variable B : build.

Lemma reset_signal_handlers_loop_keeps n signo :
  block_keeps [SYS_signal] (reset_signal_handlers_loop B n signo).
Proof.
  revert signo. induction n as [|n IH]; intros signo w.
  { split; [apply continues_refl|done]. }
  cbn [reset_signal_handlers_loop].
  destruct (_ || _); [apply IH|].
  pose proof (sys_signal_dfl_continues signo w) as H1.
  destruct (sys_signal_dfl signo w) as [is_err w1]. cbn [snd] in H1.
  destruct (negb is_err).
  { destruct (IH (signo + 1) w1) as [Hc Hs]. split; [by eapply continues_trans|done]. }
  destruct (_ =? EINVAL); [done|].
  split; [done|]. cbn. repeat split. compute_done.
Qed.

Lemma reset_signal_mask_keeps : block_keeps [SYS_sigprocmask] reset_signal_mask.
Proof.
  intros w. unfold reset_signal_mask. cbn [sigemptyset].
  pose proof (sys_sigprocmask_set_continues ∅ w) as H1.
  destruct (sys_sigprocmask_set ∅ w) as [r w1]. cbn [snd] in H1.
  destruct (c_true _); [|done].
  split; [done|]. cbn. repeat split. compute_done.
Qed.

Lemma new_session_keeps config : block_keeps [SYS_setsid] (new_session config).
Proof.
  intros w. unfold new_session.
  destruct (psc_new_session config); [|split; [apply continues_refl|done]].
  pose proof (sys_setsid_continues w) as H1.
  destruct (sys_setsid w) as [r w1]. cbn [snd] in H1.
  destruct (c_true _); [|done].
  split; [done|]. cbn. repeat split. compute_done.
Qed.

Lemma duplicate_up_loop_keeps instructions child_fd count scratch :
  block_keeps [SYS_fcntl_dupfd_cloexec]
    (duplicate_up_loop instructions child_fd count scratch).
Proof.
  revert child_fd scratch.
  induction instructions as [|setup rest IH]; intros child_fd scratch w.
  { split; [apply continues_refl|done]. }
  cbn [duplicate_up_loop].
  destruct (psfd_kind setup); [|apply IH|split; [apply continues_refl|done]].
  pose proof (sys_fcntl_dupfd_cloexec_continues (psfd_parent_fd setup) count w) as H1.
  destruct (sys_fcntl_dupfd_cloexec _ _ w) as [dup w1]. cbn [snd] in H1.
  destruct (dup =? -1).
  { split; [done|]. cbn. repeat split. compute_done. }
  match goal with |- context [duplicate_up_loop rest ?k count ?s w1] =>
    destruct (IH k s w1) as [Hc Hs] end.
  split; [by eapply continues_trans|done].
Qed.

Lemma install_loop_keeps instructions child_fd scratch :
  block_keeps [SYS_dup2; SYS_close] (install_loop instructions child_fd scratch).
Proof.
  revert child_fd.
  induction instructions as [|setup rest IH]; intros child_fd w.
  { split; [apply continues_refl|done]. }
  cbn [install_loop].
  destruct (psfd_kind setup); [| |split; [apply continues_refl|done]].
  - destruct (negb _); [split; [apply continues_refl|done]|].
    pose proof (sys_dup2_continues (default 0 (scratch !! child_fd))
                  (Z.of_nat child_fd) w) as H1.
    destruct (sys_dup2 _ _ w) as [err w1]. cbn [snd] in H1.
    assert (H1' : continues [SYS_dup2; SYS_close] w w1)
      by (eapply continues_among; [done|among]).
    destruct (err =? -1).
    { split; [done|]. cbn. repeat split. compute_done. }
    destruct (IH (S child_fd) w1) as [Hc Hs].
    split; [by eapply continues_trans|done].
  - destruct (negb _); [split; [apply continues_refl|done]|].
    pose proof (sys_close_continues (Z.of_nat child_fd) w) as H1.
    destruct (sys_close _ w) as [err w1]. cbn [snd] in H1.
    assert (H1' : continues [SYS_dup2; SYS_close] w w1)
      by (eapply continues_among; [done|among]).
    destruct (IH (S child_fd) w1) as [Hc Hs].
    split; [by eapply continues_trans|done].
Qed.

Lemma close_other_fds_keeps config error_pipe :
  block_keeps closing_calls (close_other_fds B config error_pipe).
Proof.
  intros w. unfold close_other_fds.
  destruct (psc_close_other_fds config); [|split; [apply continues_refl|done]].
  set (count := psc_fd_setup_count config).
  set (w0 := set_errno _ w).
  assert (H0 : continues closing_calls w w0).
  { repeat split. exists []. split; [by rewrite app_nil_r|constructor]. }
  assert (Hcr : continues closing_calls w
    (if b_has_close_range B then
       if count <? error_pipe then
         let '(e1, w) := sys_close_range count (error_pipe - 1) w0 in
         let '(e2, w) := sys_close_range (error_pipe + 1) UINT_MAX w in
         (Z.lor e1 e2, w)
       else
         sys_close_range (if count =? error_pipe then error_pipe + 1 else count)
           UINT_MAX w0
     else (-1, w0)).2).
  { destruct (b_has_close_range B); [|done].
    destruct (count <? error_pipe).
    - pose proof (sys_close_range_continues count (error_pipe - 1) w0) as H1.
      destruct (sys_close_range count _ w0) as [e1 w1]. cbn [snd] in H1.
      pose proof (sys_close_range_continues (error_pipe + 1) UINT_MAX w1) as H2.
      destruct (sys_close_range _ _ w1) as [e2 w2]. cbn [snd] in *.
      eapply continues_trans; [done|].
      eapply continues_trans; eapply continues_among; [done|among|done|among].
    - eapply continues_trans; [done|].
      eapply continues_among; [apply sys_close_range_continues|among]. }
  destruct (if b_has_close_range B then _ else _) as [cre w1]. cbn [snd] in Hcr.
  destruct (c_true cre); [|done].
  pose proof (highest_possibly_open_fd_continues (b_os B) w1) as H2.
  destruct (highest_possibly_open_fd _ w1) as [[hi|] w2]; cbn [fst snd] in *.
  - split; [|done]. eapply continues_trans; [done|].
    eapply continues_trans; eapply continues_among;
      [done|among|apply close_loop_continues|among].
  - split; [|done]. eapply continues_trans; [done|].
    eapply continues_among; [done|among].
Qed.

Lemma change_directory_keeps config : block_keeps [SYS_chdir] (change_directory config).
Proof.
  intros w. unfold change_directory.
  destruct (psc_cwd config); [|split; [apply continues_refl|done]].
  pose proof (sys_chdir_continues w) as H1.
  destruct (sys_chdir w) as [r w1]. cbn [snd] in H1.
  destruct (c_true _); [|done].
  split; [done|]. cbn. repeat split. compute_done.
Qed.

Lemma exec_target_keeps : block_keeps [SYS_execve] exec_target.
Proof.
  intros w. unfold exec_target.
  pose proof (sys_execve_continues w) as H1.
  destruct (sys_execve w) as [[err|] w1]; cbn [snd] in H1; [|done].
  destruct (c_true _); [|done].
  split; [done|]. cbn. repeat split. compute_done.
Qed.

(** The blocks after the signal mask has been reset. *)
Lemma late_blocks_keep config error_pipe scratch :
  block_keeps late_calls
    (_ ← new_session config;
     scratch ← duplicate_up_loop (psc_fd_setup_instructions config) 0
                 (psc_fd_setup_count config) scratch;
     _ ← install_loop (psc_fd_setup_instructions config) 0 scratch;
     _ ← close_other_fds B config error_pipe;
     _ ← change_directory config;
     exec_target).
Proof.
  apply block_keeps_bind;
    [eapply block_keeps_mono; [|apply new_session_keeps]; among|intros _].
  apply block_keeps_bind;
    [eapply block_keeps_mono; [|apply duplicate_up_loop_keeps]; among|intros scratch'].
  apply block_keeps_bind;
    [eapply block_keeps_mono; [|apply install_loop_keeps]; among|intros _].
  apply block_keeps_bind;
    [eapply block_keeps_mono; [|apply close_other_fds_keeps]; among|intros _].
  apply block_keeps_bind;
    [eapply block_keeps_mono; [|apply change_directory_keeps]; among|intros _].
  eapply block_keeps_mono; [|apply exec_target_keeps]. among.
Qed.

Lemma child_setup_keeps config error_pipe scratch :
  block_keeps setup_calls (child_setup B config error_pipe scratch).
Proof.
  unfold child_setup.
  apply block_keeps_bind;
    [eapply block_keeps_mono; [|apply reset_signal_handlers_loop_keeps]; among|intros _].
  apply block_keeps_bind;
    [eapply block_keeps_mono; [|apply reset_signal_mask_keeps]; among|intros _].
  eapply block_keeps_mono; [|apply late_blocks_keep]. among.
Qed.

End ChildFrame.

(** The label [write_fail]: one write, one close, and the exit. *)
Lemma write_fail_effect error_pipe e w :
  let '(f, w') := write_fail error_pipe e w in
  f = Exited 253 ∧ w_env w' = w_env w ∧ w_sigmask w' = w_sigmask w ∧
  only_calls exit_calls w w' ∧
  w_fds w' = closefd error_pipe (w_fds w) ∧
  w_written w' = match fd_get (w_fds w) error_pipe with
                 | Some en => w_written w ++ [(fe_ofd en, e)]
                 | None => w_written w
                 end.
Proof.
  unfold write_fail, sys_write.
  destruct (fd_get (w_fds w) error_pipe) as [en|] eqn:Hen.
  - set (w1 := add_written _ _ _).
    pose proof (sys_close_effect error_pipe w1) as H. cbv zeta in H.
    destruct (sys_close error_pipe w1) as [? w2]. cbn [snd] in H.
    destruct H as (Hf & Hs & He & Hw & (evs & Ht & Hall)).
    split; [done|]. repeat split; try done.
    exists ([{| ev_call := SYS_write; ev_args := [error_pipe]; ev_ret := sizeof_ps_error |}]
              ++ evs ++ [{| ev_call := SYS_exit; ev_args := [253]; ev_ret := 0 |}]).
    split; [cbn [log w_trace]; rewrite Ht; cbn; by rewrite <- !app_assoc|].
    apply Forall_app. split; [apply Forall_singleton; compute_done|].
    apply Forall_app. split; [|apply Forall_singleton; compute_done].
    eapply Forall_impl; [done|]. intros ev Hev.
    apply list_elem_of_singleton in Hev. rewrite Hev. compute_done.
  - set (w1 := failed _ _ _ _).
    pose proof (sys_close_effect error_pipe w1) as H. cbv zeta in H.
    destruct (sys_close error_pipe w1) as [? w2]. cbn [snd] in H.
    destruct H as (Hf & Hs & He & Hw & (evs & Ht & Hall)).
    split; [done|]. repeat split; try done.
    exists ([{| ev_call := SYS_write; ev_args := [error_pipe]; ev_ret := -1 |}]
              ++ evs ++ [{| ev_call := SYS_exit; ev_args := [253]; ev_ret := 0 |}]).
    split; [cbn [log w_trace]; rewrite Ht; cbn; by rewrite <- !app_assoc|].
    apply Forall_app. split; [apply Forall_singleton; compute_done|].
    apply Forall_app. split; [|apply Forall_singleton; compute_done].
    eapply Forall_impl; [done|]. intros ev Hev.
    apply list_elem_of_singleton in Hev. rewrite Hev. compute_done.
Qed.

Section ChildEnds.

Variable B : build.

(** The child ends by [execve], by a trap or undefined behaviour, or by
    [_exit(253)], never otherwise (the [exit(254)] after the call is dead).
    It writes at most one record, on its way to [_exit(253)], and that
    record has one of the seven kinds of the child, so never kind 0, and
    names [spawner.c]. *)
Theorem child_reports_at_most_once config error_pipe scratch w :
  let '(f, w') := setup_and_execve_child B config error_pipe scratch w in
  w_env w' = w_env w ∧
  match f with
  | Execed | Trapped | Undefined => w_written w' = w_written w
  | Exited status =>
    status = 253 ∧
    (w_written w' = w_written w ∨
     ∃ d e, w_written w' = w_written w ++ [(d, e)] ∧
            pse_kind e ∈ child_error_kinds ∧
            pse_file e = Some "spawner.c"%string)
  | Returned _ | Blocked => False
  end.
Proof.
  unfold setup_and_execve_child.
  destruct (child_setup_keeps B config error_pipe scratch w) as [(He & Hw & _) Hs].
  destruct (child_setup _ _ _ _ _) as [[a|e|f] w1]; cbn [fst snd] in *.
  - done.
  - pose proof (write_fail_effect error_pipe e w1) as H.
    destruct (write_fail error_pipe e w1) as [f w'].
    destruct H as (-> & He' & _ & _ & _ & Hw').
    split; [congruence|]. split; [done|].
    destruct Hs as (Hk & Hf & _).
    destruct (fd_get _ _) as [en|]; [right|left; congruence].
    exists (fe_ofd en), e. split; [congruence|done].
  - split; [done|]. by destruct f.
Qed.

Lemma reset_signal_handlers_loop_no_halt n signo w :
  match (reset_signal_handlers_loop B n signo w).1 with
  | Halt _ => False
  | _ => True
  end.
Proof.
  revert signo w. induction n as [|n IH]; intros signo w; [done|].
  cbn [reset_signal_handlers_loop].
  destruct (_ || _); [apply IH|].
  destruct (sys_signal_dfl signo w) as [is_err w1].
  destruct (negb is_err); [apply IH|]. by destruct (_ =? EINVAL).
Qed.

Lemma reset_signal_mask_no_halt w :
  match (reset_signal_mask w).1 with
  | Halt _ => False
  | _ => True
  end.
Proof.
  unfold reset_signal_mask. cbn [sigemptyset].
  destruct (sys_sigprocmask_set ∅ w) as [r w1]. by destruct (c_true _).
Qed.

(** With [psc_new_session] set, an answer of [setsid] other than 0 - the id
    of the new session when it succeeds, or -1 - sends the child to
    [write_fail]: it ends in [_exit(253)] having called nothing but
    [signal], [sigprocmask], [setsid], [write], [close] and [_exit], and
    having touched no descriptor but the error pipe.  No descriptor is set
    up, and [execve] is not called. *)
Theorem new_session_never_reaches_exec config error_pipe scratch w :
  psc_new_session config = true →
  (o_setsid (w_env w)).1 ≠ 0 →
  let '(f, w') := setup_and_execve_child B config error_pipe scratch w in
  f = Exited 253 ∧
  only_calls (session_calls ++ exit_calls) w w' ∧
  w_fds w' = closefd error_pipe (w_fds w).
Proof.
  intros Hns Hsid.
  unfold setup_and_execve_child, child_setup, mbind, child_bind, bind.
  assert (Hfail : ∀ e w1,
    only_calls session_calls w w1 → w_fds w1 = w_fds w →
    let '(f, w') := write_fail error_pipe e w1 in
    f = Exited 253 ∧ only_calls (session_calls ++ exit_calls) w w' ∧
    w_fds w' = closefd error_pipe (w_fds w)).
  { intros e w1 Ho Hf.
    pose proof (write_fail_effect error_pipe e w1) as H.
    destruct (write_fail error_pipe e w1) as [f w'].
    destruct H as (-> & _ & _ & Ho' & Hf' & _).
    split; [done|]. split; [|congruence].
    eapply only_calls_trans; eapply only_calls_mono; [|done| |done]; compute_done. }
  pose proof (reset_signal_handlers_loop_keeps B (Z.to_nat (PS_SIG_MAX - 1)) 1 w)
    as [(He1 & _ & Ho1 & _) _].
  pose proof (reset_signal_handlers_loop_no_halt (Z.to_nat (PS_SIG_MAX - 1)) 1 w) as Hh1.
  pose proof (reset_signal_handlers_loop_fds B (Z.to_nat (PS_SIG_MAX - 1)) 1 w) as Hf1.
  unfold reset_signal_handlers.
  destruct (reset_signal_handlers_loop B _ 1 w) as [[[]|e|f] w1];
    cbn [fst snd] in *; [| |done].
  2:{ apply Hfail; [|done]. eapply only_calls_mono; [|done]. compute_done. }
  pose proof (reset_signal_mask_keeps w1) as [(He2 & _ & Ho2 & _) _].
  pose proof (reset_signal_mask_no_halt w1) as Hh2.
  pose proof (reset_signal_mask_fds w1) as Hf2.
  destruct (reset_signal_mask w1) as [[[]|e|f] w2]; cbn [fst snd] in *; [| |done].
  2:{ apply Hfail; [|congruence].
      eapply only_calls_trans; eapply only_calls_mono; [|done| |done]; compute_done. }
  unfold new_session. rewrite Hns.
  pose proof (sys_setsid_continues w2) as (He3 & _ & Ho3 & _).
  pose proof (new_session_fds config w2) as Hf3.
  unfold new_session in Hf3. rewrite Hns in Hf3.
  assert (Hr : (sys_setsid w2).1 = (o_setsid (w_env w)).1).
  { unfold sys_setsid. rewrite He2, He1. by destruct (_ <? 0). }
  destruct (sys_setsid w2) as [r w3]; cbn [fst snd] in *. subst r.
  unfold c_true in *. destruct (Z.eqb_spec (o_setsid (w_env w)).1 0); [done|].
  cbn [negb] in *. cbn in Hf3. apply Hfail; [|congruence].
  eapply only_calls_trans; [eapply only_calls_mono; [|done]; compute_done|].
  eapply only_calls_trans; eapply only_calls_mono; [|done| |done]; compute_done.
Qed.

End ChildEnds.

Lemma sys_close_range_outside first last w fd :
  ¬ (first ≤ fd ≤ last) →
  w_fds (sys_close_range first last w).2 !! fd = w_fds w !! fd.
Proof.
  unfold sys_close_range. intros Hout.
  destruct (o_close_range _); [done|].
  destruct (last <? first); [done|]. cbn.
  destruct (w_fds w !! fd) as [en|] eqn:Hen.
  - by apply map_lookup_filter_Some_2.
  - apply map_lookup_filter_None_2. by left.
Qed.

Lemma sys_close_range_inside first last w :
  o_close_range (w_env w) = None → first ≤ last →
  (sys_close_range first last w).1 = 0 ∧
  ∀ fd, first ≤ fd ≤ last → w_fds (sys_close_range first last w).2 !! fd = None.
Proof.
  unfold sys_close_range. intros -> Hle.
  rewrite (proj2 (Z.ltb_ge last first)) by lia. cbn. split; [done|].
  intros fd Hfd. apply map_lookup_filter_None_2. right. intros en _. cbn. tauto.
Qed.

Lemma sys_close_range_closed first last w fd :
  w_fds w !! fd = None → w_fds (sys_close_range first last w).2 !! fd = None.
Proof.
  unfold sys_close_range. intros Hfd.
  destruct (o_close_range _); [done|].
  destruct (last <? first); [done|]. cbn.
  apply map_lookup_filter_None_2. by left.
Qed.

Lemma sys_close_range_failing first last w e :
  o_close_range (w_env w) = Some e →
  (sys_close_range first last w).1 = -1 ∧
  w_fds (sys_close_range first last w).2 = w_fds w.
Proof. unfold sys_close_range. by intros ->. Qed.

Lemma close_loop_spares n i error_pipe w :
  w_fds (close_loop n i error_pipe w) !! error_pipe = w_fds w !! error_pipe.
Proof.
  revert i w. induction n as [|n IH]; intros i w; [done|].
  cbn [close_loop]. rewrite IH.
  destruct (Z.eqb_spec i error_pipe) as [->|Hne]; [done|]. cbn [negb].
  destruct (sys_close_fds i w) as [-> _].
  destruct (i <? 0); [done|]. by apply lookup_delete_ne.
Qed.

Lemma close_loop_closed n i error_pipe w fd :
  w_fds w !! fd = None → w_fds (close_loop n i error_pipe w) !! fd = None.
Proof.
  revert i w. induction n as [|n IH]; intros i w Hfd; [done|].
  cbn [close_loop]. apply IH.
  destruct (negb _); [|done].
  destruct (sys_close_fds i w) as [-> _].
  destruct (i <? 0); [done|].
  destruct (decide (fd = i)) as [->|Hne]; [apply lookup_delete_eq|].
  by rewrite lookup_delete_ne.
Qed.

Lemma close_loop_closes n i error_pipe w fd :
  0 ≤ i → i ≤ fd < i + Z.of_nat n → fd ≠ error_pipe →
  w_fds (close_loop n i error_pipe w) !! fd = None.
Proof.
  revert i w. induction n as [|n IH]; intros i w Hi Hfd Hne; [lia|].
  cbn [close_loop].
  destruct (decide (fd = i)) as [->|Hni].
  - apply close_loop_closed.
    rewrite (proj2 (Z.eqb_neq i error_pipe)) by done. cbn [negb].
    destruct (sys_close_fds i w) as [-> _].
    rewrite (proj2 (Z.ltb_ge i 0)) by lia. apply lookup_delete_eq.
  - apply IH; [lia|lia|done].
Qed.

Section Closing.

Variable B : build.

Lemma close_other_fds_unfold config error_pipe w :
  close_other_fds B config error_pipe w =
  if psc_close_other_fds config then
    let count := psc_fd_setup_count config in
    let '(close_range_err, w) :=
      close_range_phase B count error_pipe (set_errno (ENOSYS (b_os B)) w) in
    if c_true close_range_err then
      match highest_possibly_open_fd (b_os B) w with
      | (None, w) => (Halt Undefined, w)
      | (Some high_fd, w) =>
        (Next tt, close_loop (Z.to_nat (high_fd - count + 1)) count error_pipe w)
      end
    else (Next tt, w)
  else (Next tt, w).
Proof. done. Qed.

Lemma close_range_phase_spares count error_pipe w0 :
  w_fds (close_range_phase B count error_pipe w0).2 !! error_pipe =
  w_fds w0 !! error_pipe ∧
  w_env (close_range_phase B count error_pipe w0).2 = w_env w0.
Proof.
  unfold close_range_phase.
  destruct (b_has_close_range B); [|done].
  destruct (Z.ltb_spec count error_pipe).
  - pose proof (sys_close_range_outside count (error_pipe - 1) w0 error_pipe) as H1.
    pose proof (sys_close_range_low count (error_pipe - 1) w0) as [_ He1].
    destruct (sys_close_range count _ w0) as [e1 w1]. cbn [snd] in *.
    pose proof (sys_close_range_outside (error_pipe + 1) UINT_MAX w1 error_pipe) as H2.
    pose proof (sys_close_range_low (error_pipe + 1) UINT_MAX w1) as [_ He2].
    destruct (sys_close_range _ _ w1) as [e2 w2]. cbn [snd] in *.
    split; [|congruence]. rewrite H2, H1; [done|lia|lia].
  - split; [|apply sys_close_range_low].
    apply sys_close_range_outside.
    destruct (Z.eqb_spec count error_pipe); lia.
Qed.

Lemma close_other_fds_pipe_slot config error_pipe w w' :
  close_other_fds B config error_pipe w = (Next tt, w') →
  w_fds w' !! error_pipe = w_fds w !! error_pipe.
Proof.
  rewrite close_other_fds_unfold.
  destruct (psc_close_other_fds config); [|by intros [= <-]].
  cbv zeta.
  destruct (close_range_phase_spares (psc_fd_setup_count config) error_pipe
              (set_errno (ENOSYS (b_os B)) w)) as [Hs _].
  destruct (close_range_phase _ _ _ _) as [cre w1]. cbn [snd] in Hs.
  destruct (c_true cre); [|by intros [= <-]].
  destruct (highest_possibly_open_fd _ w1) as [[hi|] w2] eqn:Hhi; [|done].
  intros [= <-]. apply highest_possibly_open_fd_fds in Hhi as [Hf _].
  by rewrite close_loop_spares, Hf.
Qed.

(** Closing the other descriptors never closes the error pipe: whichever
    way is taken, [close_range] around it or the loop that skips it, the
    slot of [error_pipe] is afterwards what it was. *)
Theorem close_other_fds_spares_error_pipe config error_pipe w w' :
  close_other_fds B config error_pipe w = (Next tt, w') →
  w_fds w' !! error_pipe = w_fds w !! error_pipe.
Proof. apply close_other_fds_pipe_slot. Qed.

(** Where [close_range] exists and works, every descriptor from the count
    up, but the error pipe, is closed by it, and the directory of open
    descriptors is never looked at. *)
Theorem close_range_closes_the_rest config error_pipe w :
  psc_close_other_fds config = true →
  b_has_close_range B = true →
  o_close_range (w_env w) = None →
  error_pipe < UINT_MAX →
  psc_fd_setup_count config ≤ UINT_MAX →
  ∃ w', close_other_fds B config error_pipe w = (Next tt, w') ∧
        only_calls [SYS_close_range] w w' ∧
        ∀ fd, psc_fd_setup_count config ≤ fd ≤ UINT_MAX → fd ≠ error_pipe →
              w_fds w' !! fd = None.
Proof.
  intros Hc Hb Ho Hep Hcount.
  rewrite close_other_fds_unfold, Hc. cbv zeta.
  set (count := psc_fd_setup_count config) in *.
  set (w0 := set_errno _ w).
  assert (Ho0 : o_close_range (w_env w0) = None) by done.
  assert (Hw0 : continues [SYS_close_range] w w0).
  { repeat split. exists []. split; [by rewrite app_nil_r|constructor]. }
  unfold close_range_phase. rewrite Hb.
  destruct (Z.ltb_spec count error_pipe) as [Hlt|Hge].
  - destruct (sys_close_range_inside count (error_pipe - 1) w0 Ho0) as [Hr1 Hin1]; [lia|].
    pose proof (sys_close_range_low count (error_pipe - 1) w0) as [_ He1].
    pose proof (sys_close_range_continues count (error_pipe - 1) w0) as Hc1.
    destruct (sys_close_range count _ w0) as [e1 w1]. cbn [fst snd] in *. subst e1.
    assert (Ho1 : o_close_range (w_env w1) = None) by (by rewrite He1).
    destruct (sys_close_range_inside (error_pipe + 1) UINT_MAX w1 Ho1) as [Hr2 Hin2]; [lia|].
    pose proof (sys_close_range_continues (error_pipe + 1) UINT_MAX w1) as Hc2.
    pose proof (λ fd, sys_close_range_closed (error_pipe + 1) UINT_MAX w1 fd) as Hk2.
    destruct (sys_close_range _ _ w1) as [e2 w2]. cbn [fst snd] in *. subst e2.
    cbn. exists w2. split; [done|]. split.
    { by destruct (continues_trans _ _ _ _ Hw0 (continues_trans _ _ _ _ Hc1 Hc2))
        as (_ & _ & ? & _). }
    intros fd Hfd Hne.
    destruct (Z.lt_ge_cases fd error_pipe); [apply Hk2, Hin1; lia|apply Hin2; lia].
  - set (from := if count =? error_pipe then _ else _).
    assert (Hfrom : from ≤ UINT_MAX ∧ ∀ fd, count ≤ fd → fd ≠ error_pipe → from ≤ fd).
    { subst from. destruct (Z.eqb_spec count error_pipe); split; intros; lia. }
    destruct Hfrom as [Hfrom Hfd'].
    destruct (sys_close_range_inside from UINT_MAX w0 Ho0) as [Hr1 Hin1]; [lia|].
    pose proof (sys_close_range_continues from UINT_MAX w0) as Hc1.
    destruct (sys_close_range from _ w0) as [e1 w1]. cbn [fst snd] in *. subst e1.
    cbn. exists w1. split; [done|]. split.
    { by destruct (continues_trans _ _ _ _ Hw0 Hc1) as (_ & _ & ? & _). }
    intros fd Hfd Hne. apply Hin1. split; [apply Hfd'; lia|lia].
Qed.

(** Where [close_range] does not exist, or fails, the loop closes every
    descriptor from the count up to what [highest_possibly_open_fd]
    answers, but the error pipe. *)
Theorem fallback_closes_up_to_highest config error_pipe w w' :
  psc_close_other_fds config = true →
  b_has_close_range B = false ∨ is_Some (o_close_range (w_env w)) →
  close_other_fds B config error_pipe w = (Next tt, w') →
  ∃ w0 high_fd w1,
    w_fds w0 = w_fds w ∧ w_env w0 = w_env w ∧
    highest_possibly_open_fd (b_os B) w0 = (Some high_fd, w1) ∧
    ∀ fd, psc_fd_setup_count config ≤ fd ≤ high_fd → fd ≠ error_pipe →
          w_fds w' !! fd = None.
Proof.
  intros Hc Hno. rewrite close_other_fds_unfold, Hc. cbv zeta.
  set (count := psc_fd_setup_count config) in *.
  set (w0 := set_errno _ w).
  assert (Hphase : c_true (close_range_phase B count error_pipe w0).1 = true ∧
                   w_fds (close_range_phase B count error_pipe w0).2 = w_fds w ∧
                   w_env (close_range_phase B count error_pipe w0).2 = w_env w).
  { unfold close_range_phase.
    destruct (b_has_close_range B) eqn:Hb; [|done].
    destruct Hno as [?|[e He]]; [done|].
    assert (He0 : o_close_range (w_env w0) = Some e) by done.
    destruct (count <? error_pipe).
    - destruct (sys_close_range_failing count (error_pipe - 1) w0 e He0) as [Hr1 Hf1].
      pose proof (sys_close_range_low count (error_pipe - 1) w0) as [_ He1].
      destruct (sys_close_range count _ w0) as [e1 w1]. cbn [fst snd] in *. subst e1.
      assert (He1' : o_close_range (w_env w1) = Some e) by (by rewrite He1).
      destruct (sys_close_range_failing (error_pipe + 1) UINT_MAX w1 e He1') as [Hr2 Hf2].
      pose proof (sys_close_range_low (error_pipe + 1) UINT_MAX w1) as [_ He2].
      destruct (sys_close_range _ _ w1) as [e2 w2]. cbn [fst snd] in *. subst e2.
      split; [done|]. split; [by rewrite Hf2, Hf1|by rewrite He2, He1].
    - match goal with |- context [sys_close_range ?a ?b w0] =>
        destruct (sys_close_range_failing a b w0 e He0) as [Hr1 Hf1];
        pose proof (sys_close_range_low a b w0) as [_ He1] end.
      rewrite Hr1, Hf1, He1. done. }
  destruct (close_range_phase B count error_pipe w0) as [cre w1]. cbn [fst snd] in Hphase.
  destruct Hphase as (-> & Hf1 & He1).
  destruct (highest_possibly_open_fd _ w1) as [[hi|] w2] eqn:Hhi; [|done].
  intros [= <-]. exists w1, hi, w2. split; [done|]. split; [done|]. split; [done|].
  intros fd Hfd Hne. apply close_loop_closes; [subst count; unfold psc_fd_setup_count; lia|lia|done].
Qed.

End Closing.

Lemma bind_halt_cases {A C : Type} (m : child A) (k : A → child C) w f w' :
  (m ≫= k) w = (Halt f, w') →
  m w = (Halt f, w') ∨ ∃ a w1, m w = (Next a, w1) ∧ k a w1 = (Halt f, w').
Proof.
  unfold mbind, child_bind, bind. intros Hrun.
  destruct (m w) as [[a|e|f1] w1]; [right; by eauto|discriminate Hrun|left; by injection Hrun as -> ->].
Qed.

Section ChildRun.

Variable B : build.

Lemma new_session_no_halt config w :
  match (new_session config w).1 with
  | Halt _ => False
  | _ => True
  end.
Proof.
  unfold new_session. destruct (psc_new_session config); [|done].
  destruct (sys_setsid w) as [r w1]. by destruct (c_true _).
Qed.

Lemma change_directory_no_halt config w :
  match (change_directory config w).1 with
  | Halt _ => False
  | _ => True
  end.
Proof.
  unfold change_directory. destruct (psc_cwd config); [|done].
  destruct (sys_chdir w) as [r w1]. by destruct (c_true _).
Qed.

Lemma duplicate_up_loop_no_halt instructions child_fd count scratch w :
  Forall (λ s, psfd_kind s = PS_MAP_FD ∨ psfd_kind s = PS_CLOSE_FD) instructions →
  match (duplicate_up_loop instructions child_fd count scratch w).1 with
  | Halt _ => False
  | _ => True
  end.
Proof.
  intros Hall. revert child_fd scratch w.
  induction Hall as [|setup rest Hkind _ IH]; intros child_fd scratch w; [done|].
  cbn [duplicate_up_loop].
  destruct (psfd_kind setup); [|apply IH|by destruct Hkind].
  destruct (sys_fcntl_dupfd_cloexec _ _ w) as [dup w1].
  destruct (dup =? -1); [done|apply IH].
Qed.

Lemma install_loop_no_halt instructions k scratch w :
  (∀ i setup, instructions !! i = Some setup →
     match psfd_kind setup with
     | PS_MAP_FD => ∃ d, scratch !! (k + i)%nat = Some d ∧ Z.of_nat (k + i) < d
     | PS_CLOSE_FD => scratch !! (k + i)%nat = Some (-1)
     | PS_FD_SETUP_OTHER _ => False
     end) →
  match (install_loop instructions k scratch w).1 with
  | Halt _ => False
  | _ => True
  end.
Proof.
  revert k w. induction instructions as [|setup rest IH]; intros k w Hinv; [done|].
  cbn [install_loop].
  pose proof (Hinv 0%nat setup eq_refl) as H0. rewrite Nat.add_0_r in H0.
  assert (Hrest : ∀ w1, match (install_loop rest (S k) scratch w1).1 with
                        | Halt _ => False
                        | _ => True
                        end).
  { intros w1. apply IH. intros i s Hi.
    specialize (Hinv (S i) s Hi). by rewrite Nat.add_succ_r in Hinv. }
  cbv zeta. destruct (psfd_kind setup); [| |done].
  - destruct H0 as (d & Hd0 & Hd). rewrite Hd0. cbn [default id].
    rewrite (proj2 (Z.ltb_lt _ _) Hd). cbn [negb].
    destruct (sys_dup2 _ _ w) as [err w1].
    destruct (err =? -1); [done|apply Hrest].
  - rewrite H0. cbn [default id]. change (negb (-1 =? -1)) with false. cbv iota.
    destruct (sys_close _ w) as [? w1]. apply Hrest.
Qed.

Lemma close_other_fds_halt config error_pipe w f w' :
  close_other_fds B config error_pipe w = (Halt f, w') → f = Undefined.
Proof.
  rewrite close_other_fds_unfold.
  destruct (psc_close_other_fds config); [|done]. cbv zeta.
  destruct (close_range_phase _ _ _ _) as [cre w1].
  destruct (c_true cre); [|done].
  destruct (highest_possibly_open_fd _ w1) as [[hi|] w2]; [done|].
  by intros [= <- _].
Qed.

Lemma close_other_fds_no_jump config error_pipe w e w' :
  close_other_fds B config error_pipe w ≠ (Write_fail e, w').
Proof.
  rewrite close_other_fds_unfold.
  destruct (psc_close_other_fds config); [|done]. cbv zeta.
  destruct (close_range_phase _ _ _ _) as [cre w1].
  destruct (c_true cre); [|done].
  by destruct (highest_possibly_open_fd _ w1) as [[hi|] w2].
Qed.

Lemma exec_target_halt w f w' :
  exec_target w = (Halt f, w') → f = Execed ∨ f = Undefined.
Proof.
  unfold exec_target.
  destruct (sys_execve w) as [[err|] w1]; [|intros [= <- _]; by left].
  destruct (c_true err); [done|intros [= <- _]; by right].
Qed.

(** The second loop's [ps_precondition]s hold because of what the first
    loop put into the scratch array: with a scratch array of the length of
    the instructions and every instruction a [PS_MAP_FD] or a
    [PS_CLOSE_FD], the child never traps. *)
Theorem child_never_traps_on_valid_kinds config error_pipe scratch w :
  length scratch = length (psc_fd_setup_instructions config) →
  Forall (λ s, psfd_kind s = PS_MAP_FD ∨ psfd_kind s = PS_CLOSE_FD)
         (psc_fd_setup_instructions config) →
  (setup_and_execve_child B config error_pipe scratch w).1 ≠ Trapped.
Proof.
  intros Hlen Hkinds. unfold setup_and_execve_child.
  destruct (child_setup _ _ _ _ _) as [[a|e|f] w9] eqn:Hsetup; [done| |].
  { pose proof (write_fail_effect error_pipe e w9) as H.
    destruct (write_fail error_pipe e w9) as [f w']. by destruct H as (-> & _). }
  cbn [fst]. intros ->. unfold child_setup in Hsetup.
  apply bind_halt_cases in Hsetup as [H|([] & w1 & _ & Hsetup)].
  { pose proof (reset_signal_handlers_loop_no_halt B (Z.to_nat (PS_SIG_MAX - 1)) 1 w) as Hn.
    unfold reset_signal_handlers in H. by rewrite H in Hn. }
  apply bind_halt_cases in Hsetup as [H|([] & w2 & _ & Hsetup)].
  { pose proof (reset_signal_mask_no_halt w1) as Hn. by rewrite H in Hn. }
  apply bind_halt_cases in Hsetup as [H|([] & w3 & _ & Hsetup)].
  { pose proof (new_session_no_halt config w2) as Hn. by rewrite H in Hn. }
  apply bind_halt_cases in Hsetup as [H|(scratch' & w4 & H4 & Hsetup)].
  { pose proof (duplicate_up_loop_no_halt _ 0 (psc_fd_setup_count config)
                  scratch w3 Hkinds) as Hn. by rewrite H in Hn. }
  apply duplicate_up_loop_spec in H4 as (_ & _ & _ & _ & _ & HA); [|cbn; lia].
  apply bind_halt_cases in Hsetup as [H|([] & w5 & _ & Hsetup)].
  { pose proof (install_loop_no_halt (psc_fd_setup_instructions config) 0
                  scratch' w4) as Hn.
    rewrite H in Hn. apply Hn. intros i setup Hi.
    specialize (HA i setup Hi). apply lookup_lt_Some in Hi.
    destruct (psfd_kind setup); [|done|done].
    destruct HA as (d & X & Hd & Hcount & _). exists d. split; [done|].
    unfold psc_fd_setup_count in Hcount. lia. }
  apply bind_halt_cases in Hsetup as [H|([] & w6 & _ & Hsetup)].
  { by apply close_other_fds_halt in H. }
  apply bind_halt_cases in Hsetup as [H|([] & w7 & _ & Hsetup)].
  { pose proof (change_directory_no_halt config w6) as Hn. by rewrite H in Hn. }
  by apply exec_target_halt in Hsetup as [?|?].
Qed.

(** A run of the child that ends in a successful [execve] went through
    every block. *)
Lemma child_setup_execed config error_pipe scratch w w' :
  child_setup B config error_pipe scratch w = (Halt Execed, w') →
  ∃ w1 w2 w3 scratch' w4 w5 w6 w7,
    reset_signal_handlers B w = (Next tt, w1) ∧
    reset_signal_mask w1 = (Next tt, w2) ∧
    new_session config w2 = (Next tt, w3) ∧
    duplicate_up_loop (psc_fd_setup_instructions config) 0
      (psc_fd_setup_count config) scratch w3 = (Next scratch', w4) ∧
    install_loop (psc_fd_setup_instructions config) 0 scratch' w4 = (Next tt, w5) ∧
    close_other_fds B config error_pipe w5 = (Next tt, w6) ∧
    change_directory config w6 = (Next tt, w7) ∧
    exec_target w7 = (Halt Execed, w').
Proof.
  unfold child_setup. intros Hsetup.
  apply bind_halt_inv in Hsetup as ([] & w1 & H1 & Hsetup);
    [|apply reset_signal_handlers_loop_halts|by intros []].
  apply bind_halt_inv in Hsetup as ([] & w2 & H2 & Hsetup);
    [|apply reset_signal_mask_halts|by intros []].
  apply bind_halt_inv in Hsetup as ([] & w3 & H3 & Hsetup);
    [|apply new_session_halts|by intros []].
  apply bind_halt_inv in Hsetup as (scratch' & w4 & H4 & Hsetup);
    [|apply duplicate_up_loop_halts|by intros []].
  apply bind_halt_inv in Hsetup as ([] & w5 & H5 & Hsetup);
    [|apply install_loop_halts|by intros []].
  apply bind_halt_inv in Hsetup as ([] & w6 & H6 & Hsetup);
    [|apply close_other_fds_halts|by intros []].
  apply bind_halt_inv in Hsetup as ([] & w7 & H7 & Hsetup);
    [|apply change_directory_halts|by intros []].
  by exists w1, w2, w3, scratch', w4, w5, w6, w7.
Qed.

Lemma setup_and_execve_child_execed config error_pipe scratch w w' :
  setup_and_execve_child B config error_pipe scratch w = (Execed, w') →
  child_setup B config error_pipe scratch w = (Halt Execed, w').
Proof.
  unfold setup_and_execve_child. intros Hrun.
  destruct (child_setup _ _ _ _ _) as [[a|e|f] w9]; [discriminate Hrun| |].
  - pose proof (write_fail_effect error_pipe e w9) as H.
    destruct (write_fail error_pipe e w9) as [f w'']. destruct H as (-> & _).
    discriminate Hrun.
  - by injection Hrun as -> ->.
Qed.

(** The program that a successful [execve] starts runs with an empty
    signal mask: [sigprocmask] emptied it, and no later block of the child
    changes it. *)
Theorem exec_starts_with_empty_mask config error_pipe scratch w w' :
  setup_and_execve_child B config error_pipe scratch w = (Execed, w') →
  w_sigmask w' = ∅.
Proof.
  intros Hrun. apply setup_and_execve_child_execed in Hrun.
  unfold child_setup in Hrun.
  apply bind_halt_inv in Hrun as ([] & w1 & H1 & Hrun);
    [|apply reset_signal_handlers_loop_halts|by intros []].
  apply bind_halt_inv in Hrun as ([] & w2 & H2 & Hrun);
    [|apply reset_signal_mask_halts|by intros []].
  assert (Hempty : w_sigmask w2 = ∅).
  { unfold reset_signal_mask, sys_sigprocmask_set in H2. cbn [sigemptyset] in H2.
    destruct (o_sigprocmask _); [done|]. by injection H2 as <-. }
  destruct (late_blocks_keep B config error_pipe scratch w2) as [(_ & _ & _ & Hs) _].
  rewrite Hrun in Hs. cbn [snd] in Hs. rewrite Hs; [done|]. compute_done.
Qed.

(** A successful [execve] closes the child's copy of the error pipe, so
    that the parent reads end-of-file, when the pipe's descriptor is not
    below the count, is open and close-on-exec. *)
Theorem exec_closes_error_pipe config error_pipe scratch w w' en :
  setup_and_execve_child B config error_pipe scratch w = (Execed, w') →
  length scratch = length (psc_fd_setup_instructions config) →
  psc_fd_setup_count config ≤ error_pipe →
  fd_get (w_fds w) error_pipe = Some en →
  fe_cloexec en = true →
  w_fds w' !! error_pipe = None.
Proof.
  intros Hrun Hlen Hcount Hen Hcloexec.
  apply setup_and_execve_child_execed, child_setup_execed in Hrun
    as (w1 & w2 & w3 & scratch' & w4 & w5 & w6 & w7 &
        H1 & H2 & H3 & H4 & H5 & H6 & H7 & H8).
  assert (Hfds3 : w_fds w3 = w_fds w).
  { pose proof (reset_signal_handlers_loop_fds B (Z.to_nat (PS_SIG_MAX - 1)) 1 w) as E1.
    unfold reset_signal_handlers in H1. rewrite H1 in E1.
    pose proof (reset_signal_mask_fds w1) as E2. rewrite H2 in E2.
    pose proof (new_session_fds config w2) as E3. rewrite H3 in E3.
    cbn in E1, E2, E3. congruence. }
  apply fd_get_Some in Hen.
  apply duplicate_up_loop_spec in H4 as (Hsub & _); [|cbn; lia].
  apply install_loop_spec in H5 as (_ & Hhigh & _).
  apply close_other_fds_pipe_slot in H6.
  pose proof (change_directory_fds config w6) as E7. rewrite H7 in E7. cbn in E7.
  apply exec_target_execed in H8.
  assert (H7' : w_fds w7 !! error_pipe = Some en).
  { rewrite E7, H6, Hhigh by (right; unfold psc_fd_setup_count in Hcount; cbn; lia).
    eapply lookup_weaken; [|done]. by rewrite Hfds3. }
  rewrite H8. apply map_lookup_filter_None_2. right.
  intros en' Hen'. cbn. rewrite H7' in Hen'. injection Hen' as <-.
  by rewrite Hcloexec.
Qed.

End ChildRun.

Lemma new_session_never_reaches_exec_witness :
  let '(f, w') :=
    setup_and_execve_child linux_build (in_new_session (run_true [map_fd 0])) 4 [0]
      (child_world [] None) in
  f = Exited 253 ∧
  only_calls (session_calls ++ exit_calls) (child_world [] None) w' ∧
  w_fds w' = closefd 4 (w_fds (child_world [] None)).
Proof.
  apply (new_session_never_reaches_exec linux_build
           (in_new_session (run_true [map_fd 0])) 4 [0] (child_world [] None)).
  - reflexivity.
  - vm_compute. intros H. discriminate H.
Defined.

Lemma close_other_fds_spares_error_pipe_witness :
  let w := child_world [] None in
  let config := closing_other_fds (run_true [map_fd 0]) in
  w_fds (close_other_fds linux_build config 4 w).2 !! 4 = w_fds w !! 4.
Proof.
  intros w config.
  apply (close_other_fds_spares_error_pipe linux_build config 4 w).
  vm_compute. reflexivity.
Defined.

Lemma close_range_closes_the_rest_witness :
  let w := child_world [] None in
  let config := closing_other_fds (run_true [map_fd 0]) in
  ∃ w', close_other_fds linux_build config 4 w = (Next tt, w') ∧
        only_calls [SYS_close_range] w w' ∧
        ∀ fd, psc_fd_setup_count config ≤ fd ≤ UINT_MAX → fd ≠ 4 →
              w_fds w' !! fd = None.
Proof.
  intros w config.
  apply (close_range_closes_the_rest linux_build config 4 w);
    [reflexivity|reflexivity|reflexivity|vm_compute; reflexivity|
     vm_compute; intros H; discriminate H].
Defined.

Lemma fallback_closes_up_to_highest_witness :
  let w := child_world listing_with_readme None in
  let config := closing_other_fds (run_true [map_fd 0]) in
  ∃ w0 high_fd w1,
    w_fds w0 = w_fds w ∧ w_env w0 = w_env w ∧
    highest_possibly_open_fd Linux w0 = (Some high_fd, w1) ∧
    ∀ fd, psc_fd_setup_count config ≤ fd ≤ high_fd → fd ≠ 4 →
          w_fds (close_other_fds old_linux_build config 4 w).2 !! fd = None.
Proof.
  intros w config.
  apply (fallback_closes_up_to_highest old_linux_build config 4 w
           (close_other_fds old_linux_build config 4 w).2).
  - reflexivity.
  - left. reflexivity.
  - vm_compute. reflexivity.
Defined.

Lemma child_never_traps_on_valid_kinds_witness :
  length [0; 0] = length [map_fd 0; close_fd] ∧
  (setup_and_execve_child linux_build (run_true [map_fd 0; close_fd]) 4 [0; 0]
     (child_world [] None)).1 ≠ Trapped.
Proof.
  split; [reflexivity|].
  apply (child_never_traps_on_valid_kinds linux_build (run_true [map_fd 0; close_fd])
           4 [0; 0] (child_world [] None)).
  - reflexivity.
  - apply Forall_cons. split; [left; reflexivity|].
    apply Forall_cons. split; [right; reflexivity|]. apply Forall_nil_2.
Defined.

Lemma exec_starts_with_empty_mask_witness :
  let w := set_sigmask {[SIGTERM]} (child_world [] None) in
  w_sigmask (setup_and_execve_child linux_build (run_true [map_fd 0]) 4 [0] w).2 = ∅.
Proof.
  intros w.
  apply (exec_starts_with_empty_mask linux_build (run_true [map_fd 0]) 4 [0] w).
  vm_compute. reflexivity.
Defined.

Lemma exec_closes_error_pipe_witness :
  let w := child_world [] None in
  w_fds (setup_and_execve_child linux_build (run_true [map_fd 0]) 4 [0] w).2 !! 4 = None.
Proof.
  intros w.
  apply (exec_closes_error_pipe linux_build (run_true [map_fd 0]) 4 [0] w
           (setup_and_execve_child linux_build (run_true [map_fd 0]) 4 [0] w).2
           {| fe_ofd := OFD_pipe_write; fe_cloexec := true |}).
  - vm_compute. reflexivity.
  - reflexivity.
  - vm_compute. intros H. discriminate H.
  - vm_compute. reflexivity.
  - reflexivity.
Defined.

(** ** The error pipe in the child *)

Lemma sole_write_end_insert error_pipe t fd en :
  sole_write_end error_pipe t → fd ≠ error_pipe →
  fe_ofd en ≠ OFD_pipe_write →
  sole_write_end error_pipe (<[fd := en]> t).
Proof.
  intros [Hep Hsole] Hne Hofd. split; [by rewrite lookup_insert_ne|].
  intros fd' en' Hfd' Hw.
  destruct (decide (fd' = fd)) as [->|Hne'].
  - rewrite lookup_insert_eq in Hfd'. injection Hfd' as <-. done.
  - rewrite lookup_insert_ne in Hfd' by done. by eapply Hsole.
Qed.

Lemma sole_write_end_subseteq error_pipe t t' :
  sole_write_end error_pipe t → t' ⊆ t → t' !! error_pipe = t !! error_pipe →
  sole_write_end error_pipe t'.
Proof.
  intros [Hep Hsole] Hsub Hslot. split; [by rewrite Hslot|].
  intros fd en Hfd. eapply Hsole. by eapply lookup_weaken.
Qed.

Lemma sole_write_end_source error_pipe t fd en :
  sole_write_end error_pipe t → fd ≠ error_pipe → fd_get t fd = Some en →
  fe_ofd en ≠ OFD_pipe_write.
Proof.
  intros [_ Hsole] Hne Hen Hofd. apply fd_get_Some in Hen. by apply Hne, (Hsole fd en).
Qed.

Lemma sys_fcntl_dupfd_cloexec_guard error_pipe fd lowest w :
  sole_write_end error_pipe (w_fds w) → 0 ≤ error_pipe → fd ≠ error_pipe →
  sole_write_end error_pipe (w_fds (sys_fcntl_dupfd_cloexec fd lowest w).2) ∧
  (sys_fcntl_dupfd_cloexec fd lowest w).1 ≠ error_pipe.
Proof.
  intros Hsole Hnn Hne. unfold sys_fcntl_dupfd_cloexec.
  destruct (fd_get (w_fds w) fd) as [en|] eqn:Hen; [|split; [done|cbn; lia]].
  destruct (_ || _); [split; [done|cbn; lia]|].
  destruct (lowest_free _ _ _) as [n|] eqn:Hfree; [|split; [done|cbn; lia]].
  apply lowest_free_spec in Hfree as [_ Hnone]. cbn [fst snd set_fds w_fds].
  assert (n ≠ error_pipe).
  { intros ->. destruct Hsole as [Hep _]. by rewrite Hep in Hnone. }
  split; [|done]. apply sole_write_end_insert; [done|done|].
  cbn. exact (sole_write_end_source _ _ _ _ Hsole Hne Hen).
Qed.

Lemma sys_dup2_guard error_pipe oldfd newfd w :
  sole_write_end error_pipe (w_fds w) → oldfd ≠ error_pipe → newfd ≠ error_pipe →
  sole_write_end error_pipe (w_fds (sys_dup2 oldfd newfd w).2).
Proof.
  intros Hsole Hold Hnew. unfold sys_dup2.
  destruct (o_dup2 _ _); [done|].
  destruct (fd_get (w_fds w) oldfd) as [en|] eqn:Hen; [|done].
  destruct (_ || _); [done|]. destruct (_ =? _); [done|].
  cbn [snd set_fds w_fds]. apply sole_write_end_insert; [done|done|].
  cbn. exact (sole_write_end_source _ _ _ _ Hsole Hold Hen).
Qed.

Lemma sys_close_guard error_pipe fd w :
  sole_write_end error_pipe (w_fds w) → fd ≠ error_pipe →
  sole_write_end error_pipe (w_fds (sys_close fd w).2).
Proof.
  intros Hsole Hne. destruct (sys_close_fds fd w) as [-> _].
  destruct (fd <? 0); [done|].
  eapply sole_write_end_subseteq; [done|apply delete_subseteq|].
  by apply lookup_delete_ne.
Qed.

Lemma close_loop_shrinks n i error_pipe w :
  w_fds (close_loop n i error_pipe w) ⊆ w_fds w.
Proof.
  revert i w. induction n as [|n IH]; intros i w; [done|].
  cbn [close_loop]. etrans; [apply IH|].
  destruct (negb _); [|done].
  destruct (sys_close_fds i w) as [-> _].
  destruct (i <? 0); [done|apply delete_subseteq].
Qed.

Lemma sys_close_range_shrinks first last w :
  w_fds (sys_close_range first last w).2 ⊆ w_fds w.
Proof.
  unfold sys_close_range. destruct (o_close_range _); [done|].
  destruct (_ <? _); [done|]. cbn. apply map_filter_subseteq.
Qed.

Section PipeProtocol.

Variable B : build.

Lemma close_range_phase_shrinks count error_pipe w0 :
  w_fds (close_range_phase B count error_pipe w0).2 ⊆ w_fds w0.
Proof.
  unfold close_range_phase.
  destruct (b_has_close_range B); [|done].
  destruct (count <? error_pipe); [|apply sys_close_range_shrinks].
  pose proof (sys_close_range_shrinks count (error_pipe - 1) w0) as H1.
  destruct (sys_close_range count _ w0) as [e1 w1]. cbn [snd] in H1.
  pose proof (sys_close_range_shrinks (error_pipe + 1) UINT_MAX w1) as H2.
  destruct (sys_close_range _ _ w1) as [e2 w2]. cbn [snd] in *.
  by etrans.
Qed.

Lemma close_other_fds_shrinks config error_pipe w w' :
  close_other_fds B config error_pipe w = (Next tt, w') → w_fds w' ⊆ w_fds w.
Proof.
  rewrite close_other_fds_unfold.
  destruct (psc_close_other_fds config); [|by intros [= <-]]. cbv zeta.
  pose proof (close_range_phase_shrinks (psc_fd_setup_count config) error_pipe
                (set_errno (ENOSYS (b_os B)) w)) as Hs.
  destruct (close_range_phase _ _ _ _) as [cre w1]. cbn [snd] in Hs.
  destruct (c_true cre); [|by intros [= <-]].
  destruct (highest_possibly_open_fd _ w1) as [[hi|] w2] eqn:Hhi; [|done].
  intros [= <-]. apply highest_possibly_open_fd_fds in Hhi as [Hf _].
  etrans; [apply close_loop_shrinks|]. by rewrite Hf.
Qed.

Lemma duplicate_up_loop_guard error_pipe instructions child_fd count scratch w :
  sole_write_end error_pipe (w_fds w) → 0 ≤ error_pipe →
  never_maps error_pipe instructions →
  Forall (λ d, d ≠ error_pipe) scratch →
  sole_write_end error_pipe
    (w_fds (duplicate_up_loop instructions child_fd count scratch w).2) ∧
  match (duplicate_up_loop instructions child_fd count scratch w).1 with
  | Next scratch' => Forall (λ d, d ≠ error_pipe) scratch'
  | _ => True
  end.
Proof.
  intros Hsole Hnn Hmaps. revert child_fd scratch w Hsole.
  induction Hmaps as [|setup rest Hsetup _ IH]; intros child_fd scratch w Hsole Hscratch.
  { done. }
  cbn [duplicate_up_loop].
  destruct (psfd_kind setup); [| |done].
  - destruct (sys_fcntl_dupfd_cloexec_guard error_pipe (psfd_parent_fd setup) count w)
      as [Hsole1 Hdup]; [done|done|by apply Hsetup|].
    destruct (sys_fcntl_dupfd_cloexec _ _ w) as [dup w1]. cbn [fst snd] in *.
    destruct (dup =? -1); [done|].
    apply IH; [done|]. by apply Forall_insert.
  - apply IH; [done|]. apply Forall_insert; [done|lia].
Qed.

Lemma install_loop_guard error_pipe instructions child_fd scratch w :
  sole_write_end error_pipe (w_fds w) → 0 < error_pipe →
  Z.of_nat (child_fd + length instructions) ≤ error_pipe →
  Forall (λ d, d ≠ error_pipe) scratch →
  sole_write_end error_pipe (w_fds (install_loop instructions child_fd scratch w).2).
Proof.
  intros Hsole Hpos Hcount Hscratch. revert child_fd w Hsole Hcount.
  induction instructions as [|setup rest IH]; intros child_fd w Hsole Hcount; [done|].
  cbn [install_loop length] in *. cbv zeta.
  assert (Hd : default 0 (scratch !! child_fd) ≠ error_pipe).
  { destruct (scratch !! child_fd) as [d|] eqn:Hd; cbn; [|lia].
    rewrite Forall_lookup in Hscratch. by eapply Hscratch. }
  destruct (psfd_kind setup); [| |done].
  - destruct (negb _); [done|].
    pose proof (sys_dup2_guard error_pipe (default 0 (scratch !! child_fd))
                  (Z.of_nat child_fd) w Hsole Hd ltac:(lia)) as Hsole1.
    destruct (sys_dup2 _ _ w) as [err w1]. cbn [snd] in Hsole1.
    destruct (err =? -1); [done|]. apply IH; [done|lia].
  - destruct (negb _); [done|].
    pose proof (sys_close_guard error_pipe (Z.of_nat child_fd) w Hsole ltac:(lia))
      as Hsole1.
    destruct (sys_close _ w) as [? w1]. cbn [snd] in Hsole1.
    apply IH; [done|lia].
Qed.

Lemma close_other_fds_guard error_pipe config w w' :
  close_other_fds B config error_pipe w = (Next tt, w') →
  sole_write_end error_pipe (w_fds w) → sole_write_end error_pipe (w_fds w').
Proof.
  intros Hrun Hsole. eapply sole_write_end_subseteq; [done| |].
  - by eapply close_other_fds_shrinks.
  - by eapply close_other_fds_pipe_slot.
Qed.

(** Where the pipe stands when the blocks of the child end: at a jump to
    [write_fail] the write end is still there, after a successful [execve]
    no descriptor of it is left. *)
Lemma child_setup_guard config error_pipe scratch w :
  sole_write_end error_pipe (w_fds w) → 0 < error_pipe →
  psc_fd_setup_count config ≤ error_pipe →
  never_maps error_pipe (psc_fd_setup_instructions config) →
  Forall (λ d, d ≠ error_pipe) scratch →
  match child_setup B config error_pipe scratch w with
  | (Write_fail _, w') => sole_write_end error_pipe (w_fds w')
  | (Halt Execed, w') =>
    ∀ fd en, w_fds w' !! fd = Some en → fe_ofd en ≠ OFD_pipe_write
  | _ => True
  end.
Proof.
  intros Hsole Hpos Hcount Hmaps Hscratch.
  unfold child_setup, mbind, child_bind, bind.
  pose proof (reset_signal_handlers_loop_fds B (Z.to_nat (PS_SIG_MAX - 1)) 1 w) as Hf1.
  pose proof (reset_signal_handlers_loop_no_halt B (Z.to_nat (PS_SIG_MAX - 1)) 1 w) as Hn1.
  unfold reset_signal_handlers.
  destruct (reset_signal_handlers_loop B _ 1 w) as [[[]|e|f] w1]; cbn [fst snd] in *;
    [|by rewrite Hf1|done].
  pose proof (reset_signal_mask_fds w1) as Hf2.
  pose proof (reset_signal_mask_no_halt w1) as Hn2.
  destruct (reset_signal_mask w1) as [[[]|e|f] w2]; cbn [fst snd] in *;
    [|by rewrite Hf2, Hf1|done].
  pose proof (new_session_fds config w2) as Hf3.
  destruct (new_session config w2) as [[[]|e|f] w3] eqn:H3; cbn [snd] in Hf3;
    [|by rewrite Hf3, Hf2, Hf1|].
  2:{ pose proof (new_session_no_halt config w2) as Hn. by rewrite H3 in Hn. }
  assert (Hsole3 : sole_write_end error_pipe (w_fds w3)) by (by rewrite Hf3, Hf2, Hf1).
  destruct (duplicate_up_loop_guard error_pipe (psc_fd_setup_instructions config) 0
              (psc_fd_setup_count config) scratch w3) as [Hsole4 Hscratch4];
    [done|lia|done|done|].
  destruct (duplicate_up_loop _ _ _ _ w3) as [[scratch'|e|f] w4] eqn:H4;
    cbn [fst snd] in *; [|done|].
  2:{ destruct f; try done.
      pose proof (duplicate_up_loop_halts (psc_fd_setup_instructions config) 0
                    (psc_fd_setup_count config) scratch w3) as Hh.
      by rewrite H4 in Hh. }
  pose proof (install_loop_guard error_pipe (psc_fd_setup_instructions config) 0
                scratch' w4 Hsole4 Hpos) as Hsole5.
  destruct (install_loop _ _ _ w4) as [[[]|e|f] w5] eqn:H5; cbn [snd] in Hsole5.
  2:{ apply Hsole5; [|done]. unfold psc_fd_setup_count in Hcount. cbn. lia. }
  2:{ destruct f; try done.
      pose proof (install_loop_halts (psc_fd_setup_instructions config) 0
                    scratch' w4) as Hh.
      by rewrite H5 in Hh. }
  specialize (Hsole5 ltac:(unfold psc_fd_setup_count in Hcount; cbn; lia) Hscratch4).
  destruct (close_other_fds B config error_pipe w5) as [[[]|e|f] w6] eqn:H6.
  2:{ by apply close_other_fds_no_jump in H6. }
  2:{ apply close_other_fds_halt in H6 as ->. done. }
  apply close_other_fds_guard in H6; [|done].
  pose proof (change_directory_fds config w6) as Hf7.
  destruct (change_directory config w6) as [[[]|e|f] w7] eqn:H7; cbn [snd] in Hf7;
    [|by rewrite Hf7|].
  2:{ pose proof (change_directory_no_halt config w6) as Hn. by rewrite H7 in Hn. }
  unfold exec_target, sys_execve.
  destruct (o_execve (w_env w7)) as [err|]; cbn.
  - by rewrite Hf7.
  - intros fd en Hfd Hofd. apply map_lookup_filter_Some in Hfd as [Hfd Hcx].
    cbn in Hcx. rewrite Hf7 in Hfd. destruct H6 as [Hep Hsole6].
    assert (fd = error_pipe) as -> by (by eapply Hsole6).
    rewrite Hep in Hfd. injection Hfd as <-. done.
Qed.

Lemma child_pipe_outcome config error_pipe scratch w :
  sole_write_end error_pipe (w_fds w) → 0 < error_pipe →
  psc_fd_setup_count config ≤ error_pipe →
  never_maps error_pipe (psc_fd_setup_instructions config) →
  Forall (λ d, d ≠ error_pipe) scratch →
  let '(f, w') := setup_and_execve_child B config error_pipe scratch w in
  match f with
  | Execed =>
    w_written w' = w_written w ∧
    ∀ fd en, w_fds w' !! fd = Some en → fe_ofd en ≠ OFD_pipe_write
  | Exited _ =>
    w_fds w' !! error_pipe = None ∧
    ∃ e, w_written w' = w_written w ++ [(OFD_pipe_write, e)] ∧
         pse_kind e ∈ child_error_kinds
  | _ => True
  end.
Proof.
  intros Hsole Hpos Hcount Hmaps Hscratch.
  pose proof (child_setup_guard config error_pipe scratch w Hsole Hpos Hcount
                Hmaps Hscratch) as Hg.
  destruct (child_setup_keeps B config error_pipe scratch w) as [(_ & Hw & _) Hs].
  unfold setup_and_execve_child.
  destruct (child_setup _ _ _ _ _) as [[a|e|f] w1]; cbn [fst snd] in *; [done| |].
  - pose proof (write_fail_effect error_pipe e w1) as H.
    destruct (write_fail error_pipe e w1) as [f w'].
    destruct H as (-> & _ & _ & _ & Hf & Hw').
    destruct Hg as [Hep _]. destruct Hs as (Hk & _).
    rewrite fd_get_nonneg, Hep in Hw' by lia. cbn in Hw'.
    split.
    + rewrite Hf. unfold closefd. rewrite (proj2 (Z.ltb_ge error_pipe 0)) by lia.
      apply lookup_delete_eq.
    + exists e. split; [congruence|done].
  - by destruct f.
Qed.

(** The error pipe from the side of the child, when its descriptor is not
    below the count, is the only descriptor of the write end and is mapped
    by no instruction.  A child that ends in [execve] keeps no descriptor of
    the write end, so that the parent reads end-of-file; a child that ends
    in [_exit(253)] has written its one record, of a kind of the child, into
    the pipe and closed it. *)
Theorem child_pipe_protocol config error_pipe scratch w :
  sole_write_end error_pipe (w_fds w) → 0 < error_pipe →
  psc_fd_setup_count config ≤ error_pipe →
  never_maps error_pipe (psc_fd_setup_instructions config) →
  Forall (λ d, d ≠ error_pipe) scratch →
  let '(f, w') := setup_and_execve_child B config error_pipe scratch w in
  match f with
  | Execed =>
    w_written w' = w_written w ∧
    ∀ fd en, w_fds w' !! fd = Some en → fe_ofd en ≠ OFD_pipe_write
  | Exited _ =>
    w_fds w' !! error_pipe = None ∧
    ∃ e, w_written w' = w_written w ++ [(OFD_pipe_write, e)] ∧
         pse_kind e ∈ child_error_kinds
  | _ => True
  end.
Proof. apply child_pipe_outcome. Qed.

End PipeProtocol.

Lemma child_pipe_protocol_witness :
  let '(f, w') :=
    setup_and_execve_child linux_build (missing_program [map_fd 0]) 4 [0]
      (child_world [] (Some ENOENT)) in
  match f with
  | Execed =>
    w_written w' = w_written (child_world [] (Some ENOENT)) ∧
    ∀ fd en, w_fds w' !! fd = Some en → fe_ofd en ≠ OFD_pipe_write
  | Exited _ =>
    w_fds w' !! 4 = None ∧
    ∃ e, w_written w' =
           w_written (child_world [] (Some ENOENT)) ++ [(OFD_pipe_write, e)] ∧
         pse_kind e ∈ child_error_kinds
  | _ => True
  end.
Proof.
  apply (child_pipe_protocol linux_build (missing_program [map_fd 0]) 4 [0]
           (child_world [] (Some ENOENT))).
  - split; [reflexivity|]. intros fd en Hfd Hofd.
    unfold child_world, fresh_world, with_error_pipe, stdio_fds in Hfd. cbn in Hfd.
    repeat (apply lookup_insert_Some in Hfd as [[<- <-]|[_ Hfd]]; [done|]).
    repeat (apply lookup_insert_Some in Hfd as [[<- <-]|[_ Hfd]]; [discriminate Hofd|]).
    apply lookup_singleton_Some in Hfd as [<- <-]. discriminate Hofd.
  - lia.
  - vm_compute. intros H. discriminate H.
  - apply Forall_cons. split; [|apply Forall_nil_2]. intros _. cbn. lia.
  - apply Forall_cons. split; [lia|apply Forall_nil_2].
Defined.

(** ** Parent and child together, in general *)

Lemma reaches_fork_ends B w r wr :
  reaches_fork B w r wr →
  0 ≤ r ∧ 0 < wr ∧ r ≠ wr ∧ w_fds w !! r = None ∧ w_fds w !! wr = None.
Proof.
  intros (_ & Hr & Hwr & _).
  pose proof Hr as Hr'. apply lowest_free_spec in Hr' as [Hr0 Hrn].
  pose proof Hwr as Hwr'. apply lowest_free_spec in Hwr' as [Hw Hwn].
  assert (r ≠ wr) by (intros ->; by rewrite lookup_insert_eq in Hwn).
  rewrite lookup_insert_ne in Hwn by done.
  repeat split; try done; try lia.
  (* the write end lies above the read end *)
  destruct (decide (wr = 0)) as [->|]; [|lia].
  assert (r ≠ 0) by done.
  unfold lowest_free in Hr. clear Hw Hwr.
  destruct (Z.to_nat (o_nofile (w_env w) - 0)) as [|n]; [done|].
  cbn [scan_free] in Hr. rewrite Hwn in Hr. by injection Hr as <-.
Qed.

Lemma sigdelset_written o mask signo w :
  w_written (sigdelset o mask signo w).2 = w_written w.
Proof. unfold sigdelset. by destruct (valid_signal o signo). Qed.

Lemma sys_pthread_sigmask_written o how set w :
  w_written (sys_pthread_sigmask o how set w).2 = w_written w.
Proof. unfold sys_pthread_sigmask. by destruct (_ =? 0). Qed.

Lemma block_signals_written o old w :
  w_written (block_everything_but_something_went_seriously_wrong_signals o old w).2
  = w_written w.
Proof.
  unfold block_everything_but_something_went_seriously_wrong_signals.
  cbv beta iota zeta delta [sigfillset].
  repeat match goal with
  | |- context [sigdelset ?o ?m ?s ?w1] =>
    let H := fresh "H" in
    pose proof (sigdelset_written o m s w1) as H;
    destruct (sigdelset o m s w1) as [[? ?] ?]; cbn [snd] in H
  end.
  match goal with
  | |- context [sys_pthread_sigmask ?o ?h ?m ?w1] =>
    let H := fresh "H" in
    pose proof (sys_pthread_sigmask_written o h m w1) as H;
    destruct (sys_pthread_sigmask o h m w1) as [[? ?] ?]; cbn [snd] in H
  end.
  cbn [snd]. congruence.
Qed.

Section Fork.

Variable B : build.

(** The run up to [fork], when everything before it works. *)
Lemma ps_spawn_process_forks config oe w r wr :
  reaches_fork B w r wr →
  ∃ w5,
    w_fds w5 = forking_fds w r wr ∧ w_env w5 = w_env w ∧
    w_written w5 = w_written w ∧
    ps_spawn_process B config oe w =
    let scratch := replicate (length (psc_fd_setup_instructions config)) 0 in
    let '(pid, w6) := sys_fork w5 in
    if pid =? 0 then
      let '(f, w7) := setup_and_execve_child B config wr scratch w6 in
      (f, oe, w7)
    else
      let '(err, _, w7) :=
        sys_pthread_sigmask (b_os B) (SIG_SETMASK (b_os B)) (w_sigmask w) w6 in
      if c_true err then
        let error := MAKE_PS_ERROR_FROM_ERRNO PS_ERROR_KIND_SIGMASK_THREAD 265 w7 in
        error_cleanup B pid err (r, wr) (store_error oe error) w7
      else
      let '(err, w8) := sys_mutex_unlock w7 in
      if negb (err =? 0) then (Trapped, oe, w8)
      else
      if 0 <? pid then
        let '(_, w9) := sys_close wr w8 in
        read_loop B (o_read (w_env w9)) pid err (r, -1) oe w9
      else
        let error := MAKE_PS_ERROR_FROM_ERRNO PS_ERROR_KIND_FCNTL 312 w8 in
        error_cleanup B 0 err (r, wr) (store_error oe error) w8.
Proof.
  intros Hreach.
  destruct (reaches_fork_ends B w r wr Hreach) as (Hr0 & Hwr0 & Hne & Hrn & Hwn).
  destruct Hreach as (Hpipe & Hr & Hwr & Hfr & Hfw & Hlock & Hblock).
  unfold ps_spawn_process.
  unfold sys_pipe. rewrite Hpipe, Hr, Hwr. cbn [c_true Z.eqb negb fst snd].
  set (w1 := set_fds _ (log SYS_pipe [r; wr] 0 w)).
  unfold sys_fcntl_setfd_cloexec at 1.
  assert (He1 : w_env w1 = w_env w) by done. rewrite He1, Hfr.
  assert (Hg1 : fd_get (w_fds w1) r =
                Some {| fe_ofd := OFD_pipe_read; fe_cloexec := false |}).
  { rewrite fd_get_nonneg by done. subst w1. cbn.
    rewrite lookup_insert_ne by done. apply lookup_insert_eq. }
  rewrite Hg1. cbn [c_true Z.eqb negb fe_ofd].
  set (w2 := set_fds _ (log SYS_fcntl_setfd [r] 0 w1)).
  unfold sys_fcntl_setfd_cloexec at 1.
  assert (He2 : w_env w2 = w_env w) by done. rewrite He2, Hfw.
  assert (Hg2 : fd_get (w_fds w2) wr =
                Some {| fe_ofd := OFD_pipe_write; fe_cloexec := false |}).
  { rewrite fd_get_nonneg by lia. subst w2 w1. cbn.
    rewrite lookup_insert_ne by done. apply lookup_insert_eq. }
  rewrite Hg2. cbn [c_true Z.eqb negb fe_ofd].
  set (w3 := set_fds _ (log SYS_fcntl_setfd [wr] 0 w2)).
  unfold sys_mutex_lock.
  assert (He3 : w_env w3 = w_env w) by done. rewrite He3, Hlock.
  cbn [Z.eqb negb].
  set (w4 := log SYS_mutex_lock [] 0 w3).
  pose proof (block_signals_effect (b_os B) ∅ w4) as H5.
  pose proof (block_signals_written (b_os B) ∅ w4) as Hw5.
  destruct (block_everything_but_something_went_seriously_wrong_signals _ _ w4)
    as [[[err5 old] mask] w5].
  cbv zeta in H5. destruct H5 as (-> & Hf5 & _ & He5 & Ht5 & Hm5).
  assert (He4 : w_env w4 = w_env w) by done.
  rewrite He4, Hblock in Hm5 |- *. cbn in Hm5. subst old.
  cbn [c_true Z.eqb negb].
  exists w5. split; [|split; [congruence|split; [|done]]].
  - rewrite Hf5. subst w4 w3 w2 w1. cbn. unfold forking_fds.
    apply map_eq. intros fd.
    destruct (decide (fd = wr)) as [->|Hfw']; [by rewrite !lookup_insert_eq|].
    rewrite !(lookup_insert_ne _ wr) by done.
    destruct (decide (fd = r)) as [->|Hfr']; [by rewrite !lookup_insert_eq|].
    by rewrite !lookup_insert_ne by done.
  - cbn [snd] in Hw5. by rewrite Hw5.
Qed.

(** A run that did not end as a parent's does got as far as [fork]. *)
Lemma ps_spawn_process_reached_fork config oe w :
  ¬ parent_fate (ps_spawn_process B config oe w).1.1 →
  ∃ r wr, reaches_fork B w r wr.
Proof.
  unfold ps_spawn_process, sys_pipe. intros Hfate.
  destruct (o_pipe (w_env w)) as [e|] eqn:Hpipe.
  { exfalso. apply Hfate. cbn [c_true Z.eqb negb fst snd]. apply error_cleanup_fate. }
  destruct (lowest_free (w_fds w) 0 _) as [r|] eqn:Hr.
  2:{ exfalso. apply Hfate. cbn [c_true Z.eqb negb fst snd]. apply error_cleanup_fate. }
  destruct (lowest_free (<[r:=_]> (w_fds w)) 0 _) as [wr|] eqn:Hwr.
  2:{ exfalso. apply Hfate. cbn [c_true Z.eqb negb fst snd]. apply error_cleanup_fate. }
  cbn [c_true Z.eqb negb fst snd] in Hfate.
  set (w1 := set_fds _ (log SYS_pipe [r; wr] 0 w)) in Hfate.
  unfold sys_fcntl_setfd_cloexec in Hfate at 1.
  assert (He1 : w_env w1 = w_env w) by done. rewrite He1 in Hfate.
  destruct (o_fcntl_setfd (w_env w) r) as [e|] eqn:Hfr.
  { exfalso. apply Hfate. cbn [c_true Z.eqb negb fst snd]. apply error_cleanup_fate. }
  destruct (fd_get (w_fds w1) r) as [en1|].
  2:{ exfalso. apply Hfate. cbn [c_true Z.eqb negb fst snd]. apply error_cleanup_fate. }
  cbn [c_true Z.eqb negb fst snd] in Hfate.
  set (w2 := set_fds _ (log SYS_fcntl_setfd [r] 0 w1)) in Hfate.
  unfold sys_fcntl_setfd_cloexec in Hfate at 1.
  assert (He2 : w_env w2 = w_env w) by done. rewrite He2 in Hfate.
  destruct (o_fcntl_setfd (w_env w) wr) as [e|] eqn:Hfw.
  { exfalso. apply Hfate. cbn [c_true Z.eqb negb fst snd]. apply error_cleanup_fate. }
  destruct (fd_get (w_fds w2) wr) as [en2|].
  2:{ exfalso. apply Hfate. cbn [c_true Z.eqb negb fst snd]. apply error_cleanup_fate. }
  cbn [c_true Z.eqb negb fst snd] in Hfate.
  set (w3 := set_fds _ (log SYS_fcntl_setfd [wr] 0 w2)) in Hfate.
  unfold sys_mutex_lock in Hfate.
  assert (He3 : w_env w3 = w_env w) by done. rewrite He3 in Hfate.
  destruct (Z.eqb_spec (o_mutex_lock (w_env w)) 0) as [Hlock|Hlock];
    cbn [negb] in Hfate; [|exfalso; by apply Hfate].
  set (w4 := log SYS_mutex_lock [] _ w3) in Hfate.
  pose proof (block_signals_effect (b_os B) ∅ w4) as H5.
  destruct (block_everything_but_something_went_seriously_wrong_signals _ _ w4)
    as [[[err5 old] mask] w5].
  cbv zeta in H5. destruct H5 as (-> & _).
  assert (He4 : w_env w4 = w_env w) by done. rewrite He4 in Hfate.
  unfold c_true in Hfate at 1.
  destruct (Z.eqb_spec (o_pthread_sigmask (w_env w) (SIG_BLOCK (b_os B))) 0)
    as [Hblock|Hblock]; cbn [negb] in Hfate.
  2:{ exfalso. apply Hfate. apply error_cleanup_fate. }
  exists r, wr. by repeat split.
Qed.

(** The run of the child. *)
Lemma ps_spawn_process_in_child config oe w r wr :
  reaches_fork B w r wr → (o_fork (w_env w)).1 = 0 →
  ∃ w6,
    w_fds w6 = forking_fds w r wr ∧ w_written w6 = w_written w ∧
    ps_spawn_process B config oe w =
    let '(f, w7) :=
      setup_and_execve_child B config wr
        (replicate (length (psc_fd_setup_instructions config)) 0) w6 in
    (f, oe, w7).
Proof.
  intros Hreach Hfork.
  destruct (ps_spawn_process_forks config oe w r wr Hreach)
    as (w5 & Hf5 & He5 & Hw5 & ->).
  cbv zeta. unfold sys_fork. rewrite He5, Hfork. cbn [Z.ltb Z.compare Z.eqb].
  eexists. split; [|split; [|reflexivity]]; done.
Qed.

(** The run of the parent up to its first [read]. *)
Lemma ps_spawn_process_in_parent config oe w r wr :
  reaches_fork B w r wr → 0 < (o_fork (w_env w)).1 →
  o_pthread_sigmask (w_env w) (SIG_SETMASK (b_os B)) = 0 →
  o_mutex_unlock (w_env w) = 0 →
  ∃ w9,
    w_fds w9 = <[r := pipe_read_end]> (w_fds w) ∧ w_env w9 = w_env w ∧
    ps_spawn_process B config oe w =
    read_loop B (o_read (w_env w)) (o_fork (w_env w)).1 0 (r, -1) oe w9.
Proof.
  intros Hreach Hfork Hrestore Hunlock.
  destruct (reaches_fork_ends B w r wr Hreach) as (Hr0 & Hwr0 & Hne & Hrn & Hwn).
  destruct (ps_spawn_process_forks config oe w r wr Hreach)
    as (w5 & Hf5 & He5 & Hw5 & ->).
  cbv zeta. unfold sys_fork. rewrite He5.
  rewrite (proj2 (Z.ltb_ge (o_fork (w_env w)).1 0)) by lia.
  rewrite (proj2 (Z.eqb_neq (o_fork (w_env w)).1 0)) by lia.
  set (w6 := log SYS_fork [] _ w5).
  unfold sys_pthread_sigmask.
  assert (He6 : w_env w6 = w_env w) by done. rewrite He6, Hrestore.
  cbn [Z.eqb c_true negb].
  set (w7 := set_sigmask _ _).
  unfold sys_mutex_unlock.
  assert (He7 : w_env w7 = w_env w) by done. rewrite He7, Hunlock.
  cbn [Z.eqb negb].
  rewrite (proj2 (Z.ltb_lt 0 (o_fork (w_env w)).1)) by lia.
  set (w8 := log SYS_mutex_unlock [] 0 w7).
  assert (Hf8 : w_fds w8 = forking_fds w r wr) by done.
  unfold sys_close.
  rewrite fd_get_nonneg, Hf8 by lia. unfold forking_fds at 1.
  rewrite lookup_insert_eq.
  set (w9 := set_fds _ (log SYS_close [wr] 0 w8)).
  assert (He9 : w_env w9 = w_env w) by done. rewrite He9.
  exists w9. split; [|done].
  subst w9. cbn [set_fds w_fds]. unfold forking_fds.
  rewrite delete_insert_id; [done|]. by rewrite lookup_insert_ne.
Qed.

(** The parent reads end-of-file. *)
Lemma read_loop_eof pid err r oe w rest :
  0 ≤ r →
  ∃ w', read_loop B (eof :: rest) pid err (r, -1) oe w = (Returned pid, oe, w') ∧
        w_fds w' = delete r (w_fds w).
Proof.
  intros Hr. cbn [read_loop fst]. unfold sys_read. cbn [eof rd_res Z.ltb Z.compare Z.eqb].
  destruct (sys_close_fds r (log SYS_read [r] 0 w)) as [Hf _].
  destruct (sys_close r _) as [? w']. cbn [snd] in Hf.
  exists w'. split; [done|]. rewrite Hf, (proj2 (Z.ltb_ge r 0)) by done. done.
Qed.

(** The parent reads a record and reaps the child. *)
Lemma read_loop_record pid err r oe w e rest p x waits :
  0 ≤ r → 0 < pid → pse_kind e ≠ 0 →
  o_waitpid (w_env w) = (p, x) :: waits → 0 < p →
  ∃ w', read_loop B (full_read e :: rest) pid err (r, -1) oe w =
          (Returned 0, store_error oe e, w') ∧
        w_fds w' = delete r (w_fds w).
Proof.
  intros Hr Hpid Hkind Hwaits Hp. cbn [read_loop fst]. unfold sys_read.
  cbn [full_read rd_res rd_data]. change (sizeof_ps_error <? 0) with false.
  cbv iota beta.
  change (sizeof_ps_error =? 0) with false. change (0 <? sizeof_ps_error) with true.
  rewrite Z.eqb_refl. cbn [negb].
  unfold error_cleanup. rewrite (proj2 (Z.ltb_lt 0 pid)) by done.
  cbn [w_env log]. rewrite Hwaits. cbn [waitpid_loop]. unfold sys_waitpid.
  cbn [fst]. rewrite (proj2 (Z.ltb_ge p 0)) by lia.
  rewrite (proj2 (Z.ltb_lt 0 p)) by done. cbn [fst snd].
  rewrite (proj2 (Z.eqb_neq r (-1))) by lia. cbn [negb Z.eqb].
  match goal with |- context [sys_close r ?w1] =>
    destruct (sys_close_fds r w1) as [Hf _]; destruct (sys_close r w1) as [? w'] end.
  cbn [snd] in *. exists w'. split.
  - destruct oe as [e0|]; cbn [store_error]; [|done].
    by rewrite (proj2 (Z.eqb_neq (pse_kind e) 0)) by done.
  - rewrite Hf, (proj2 (Z.ltb_ge r 0)) by done. done.
Qed.

End Fork.

Lemma forking_fds_sole w r wr :
  (∀ fd en, w_fds w !! fd = Some en → fe_ofd en ≠ OFD_pipe_write) → r ≠ wr →
  sole_write_end wr (forking_fds w r wr).
Proof.
  intros Hnone Hne. unfold forking_fds. split; [apply lookup_insert_eq|].
  intros fd en Hfd Hofd.
  destruct (decide (fd = wr)) as [->|Hw]; [done|].
  rewrite lookup_insert_ne in Hfd by done.
  destruct (decide (fd = r)) as [->|Hr].
  - rewrite lookup_insert_eq in Hfd. injection Hfd as <-. discriminate Hofd.
  - rewrite lookup_insert_ne in Hfd by done. by apply Hnone in Hfd.
Qed.

Lemma holds_write_end_false t :
  (∀ fd en, t !! fd = Some en → fe_ofd en ≠ OFD_pipe_write) →
  holds_write_end t = false.
Proof.
  intros Hnone. unfold holds_write_end. apply bool_decide_eq_false.
  rewrite Exists_exists. intros ([fd en] & Hin & Hofd).
  apply elem_of_map_to_list in Hin. by apply Hnone in Hin.
Qed.

Lemma child_error_kind_nonzero e : pse_kind e ∈ child_error_kinds → pse_kind e ≠ 0.
Proof.
  intros Hk E. rewrite E in Hk. unfold child_error_kinds in Hk.
  repeat (apply elem_of_cons in Hk as [Hk|Hk]; [discriminate Hk|]).
  by apply elem_of_nil in Hk.
Qed.

Lemma never_maps_fresh (t : gmap Z fd_entry) fd instructions :
  t !! fd = None →
  Forall (λ setup, psfd_kind setup = PS_MAP_FD → is_Some (t !! psfd_parent_fd setup))
         instructions →
  never_maps fd instructions.
Proof.
  intros Hfd Hopen. eapply Forall_impl; [done|]. cbn.
  intros setup Hs Hkind E. apply Hs in Hkind as [en Hen]. by rewrite E, Hfd in Hen.
Qed.

Section Composition.

Variable B : build.

(** What the child of [spawn_both] does, when it got as far as its own
    code and the caller kept to the rules: the write end of the pipe is at
    or above the count and every mapped descriptor was open at the call. *)
Lemma spawn_both_child config oe w r wr f oc wc :
  ps_spawn_process B config oe
    (in_env (with_fork_read (0, 0) [] (w_env w)) w) = (f, oc, wc) →
  ¬ parent_fate f →
  (∀ fd en, w_fds w !! fd = Some en → fe_ofd en ≠ OFD_pipe_write) →
  Forall (λ setup, psfd_kind setup = PS_MAP_FD →
                   is_Some (w_fds w !! psfd_parent_fd setup))
         (psc_fd_setup_instructions config) →
  (sys_pipe (-1, -1) w).1.2 = (r, wr) →
  psc_fd_setup_count config ≤ wr →
  reaches_fork B w r wr ∧
  match f with
  | Execed =>
    w_written wc = w_written w ∧
    ∀ fd en, w_fds wc !! fd = Some en → fe_ofd en ≠ OFD_pipe_write
  | Exited _ =>
    ∃ e, w_written wc = w_written w ++ [(OFD_pipe_write, e)] ∧
         pse_kind e ∈ child_error_kinds
  | _ => True
  end.
Proof.
  intros Hc Hfate Hnone Hopen Hpipe Hcount.
  set (wc0 := in_env _ w) in Hc.
  destruct (ps_spawn_process_reached_fork B config oe wc0) as (r' & wr' & Hreach0).
  { by rewrite Hc. }
  assert (Hreach : reaches_fork B w r' wr') by exact Hreach0.
  assert (r' = r ∧ wr' = wr) as [-> ->].
  { destruct Hreach as (Hp & Hr & Hwr & _). unfold sys_pipe in Hpipe.
    rewrite Hp, Hr, Hwr in Hpipe. by injection Hpipe as <- <-. }
  split; [done|].
  destruct (reaches_fork_ends B w r wr Hreach) as (Hr0 & Hwr0 & Hne & Hrn & Hwn).
  destruct (ps_spawn_process_in_child B config oe wc0 r wr Hreach0 eq_refl)
    as (w6 & Hf6 & Hw6 & Heq).
  rewrite Heq in Hc.
  pose proof (child_pipe_outcome B config wr
                (replicate (length (psc_fd_setup_instructions config)) 0) w6) as Hout.
  destruct (setup_and_execve_child B config wr _ w6) as [f' w7].
  injection Hc as -> _ ->.
  assert (Hw6' : w_written w6 = w_written w) by exact Hw6.
  rewrite Hw6' in Hout.
  assert (Hgoal : match f with
                  | Execed =>
                    w_written wc = w_written w ∧
                    ∀ fd en, w_fds wc !! fd = Some en → fe_ofd en ≠ OFD_pipe_write
                  | Exited _ =>
                    w_fds wc !! wr = None ∧
                    ∃ e, w_written wc = w_written w ++ [(OFD_pipe_write, e)] ∧
                         pse_kind e ∈ child_error_kinds
                  | _ => True
                  end).
  { apply Hout; [|done|done| |].
    - rewrite Hf6. by apply (forking_fds_sole w).
    - by eapply never_maps_fresh.
    - apply Forall_replicate. lia. }
  destruct f; try done. by destruct Hgoal as [_ ?].
Qed.

(** The two processes together, when the child execs.  For a caller that
    holds no descriptor of a pipe's write end of its own, maps only
    descriptors that are open, and whose pipe lands at or above the count:
    if the child got to [execve] and that worked, the parent reads
    end-of-file and [ps_spawn_process] returns the pid of the child, with
    [*out_error] and the parent's descriptors as they were. *)
Theorem spawn_returns_pid_when_child_execs config oe pid w r wr wc pr :
  spawn_both B config oe pid w = ((Execed, wc), pr) →
  0 < pid →
  (∀ fd en, w_fds w !! fd = Some en → fe_ofd en ≠ OFD_pipe_write) →
  pipe_records (w_written w) = [] →
  Forall (λ setup, psfd_kind setup = PS_MAP_FD →
                   is_Some (w_fds w !! psfd_parent_fd setup))
         (psc_fd_setup_instructions config) →
  (sys_pipe (-1, -1) w).1.2 = (r, wr) →
  psc_fd_setup_count config ≤ wr →
  o_pthread_sigmask (w_env w) (SIG_SETMASK (b_os B)) = 0 →
  o_mutex_unlock (w_env w) = 0 →
  ∃ wp, pr = (Returned pid, oe, wp) ∧ w_fds wp = w_fds w.
Proof.
  intros Hboth Hpid Hnone Hrecords Hopen Hpipe Hcount Hrestore Hunlock.
  unfold spawn_both in Hboth.
  destruct (ps_spawn_process B config oe (in_env _ w)) as [[fc oc] wc'] eqn:Hc.
  injection Hboth as -> -> <-.
  destruct (spawn_both_child config oe w r wr Execed oc wc Hc) as [Hreach [Hw Hfds]];
    try done; [by intros []|].
  destruct (reaches_fork_ends B w r wr Hreach) as (Hr0 & Hwr0 & Hne & Hrn & Hwn).
  assert (Hreads : parent_reads Execed wc = [eof]).
  { unfold parent_reads. by rewrite Hw, Hrecords, holds_write_end_false. }
  rewrite Hreads.
  set (wp0 := in_env _ w).
  destruct (ps_spawn_process_in_parent B config oe wp0 r wr)
    as (w9 & Hf9 & He9 & ->); [exact Hreach|exact Hpid|exact Hrestore|exact Hunlock|].
  destruct (read_loop_eof B pid 0 r oe w9 [] Hr0) as (wp & Hrun & Hfp).
  exists wp. split; [exact Hrun|].
  rewrite Hfp, Hf9. by apply delete_insert_id.
Qed.

(** The two processes together, when the child fails.  For the same
    caller: if the child ended in [_exit], it wrote one record, of a kind of
    the child, and once the parent's [waitpid] has reaped the child
    [ps_spawn_process] returns 0 with that record in [*out_error], and the
    parent's descriptors as they were. *)
Theorem spawn_returns_child_record config oe pid w r wr status wc pr p x waits :
  spawn_both B config oe pid w = ((Exited status, wc), pr) →
  0 < pid →
  (∀ fd en, w_fds w !! fd = Some en → fe_ofd en ≠ OFD_pipe_write) →
  pipe_records (w_written w) = [] →
  Forall (λ setup, psfd_kind setup = PS_MAP_FD →
                   is_Some (w_fds w !! psfd_parent_fd setup))
         (psc_fd_setup_instructions config) →
  (sys_pipe (-1, -1) w).1.2 = (r, wr) →
  psc_fd_setup_count config ≤ wr →
  o_pthread_sigmask (w_env w) (SIG_SETMASK (b_os B)) = 0 →
  o_mutex_unlock (w_env w) = 0 →
  o_waitpid (w_env w) = (p, x) :: waits → 0 < p →
  ∃ e wp, pipe_records (w_written wc) = [e] ∧ pse_kind e ∈ child_error_kinds ∧
          pr = (Returned 0, store_error oe e, wp) ∧ w_fds wp = w_fds w.
Proof.
  intros Hboth Hpid Hnone Hrecords Hopen Hpipe Hcount Hrestore Hunlock Hwaits Hp.
  unfold spawn_both in Hboth.
  destruct (ps_spawn_process B config oe (in_env _ w)) as [[fc oc] wc'] eqn:Hc.
  injection Hboth as -> -> <-.
  destruct (spawn_both_child config oe w r wr (Exited status) oc wc Hc)
    as [Hreach (e & Hw & Hkind)]; try done; [by intros []|].
  destruct (reaches_fork_ends B w r wr Hreach) as (Hr0 & Hwr0 & Hne & Hrn & Hwn).
  assert (Hrec : pipe_records (w_written wc) = [e]).
  { unfold pipe_records in *. rewrite Hw, omap_app, Hrecords. cbn.
    by rewrite decide_True. }
  assert (Hreads : parent_reads (Exited status) wc = [full_read e; eof]).
  { unfold parent_reads. by rewrite Hrec. }
  rewrite Hreads.
  set (wp0 := in_env _ w).
  destruct (ps_spawn_process_in_parent B config oe wp0 r wr)
    as (w9 & Hf9 & He9 & ->); [exact Hreach|exact Hpid|exact Hrestore|exact Hunlock|].
  destruct (read_loop_record B pid 0 r oe w9 e [eof] p x waits)
    as (wp & Hrun & Hfp); [done|done|by apply child_error_kind_nonzero| |done|].
  { rewrite He9. exact Hwaits. }
  exists e, wp. split; [done|]. split; [done|]. split; [exact Hrun|].
  rewrite Hfp, Hf9. by apply delete_insert_id.
Qed.

End Composition.

Lemma stdio_fds_no_write_end fd en :
  stdio_fds !! fd = Some en → fe_ofd en ≠ OFD_pipe_write.
Proof.
  unfold stdio_fds. intros Hfd Hofd.
  repeat (apply lookup_insert_Some in Hfd as [[<- <-]|[_ Hfd]]; [discriminate Hofd|]).
  apply lookup_singleton_Some in Hfd as [<- <-]. discriminate Hofd.
Qed.

Lemma spawn_returns_pid_when_child_execs_witness :
  let w := fresh_world stdio_fds (scripted (42, 0) [] [] [] None) in
  let config := run_true [map_fd 0; map_fd 2; map_fd 1] in
  ∃ wp, (spawn_both linux_build config (Some stale_error) 42 w).2 =
          (Returned 42, Some stale_error, wp) ∧
        w_fds wp = w_fds w.
Proof.
  intros w config.
  apply (spawn_returns_pid_when_child_execs linux_build config (Some stale_error)
           42 w 3 4 (spawn_both linux_build config (Some stale_error) 42 w).1.2).
  - vm_compute. reflexivity.
  - lia.
  - apply stdio_fds_no_write_end.
  - reflexivity.
  - repeat (apply Forall_cons; split; [intros _; vm_compute; by eexists|]).
    apply Forall_nil_2.
  - vm_compute. reflexivity.
  - vm_compute. intros H. discriminate H.
  - reflexivity.
  - reflexivity.
Defined.

Lemma spawn_returns_child_record_witness :
  let w := fresh_world stdio_fds (scripted (42, 0) [] [(42, 0)] [] (Some ENOENT)) in
  let config := missing_program [map_fd 0] in
  ∃ e wp,
    pipe_records
      (w_written (spawn_both linux_build config (Some ps_error_zero) 42 w).1.2) = [e] ∧
    pse_kind e ∈ child_error_kinds ∧
    (spawn_both linux_build config (Some ps_error_zero) 42 w).2 =
      (Returned 0, store_error (Some ps_error_zero) e, wp) ∧
    w_fds wp = w_fds w.
Proof.
  intros w config.
  apply (spawn_returns_child_record linux_build config (Some ps_error_zero)
           42 w 3 4 253 (spawn_both linux_build config (Some ps_error_zero) 42 w).1.2
           (spawn_both linux_build config (Some ps_error_zero) 42 w).2 42 0 []).
  - vm_compute. reflexivity.
  - lia.
  - apply stdio_fds_no_write_end.
  - reflexivity.
  - repeat (apply Forall_cons; split; [intros _; vm_compute; by eexists|]).
    apply Forall_nil_2.
  - vm_compute. reflexivity.
  - vm_compute. intros H. discriminate H.
  - reflexivity.
  - reflexivity.
  - reflexivity.
  - lia.
Defined.

(** ** The outcome of a call: success and failure *)

Section Outcome.

Variable B : build.

(** Where a run ends that does not get as far as [fork]. *)
Lemma ps_spawn_process_before_fork config oe w :
  (∃ r wr, reaches_fork B w r wr) ∨
  (o_mutex_lock (w_env w) ≠ 0 ∧
   ∃ w1, ps_spawn_process B config oe w = (Trapped, oe, w1)) ∨
  (∃ err fds error w1,
     ps_spawn_process B config oe w =
       error_cleanup B (-1) err fds (store_error oe error) w1 ∧
     pse_kind error ≠ 0).
Proof.
  remember (ps_spawn_process B config oe w) as run eqn:Hrun.
  unfold ps_spawn_process, sys_pipe in Hrun. cbv zeta in Hrun.
  destruct (o_pipe (w_env w)) as [e|] eqn:Hpipe.
  { right; right. cbn [c_true Z.eqb negb fst snd] in Hrun.
    eexists _, _, _, _. split; [exact Hrun|done]. }
  destruct (lowest_free (w_fds w) 0 _) as [r|] eqn:Hr.
  2:{ right; right. cbn [c_true Z.eqb negb fst snd] in Hrun.
      eexists _, _, _, _. split; [exact Hrun|done]. }
  destruct (lowest_free (<[r:=_]> (w_fds w)) 0 _) as [wr|] eqn:Hwr.
  2:{ right; right. cbn [c_true Z.eqb negb fst snd] in Hrun.
      eexists _, _, _, _. split; [exact Hrun|done]. }
  cbn [c_true Z.eqb negb fst snd] in Hrun.
  set (w1 := set_fds _ (log SYS_pipe [r; wr] 0 w)) in Hrun.
  unfold sys_fcntl_setfd_cloexec in Hrun at 1.
  assert (He1 : w_env w1 = w_env w) by done. rewrite He1 in Hrun.
  destruct (o_fcntl_setfd (w_env w) r) as [e|] eqn:Hfr.
  { right; right. cbn [c_true Z.eqb negb fst snd] in Hrun.
    eexists _, _, _, _. split; [exact Hrun|done]. }
  destruct (fd_get (w_fds w1) r) as [en1|].
  2:{ right; right. cbn [c_true Z.eqb negb fst snd] in Hrun.
      eexists _, _, _, _. split; [exact Hrun|done]. }
  cbn [c_true Z.eqb negb fst snd] in Hrun.
  set (w2 := set_fds _ (log SYS_fcntl_setfd [r] 0 w1)) in Hrun.
  unfold sys_fcntl_setfd_cloexec in Hrun at 1.
  assert (He2 : w_env w2 = w_env w) by done. rewrite He2 in Hrun.
  destruct (o_fcntl_setfd (w_env w) wr) as [e|] eqn:Hfw.
  { right; right. cbn [c_true Z.eqb negb fst snd] in Hrun.
    eexists _, _, _, _. split; [exact Hrun|done]. }
  destruct (fd_get (w_fds w2) wr) as [en2|].
  2:{ right; right. cbn [c_true Z.eqb negb fst snd] in Hrun.
      eexists _, _, _, _. split; [exact Hrun|done]. }
  cbn [c_true Z.eqb negb fst snd] in Hrun.
  set (w3 := set_fds _ (log SYS_fcntl_setfd [wr] 0 w2)) in Hrun.
  unfold sys_mutex_lock in Hrun.
  assert (He3 : w_env w3 = w_env w) by done. rewrite He3 in Hrun.
  destruct (Z.eqb_spec (o_mutex_lock (w_env w)) 0) as [Hlock|Hlock];
    cbn [negb] in Hrun.
  2:{ right; left. split; [done|]. by eexists. }
  set (w4 := log SYS_mutex_lock [] _ w3) in Hrun.
  pose proof (block_signals_effect (b_os B) ∅ w4) as H5.
  destruct (block_everything_but_something_went_seriously_wrong_signals _ _ w4)
    as [[[err5 old] mask] w5].
  cbv zeta in H5. destruct H5 as (-> & _).
  assert (He4 : w_env w4 = w_env w) by done. rewrite He4 in Hrun.
  unfold c_true in Hrun at 1.
  destruct (Z.eqb_spec (o_pthread_sigmask (w_env w) (SIG_BLOCK (b_os B))) 0)
    as [Hblock|Hblock]; cbn [negb] in Hrun.
  2:{ right; right. eexists _, _, _, _. split; [exact Hrun|done]. }
  left. exists r, wr. by repeat split.
Qed.

(** Where the run of a parent ends once it has called [fork]. *)
Lemma ps_spawn_process_after_fork config oe w r wr :
  reaches_fork B w r wr → (o_fork (w_env w)).1 ≠ 0 →
  let env := w_env w in
  let run := ps_spawn_process B config oe w in
  (o_pthread_sigmask env (SIG_SETMASK (b_os B)) ≠ 0 ∧
   ∃ err error w7, run = error_cleanup B (o_fork env).1 err (r, wr)
                           (store_error oe error) w7 ∧
                   pse_kind error ≠ 0 ∧ w_env w7 = env) ∨
  (o_pthread_sigmask env (SIG_SETMASK (b_os B)) = 0 ∧ o_mutex_unlock env ≠ 0 ∧
   ∃ w8, run = (Trapped, oe, w8)) ∨
  (o_pthread_sigmask env (SIG_SETMASK (b_os B)) = 0 ∧ o_mutex_unlock env = 0 ∧
   (o_fork env).1 < 0 ∧
   ∃ err error w8, run = error_cleanup B 0 err (r, wr) (store_error oe error) w8 ∧
                   pse_kind error ≠ 0) ∨
  (o_pthread_sigmask env (SIG_SETMASK (b_os B)) = 0 ∧ o_mutex_unlock env = 0 ∧
   0 < (o_fork env).1 ∧
   ∃ w9, run = read_loop B (o_read env) (o_fork env).1 0 (r, -1) oe w9 ∧
         w_env w9 = env).
Proof.
  intros Hreach Hfork env run. subst env run.
  destruct (ps_spawn_process_forks B config oe w r wr Hreach)
    as (w5 & Hf5 & He5 & Hw5 & ->).
  cbv zeta.
  pose proof (sys_fork_effect w5) as H6.
  destruct (sys_fork w5) as [pid w6].
  destruct H6 as ((He6 & _) & _ & -> & _). rewrite He5 in *.
  rewrite (proj2 (Z.eqb_neq (o_fork (w_env w)).1 0)) by done.
  pose proof (sys_pthread_sigmask_restore (b_os B) (w_sigmask w) w6) as H7.
  destruct (sys_pthread_sigmask _ _ _ w6) as [[err7 ?] w7].
  destruct H7 as (-> & He7 & _). rewrite He6 in *.
  unfold c_true.
  destruct (Z.eqb_spec (o_pthread_sigmask (w_env w) (SIG_SETMASK (b_os B))) 0)
    as [Hrestore|Hrestore]; cbn [negb].
  2:{ left. split; [done|]. eexists _, _, _. split; [reflexivity|]. done. }
  right. unfold sys_mutex_unlock. rewrite He7.
  destruct (Z.eqb_spec (o_mutex_unlock (w_env w)) 0) as [Hunlock|Hunlock];
    cbn [negb].
  2:{ left. split; [done|]. split; [done|]. by eexists. }
  right. rewrite Hunlock.
  set (w8 := log SYS_mutex_unlock [] 0 w7).
  assert (He8 : w_env w8 = w_env w) by done.
  destruct (Z.ltb_spec 0 (o_fork (w_env w)).1) as [Hpid|Hpid].
  - right. split; [done|]. split; [done|]. split; [done|].
    destruct (sys_close_effect wr w8) as (_ & _ & He9 & _).
    destruct (sys_close wr w8) as [? w9]. cbn [snd fst] in *.
    exists w9. rewrite He9, He8. done.
  - left. split; [done|]. split; [done|]. split; [lia|].
    eexists _, _, _. split; [reflexivity|]. done.
Qed.

(** A jump to [error_cleanup] comes back with 0 when there is no child to
    wait for, or [waitpid] returns it at once. *)
Lemma error_cleanup_comes_back pid err fds e w :
  (0 < pid → reaps_at_once (w_env w)) → pse_kind e ≠ 0 →
  ∃ w', error_cleanup B pid err fds (Some e) w = (Returned 0, Some e, w').
Proof.
  intros Hreap Hkind. unfold error_cleanup.
  destruct (Z.ltb_spec 0 pid) as [Hpid|Hpid].
  - destruct (Hreap Hpid) as (p & x & waits & -> & Hp).
    cbn [waitpid_loop]. unfold sys_waitpid. cbn [fst snd].
    rewrite (proj2 (Z.ltb_ge p 0)) by lia.
    rewrite (proj2 (Z.ltb_lt 0 p)) by done.
    rewrite (proj2 (Z.eqb_neq (pse_kind e) 0)) by done. cbn [negb].
    by eexists.
  - rewrite (proj2 (Z.eqb_neq (pse_kind e) 0)) by done. cbn [negb].
    by eexists.
Qed.

Lemma sys_read_answer fd r w :
  (sys_read fd r w).1 = rd_res r ∧ w_env (sys_read fd r w).2 = w_env w.
Proof. unfold sys_read. by destruct (rd_res r <? 0). Qed.

(** The read loop skips the reads that fail and returns the pid at
    end-of-file. *)
Lemma read_loop_end_of_file script pid err fds oe w :
  reads_end_of_file script →
  ∃ w', read_loop B script pid err fds oe w = (Returned pid, oe, w').
Proof.
  intros (failed & r & rest & -> & Hall & Hr). revert w.
  induction Hall as [|r0 failed Hr0 _ IH]; intros w; cbn [app read_loop].
  - destruct (sys_read_answer fds.1 r w) as [Ha _].
    destruct (sys_read fds.1 r w) as [read_res w1]. cbn [fst] in Ha. subst read_res.
    rewrite Hr. cbn [Z.eqb].
    destruct (sys_close fds.1 w1). by eexists.
  - destruct (sys_read_answer fds.1 r0 w) as [Ha _].
    destruct (sys_read fds.1 r0 w) as [read_res w1]. cbn [fst] in Ha. subst read_res.
    rewrite (proj2 (Z.eqb_neq (rd_res r0) 0)) by lia.
    rewrite (proj2 (Z.ltb_ge 0 (rd_res r0))) by lia.
    apply IH.
Qed.

(** The read loop returns a pid at end-of-file only. *)
Lemma read_loop_pid script pid err fd0 fd1 oe w p oe' w' :
  read_loop B script pid err (fd0, fd1) oe w = (Returned p, oe', w') → 0 < p →
  reads_end_of_file script.
Proof.
  intros Hrun Hp. revert w Hrun.
  induction script as [|r script IH]; intros w Hrun; [done|].
  cbn [read_loop] in Hrun.
  destruct (sys_read_answer (fd0, fd1).1 r w) as [Ha _].
  destruct (sys_read (fd0, fd1).1 r w) as [read_res w1]. cbn [fst] in Ha.
  subst read_res.
  destruct (Z.eqb_spec (rd_res r) 0) as [Hz|Hz].
  { by exists [], r, script. }
  destruct (Z.ltb_spec 0 (rd_res r)) as [Hpos|Hneg].
  - destruct (negb _); [done|].
    apply error_cleanup_frame in Hrun as [-> _]. lia.
  - apply IH in Hrun as (failed & r' & rest & -> & Hall & Hr').
    exists (r :: failed), r', rest. split; [done|]. split; [|done].
    apply Forall_cons. split; [lia|done].
Qed.

(** The read loop comes back with 0 and the record when the first read that
    does not fail delivers one. *)
Lemma read_loop_comes_back script pid err fds e w :
  ¬ reads_end_of_file script → reads_whole_records script →
  0 < pid → reaps_at_once (w_env w) →
  ∃ e' w', read_loop B script pid err fds (Some e) w = (Returned 0, Some e', w') ∧
           pse_kind e' ≠ 0.
Proof.
  intros Hno [(r0 & Hin & Hr0) Hwhole] Hpid. revert w.
  induction script as [|r script IH]; intros w Hreap.
  { by apply elem_of_nil in Hin. }
  cbn [read_loop].
  destruct (sys_read_answer fds.1 r w) as [Ha He].
  destruct (sys_read fds.1 r w) as [read_res w1]. cbn [fst snd] in Ha, He.
  subst read_res.
  destruct (Z.eqb_spec (rd_res r) 0) as [Hz|Hz].
  { exfalso. apply Hno. by exists [], r, script. }
  destruct (Z.ltb_spec 0 (rd_res r)) as [Hpos|Hneg].
  - destruct (Hwhole r) as [Hsize Hkind]; [by left|done|].
    rewrite Hsize, Z.eqb_refl. cbn [negb store_error].
    destruct (error_cleanup_comes_back pid err fds (rd_data r) w1) as [w' Hw'];
      [by rewrite He|done|].
    exists (rd_data r), w'. by rewrite Hw'.
  - apply IH.
    + intros (failed & r' & rest & -> & Hall & Hr'). apply Hno.
      exists (r :: failed), r', rest. split; [done|]. split; [|done].
      apply Forall_cons. split; [lia|done].
    + apply elem_of_cons in Hin as [->|Hin]; [lia|done].
    + intros r' Hr'. apply Hwhole. by right.
    + by rewrite He.
Qed.

(** A call that returns a pid met with success. *)
Lemma ps_spawn_process_pid config oe w p oe' w' :
  ps_spawn_process B config oe w = (Returned p, oe', w') → 0 < p →
  parent_succeeds B w.
Proof.
  intros Hrun Hp.
  destruct (ps_spawn_process_before_fork config oe w)
    as [(r & wr & Hreach)|[(_ & w1 & H)|(err & fds & error & w1 & H & _)]].
  - destruct (decide ((o_fork (w_env w)).1 = 0)) as [Hchild|Hparent].
    { destruct (ps_spawn_process_in_child B config oe w r wr Hreach Hchild)
        as (w6 & _ & _ & H).
      rewrite H in Hrun.
      pose proof (setup_and_execve_child_fate B config wr
        (replicate (length (psc_fd_setup_instructions config)) 0) w6) as Hf.
      destruct (setup_and_execve_child _ _ _ _ _) as [f w7].
      injection Hrun as -> _ _. done. }
    destruct (ps_spawn_process_after_fork config oe w r wr Hreach Hparent)
      as [(_ & err & error & w7 & H & _)|[(_ & _ & w8 & H)|
          [(_ & _ & _ & err & error & w8 & H & _)|
           (Hrestore & Hunlock & Hfork & w9 & H & _)]]];
      rewrite H in Hrun.
    + apply error_cleanup_frame in Hrun as [-> _]. lia.
    + done.
    + apply error_cleanup_frame in Hrun as [-> _]. lia.
    + apply read_loop_pid in Hrun; [|done].
      split; [by exists r, wr|]. done.
  - rewrite H in Hrun. done.
  - rewrite H in Hrun. destruct fds.
    apply error_cleanup_frame in Hrun as [-> _]. lia.
Qed.

(** A call that is not the child's ends as a parent's does. *)
Lemma ps_spawn_process_parent_fate config oe w :
  (o_fork (w_env w)).1 ≠ 0 → parent_fate (ps_spawn_process B config oe w).1.1.
Proof.
  intros Hparent.
  destruct (ps_spawn_process_before_fork config oe w)
    as [(r & wr & Hreach)|[(_ & w1 & ->)|(err & fds & error & w1 & -> & _)]];
    [|done|apply error_cleanup_fate].
  destruct (ps_spawn_process_after_fork config oe w r wr Hreach Hparent)
    as [(_ & err & error & w7 & -> & _)|[(_ & _ & w8 & ->)|
        [(_ & _ & _ & err & error & w8 & -> & _)|
         (_ & _ & _ & w9 & -> & _)]]];
    [apply error_cleanup_fate|done|apply error_cleanup_fate|apply read_loop_fate].
Qed.

(** A call that meets with failure in a cooperative environment returns 0. *)
Lemma ps_spawn_process_comes_back config e w :
  ¬ parent_succeeds B w → (o_fork (w_env w)).1 ≠ 0 → cooperative (w_env w) →
  ∃ e' w', ps_spawn_process B config (Some e) w = (Returned 0, Some e', w') ∧
           pse_kind e' ≠ 0.
Proof.
  intros Hfails Hparent (Hlock & Hunlock & Hreap & Hreads).
  destruct (ps_spawn_process_before_fork config (Some e) w)
    as [(r & wr & Hreach)|[(Hl & _)|(err & fds & error & w1 & -> & Hkind)]];
    [|done|].
  2:{ cbn [store_error].
      destruct (error_cleanup_comes_back (-1) err fds error w1) as [w' ->];
        [lia|done|]. by eexists _, _. }
  destruct (ps_spawn_process_after_fork config (Some e) w r wr Hreach Hparent)
    as [(_ & err & error & w7 & -> & Hkind & He7)|[(_ & Hu & _)|
        [(_ & _ & Hfork & err & error & w8 & -> & Hkind)|
         (Hrestore & _ & Hfork & w9 & -> & He9)]]]; [| done | |].
  - cbn [store_error].
    destruct (error_cleanup_comes_back (o_fork (w_env w)).1 err (r, wr) error w7)
      as [w' ->]; [by rewrite He7|done|]. by eexists _, _.
  - cbn [store_error].
    destruct (error_cleanup_comes_back 0 err (r, wr) error w8) as [w' ->];
      [lia|done|]. by eexists _, _.
  - apply read_loop_comes_back; [|done|done|by rewrite He9].
    intros Heof. apply Hfails. split; [by exists r, wr|]. done.
Qed.

(** C1, as the code has it.  A call of [ps_spawn_process] with a valid
    [out_error] succeeds when [pipe], both [fcntl] calls, the lock and the
    mask helper work, [fork] answers the pid of a child, the mask is
    restored and the lock released, and the first [read] on the error pipe
    that does not fail reports end-of-file.  A call returns a pid greater
    than 0 exactly when it succeeds; it then returns the pid [fork]
    answered and has left [*out_error] exactly as the caller passed it.  A
    call that fails, in the calling process, never returns a pid: when it
    returns, it returns 0 and [*out_error] has a non-zero kind; it may also
    trap or never come back; it does return 0 when the environment is
    cooperative. *)
Theorem ps_spawn_process_result config e w :
  let env := w_env w in
  let run := ps_spawn_process B config (Some e) w in
  (parent_succeeds B w ↔ ∃ p oe w', run = (Returned p, oe, w') ∧ 0 < p) ∧
  (parent_succeeds B w →
   0 < (o_fork env).1 ∧ ∃ w', run = (Returned (o_fork env).1, Some e, w')) ∧
  (¬ parent_succeeds B w → (o_fork env).1 ≠ 0 →
   match run with
   | (Returned p, oe, _) => p = 0 ∧ ∃ e', oe = Some e' ∧ pse_kind e' ≠ 0
   | (Trapped, _, _) | (Blocked, _, _) => True
   | _ => False
   end ∧
   (cooperative env →
    ∃ e' w', run = (Returned 0, Some e', w') ∧ pse_kind e' ≠ 0)).
Proof.
  intros env run. subst env run.
  assert (Hsucc : parent_succeeds B w →
            0 < (o_fork (w_env w)).1 ∧
            ∃ w', ps_spawn_process B config (Some e) w =
                    (Returned (o_fork (w_env w)).1, Some e, w')).
  { intros ((r & wr & Hreach) & Hfork & Hrestore & Hunlock & Heof).
    split; [done|].
    destruct (ps_spawn_process_in_parent B config (Some e) w r wr
                Hreach Hfork Hrestore Hunlock) as (w9 & _ & _ & ->).
    by apply read_loop_end_of_file. }
  split; [split|split; [done|]].
  - intros Hs. destruct (Hsucc Hs) as (Hfork & w' & Hrun). by eexists _, _, _.
  - intros (p & oe & w' & Hrun & Hp). by eapply ps_spawn_process_pid.
  - intros Hfails Hparent. split; [|by apply ps_spawn_process_comes_back].
    pose proof (ps_spawn_process_returns B config e w) as Hret.
    pose proof (ps_spawn_process_parent_fate config (Some e) w Hparent) as Hfate.
    destruct (ps_spawn_process B config (Some e) w) as [[f oe] w'] eqn:Hrun.
    destruct f as [p| | | | |]; try done.
    destruct Hret as [[Hp _]|Hret]; [|done].
    exfalso. apply Hfails. by eapply ps_spawn_process_pid.
Qed.

End Outcome.

(** Two calls on Linux: one that succeeds, with a stale record in
    [*out_error], and one whose child could not exec. *)
Lemma ps_spawn_process_result_witness :
  (parent_succeeds linux_build parent_of_true ∧
   ∃ w', ps_spawn_process linux_build (run_true []) (Some stale_error)
           parent_of_true = (Returned 42, Some stale_error, w')) ∧
  (¬ parent_succeeds linux_build parent_of_missing ∧
   cooperative (w_env parent_of_missing) ∧
   ∃ e' w', ps_spawn_process linux_build (missing_program []) (Some stale_error)
              parent_of_missing = (Returned 0, Some e', w') ∧
            pse_kind e' ≠ 0).
Proof.
  assert (Hs : parent_succeeds linux_build parent_of_true).
  { split; [exists 3, 4; repeat split; vm_compute; reflexivity|].
    split; [reflexivity|]. split; [reflexivity|]. split; [reflexivity|].
    exists [], eof, []. repeat split. apply Forall_nil_2. }
  assert (Hf : ¬ parent_succeeds linux_build parent_of_missing).
  { intros (_ & _ & _ & _ & failed & r & rest & Heq & Hall & Hr).
    change (o_read (w_env parent_of_missing)) with [full_read execve_enoent] in Heq.
    destruct failed as [|r0 failed]; cbn [app] in Heq.
    - injection Heq as <- _. discriminate Hr.
    - destruct failed; discriminate Heq. }
  assert (Hc : cooperative (w_env parent_of_missing)).
  { split; [reflexivity|]. split; [reflexivity|]. split.
    - exists 42, 0, []. split; [reflexivity|lia].
    - split.
      + exists (full_read execve_enoent). split; [left|discriminate].
      + intros r Hr%list_elem_of_singleton _. rewrite Hr.
        split; [reflexivity|discriminate]. }
  split; split; try done.
  - destruct (ps_spawn_process_result linux_build (run_true []) stale_error
                parent_of_true) as (_ & H & _).
    exact (proj2 (H Hs)).
  - split; [done|].
    destruct (ps_spawn_process_result linux_build (missing_program [])
                stale_error parent_of_missing) as (_ & _ & H).
    refine (proj2 (H Hf _) Hc). discriminate.
Defined.
